(** * Plant-disease prediction backend: label map, weight loading,
      preprocessing, inference and the /predict handler.

    Shallow embedding of [server.js] (the Jimp / tfjs-node server), of the
    canvas / manual-weight-loading server (the second server file of the
    repository) and of the label part of [train_model.js]. *)

From Stdlib Require Import ZArith NArith List String Ascii Bool Lia.
From Stdlib Require Import Permutation Sorted.
From Stdlib Require Import Decimal DecimalString DecimalN.
From Stdlib Require Import Floats.SpecFloat.
From Stdlib Require Import Strings.Byte.
From stdpp Require Import base gmap strings list sorting.

Local Open Scope string_scope.
Local Open Scope list_scope.

(** ** JavaScript values and objects *)

(** The values that reach the label pipeline: a class name (a string) or
    [undefined] (a missing property, an index outside an array). *)
Inductive value : Type :=
| Undefined
| Str (s : string).

(** ToBoolean on these values: [undefined] and the empty string are falsy. *)
Definition truthy (v : value) : bool :=
  match v with
  | Undefined => false
  | Str s => negb (String.eqb s "")
  end.

(** [v || d] where [d] is a string literal. *)
Definition or_string (v : value) (d : string) : string :=
  match v with
  | Str s => if truthy v then s else d
  | Undefined => d
  end.

(** An ordinary object: its own properties in creation order, keys unique. *)
Definition object (V : Type) : Type := list (string * V).

Fixpoint obj_lookup {V} (o : object V) (k : string) : option V :=
  match o with
  | [] => None
  | (k', v) :: o' => if String.eqb k' k then Some v else obj_lookup o' k
  end.

(** [o[k] = v]: overwrite in place, or create the property last. *)
Fixpoint obj_set {V} (o : object V) (k : string) (v : V) : object V :=
  match o with
  | [] => [(k, v)]
  | (k', v') :: o' =>
      if String.eqb k' k then (k', v) :: o' else (k', v') :: obj_set o' k v
  end.

(** [o[k]] on an object whose properties are strings. *)
Definition obj_get (o : object string) (k : string) : value :=
  match obj_lookup o k with
  | Some s => Str s
  | None => Undefined
  end.

(** Array read [a[i]] with [i] a JavaScript number holding an integer;
    [indexOf] can hand in -1. *)
Definition arr_get {A} (a : list A) (i : Z) : option A :=
  if (i <? 0)%Z then None else a !! Z.to_nat i.

(** ** Numbers used as property keys *)

(** ToString of a non-negative integer, as used for [classIndices[i]]. *)
Definition ToString_index (n : N) : string :=
  NilZero.string_of_uint (N.to_uint n).

(** ToNumber on a property key.  Only the unsigned decimal integer literals
    are interpreted (the empty string is 0, leading zeros are allowed);
    [None] stands for NaN.  Signed, fractional, exponent, hexadecimal and
    blank-padded literals are not interpreted by this model, and integers
    are kept exact, as a double keeps them up to 2^53. *)
Definition StringToNumber (s : string) : option N :=
  option_map N.of_uint (NilEmpty.uint_of_string s).

(** An array index: a canonical numeric string below 2^32 - 1. *)
Definition array_index (k : string) : option N :=
  match StringToNumber k with
  | Some n =>
      if String.eqb (ToString_index n) k && (n <? 4294967295)%N
      then Some n else None
  | None => None
  end.

Definition is_array_index (k : string) : bool :=
  match array_index k with Some _ => true | None => false end.

(** ** Array.prototype.sort *)

Section Sort.
Context {A : Type}.
(** The comparator returns a number; [None] is NaN. *)
Variable comparefn : A -> A -> option Z.

(** SortCompare: a NaN result counts as +0. *)
Definition SortCompare (x y : A) : Z :=
  match comparefn x y with
  | Some v => v
  | None => 0%Z
  end.

(** The sort is stable: [x], which came first, goes before the first
    element it does not exceed.  (With a comparator that is not a
    consistent order the result of the real sort is implementation
    defined; this is one such result.) *)
Fixpoint sort_insert (x : A) (l : list A) : list A :=
  match l with
  | [] => [x]
  | y :: t =>
      if (SortCompare x y <=? 0)%Z then x :: y :: t
      else y :: sort_insert x t
  end.

Fixpoint Array_sort (l : list A) : list A :=
  match l with
  | [] => []
  | x :: t => sort_insert x (Array_sort t)
  end.
End Sort.

(** ** Object.keys *)

Definition compare_N (a b : N) : option Z := Some (Z.of_N a - Z.of_N b)%Z.

(** Integer-index keys first, in ascending numeric order, then the other
    string keys in creation order. *)
Definition Object_keys {V} (o : object V) : list string :=
  let ks := map fst o in
  map ToString_index (Array_sort compare_N (omap array_index ks))
  ++ List.filter (fun k => negb (is_array_index k)) ks.

(** ** JSON text, at the level of its member list *)

(** A JSON object text is taken as the sequence of its members, in the
    order of the text; string escaping is not modelled.  Parsing creates
    the properties in that order, a repeated key overwriting the value. *)
Definition JSON_parse {V} (members : list (string * V)) : object V :=
  fold_left (fun o m => obj_set o (fst m) (snd m)) members [].

Definition JSON_stringify (o : object string) : list (string * string) :=
  omap (fun k => match obj_lookup o k with
                 | Some v => Some (k, v)
                 | None => None
                 end) (Object_keys o).

(** ** LabelMap: [initialize], both servers

<<
    labels = Object.keys(classIndices)
      .sort((a, b) => a - b)
      .map((key) => classIndices[key]);
>> *)

(** [(a, b) => a - b] on two keys. *)
Definition key_minus (a b : string) : option Z :=
  match StringToNumber a, StringToNumber b with
  | Some x, Some y => Some (Z.of_N x - Z.of_N y)%Z
  | _, _ => None
  end.

Definition sorted_keys (classIndices : object string) : list string :=
  Array_sort key_minus (Object_keys classIndices).

Definition build_labels (classIndices : object string) : list value :=
  map (fun key => obj_get classIndices key) (sorted_keys classIndices).

(** [class_indices.json] read by [initialize]. *)
Definition load_labels (members : list (string * string)) : list value :=
  build_labels (JSON_parse members).

(** ** train_model.js: writing class_indices.json

<<
    const classIndices = {};
    labels.forEach((label, i) => (classIndices[i] = label));
    fs.writeFileSync("./model/class_indices.json", JSON.stringify(classIndices, null, 2));
>> *)
Definition train_classIndices (labels : list string) : object string :=
  fold_left (fun o p => obj_set o (ToString_index (N.of_nat (fst p))) (snd p))
            (combine (seq 0 (length labels)) labels) [].

Definition write_class_indices (labels : list string) : list (string * string) :=
  JSON_stringify (train_classIndices labels).


(** ** Numbers

    A JavaScript number is a binary64 float and an element of a
    [Float32Array] or of a float32 tensor is a binary32 float; both are
    [spec_float]s, the IEEE 754 model of the standard library.  Reading a
    float32 element yields the same real value as a number, so the
    comparisons below work on the binary32 encodings. *)

Definition f32_of_Z (z : Z) : spec_float := binary_normalize 24 128 z 0 false.

Definition f32_of_byte (b : byte) : spec_float := f32_of_Z (Z.of_N (Byte.to_N b)).

(** The number literal [100], as 25 * 2^2.  [Number_mul] below rounds the
    exact product of the values of its operands, whatever their encoding. *)
Definition hundred : spec_float := S754_finite false 25 2.

(** [x * y] on numbers: the exact product rounded to binary64.  The
    operands may be float32 elements. *)
Definition Number_mul (x y : spec_float) : spec_float :=
  match x, y with
  | S754_finite sx mx ex, S754_finite sy my ey =>
      binary_round 53 1024 (xorb sx sy) (mx * my) (ex + ey)
  | _, _ => SFmul 53 1024 x y
  end.

(** [Math.max(...args)]: starts from -Infinity, NaN is contagious, +0 is
    larger than -0. *)
Definition max_step (highest number : spec_float) : spec_float :=
  match highest, number with
  | S754_nan, _ | _, S754_nan => S754_nan
  | S754_zero true, S754_zero false => number
  | _, _ => if SFltb highest number then number else highest
  end.

Definition Math_max (args : list spec_float) : spec_float :=
  fold_left max_step args (S754_infinity true).

(** [%TypedArray%.prototype.indexOf]: strict equality, so NaN is never
    found and the two zeros are equal; -1 when absent. *)
Fixpoint indexOf_from (a : list spec_float) (v : spec_float) (k : Z) : Z :=
  match a with
  | [] => (-1)%Z
  | x :: t => if SFeqb x v then k else indexOf_from t v (k + 1)%Z
  end.

Definition indexOf (a : list spec_float) (v : spec_float) : Z := indexOf_from a v 0.

(** *** Number.prototype.toFixed(2) *)

Definition digits_of (n : Z) : string := NilZero.string_of_uint (N.to_uint (Z.to_N n)).

(** The integer [n] nearest to [100 * m * 2^e]; of two, the larger. *)
Definition nearest_hundredth (m : positive) (e : Z) : Z :=
  match e with
  | Zneg p => ((200 * Zpos m + 2 ^ Zpos p) / 2 ^ (Zpos p + 1))%Z
  | _ => (100 * Zpos m * 2 ^ e)%Z
  end.

(** [m * 2^e >= 10^21]. *)
Definition at_least_1e21 (m : positive) (e : Z) : bool :=
  match e with
  | Zneg p => (10 ^ 21 * 2 ^ Zpos p <=? Zpos m)%Z
  | _ => (10 ^ 21 <=? Zpos m * 2 ^ e)%Z
  end.

(** The digits of [n] with a point before the last two, padded with
    zeros to at least three digits. *)
Definition fixed2 (n : Z) : string :=
  digits_of (n / 100) ++ "." ++ digits_of ((n / 10) mod 10) ++ digits_of (n mod 10).

Section ToFixed.
(** Number::toString, used by [toFixed] from 10^21 on. *)
Variable Number_toString : spec_float -> string.

Definition toFixed2 (x : spec_float) : string :=
  match x with
  | S754_nan => "NaN"
  | S754_infinity false => "Infinity"
  | S754_infinity true => "-Infinity"
  | S754_zero _ => "0.00"
  | S754_finite s m e =>
      (if s then "-" else "") ++
      (if at_least_1e21 m e then Number_toString (S754_finite false m e)
       else fixed2 (nearest_hundredth m e))
  end.
End ToFixed.

(** ** Tensors and the preprocessing chain *)

Record Tensor (A : Type) : Type := mkTensor { shape : list nat; data : list A }.
Arguments mkTensor {A} _ _.
Arguments shape {A} _.
Arguments data {A} _.

(** A read past the end of a typed array is [undefined], stored as 0. *)
Definition channel_at (vals : list byte) (j : nat) : byte :=
  default "000"%byte (vals !! j).

(** A 2d canvas: its size and the RGBA bytes of [getImageData]. *)
Record Canvas : Type := mkCanvas { width : nat; height : nat; image_data : list byte }.

(** [tf.browser.fromPixels(canvas)]: three channels, alpha dropped, shape
    [[height, width, 3]]; the values are int32 holding a byte each. *)
Definition fromPixels (canvas : Canvas) : Tensor byte :=
  mkTensor [height canvas; width canvas; 3]
    (flat_map (fun i => map (fun channel => channel_at (image_data canvas) (i * 4 + channel))
                            (seq 0 3))
              (seq 0 (width canvas * height canvas))).

Definition toFloat (t : Tensor byte) : Tensor spec_float :=
  mkTensor (shape t) (map f32_of_byte (data t)).

(** [tf.scalar(255)], a float32. *)
Definition tf_scalar (z : Z) : spec_float := f32_of_Z z.

(** [t.div(s)] with a scalar [s]: elementwise float32 division. *)
Definition div (t : Tensor spec_float) (s : spec_float) : Tensor spec_float :=
  mkTensor (shape t) (map (fun x => SFdiv 24 128 x s) (data t)).

Definition expandDims {A} (t : Tensor A) : Tensor A :=
  mkTensor (1 :: shape t) (data t).

(** [.toFloat().div(tf.scalar(255)).expandDims()], both servers. *)
Definition normalize (pixels : Tensor byte) : Tensor spec_float :=
  expandDims (div (toFloat pixels) (tf_scalar 255)).

(** The CPU backend of the canvas server divides in binary64 and stores
    the quotient in a [Float32Array]. *)
Definition f64_of (x : spec_float) : spec_float :=
  match x with
  | S754_finite s m e => binary_round 53 1024 s m e
  | _ => x
  end.

Definition f32_of (x : spec_float) : spec_float :=
  match x with
  | S754_finite s m e => binary_round 24 128 s m e
  | _ => x
  end.

Definition div_cpu (x s : spec_float) : spec_float :=
  f32_of (SFdiv 53 1024 (f64_of x) (f64_of s)).

(** ** Exceptions, the file system and the request monad *)

Inductive outcome (A : Type) : Type :=
| Ok (a : A)
| Throw (message : string).
Arguments Ok {A} _.
Arguments Throw {A} _.

#[global] Instance outcome_ret : MRet outcome := fun A a => Ok a.
#[global] Instance outcome_bind : MBind outcome := fun A B f m =>
  match m with
  | Ok a => f a
  | Throw e => Throw e
  end.

(** Paths to file contents. *)
Abbreviation Files := (gmap string (list byte)).

Definition readFileSync (fs : Files) (path : string) : outcome (list byte) :=
  match fs !! path with
  | Some bytes => Ok bytes
  | None => Throw "ENOENT: no such file or directory"
  end.

(** A computation that may change the file system and may throw. *)
Definition M (A : Type) : Type := Files -> outcome A * Files.

#[global] Instance M_ret : MRet M := fun A a fs => (Ok a, fs).
#[global] Instance M_bind : MBind M := fun A B f m fs =>
  match m fs with
  | (Ok a, fs') => f a fs'
  | (Throw e, fs') => (Throw e, fs')
  end.

Definition lift {A} (c : Files -> outcome A) : M A := fun fs => (c fs, fs).

Definition existsSync (path : string) : M bool :=
  fun fs => (Ok (bool_decide (is_Some (fs !! path))), fs).

Definition unlinkSync (path : string) : M unit :=
  fun fs =>
    match fs !! path with
    | Some _ => (Ok tt, delete path fs)
    | None => (Throw "ENOENT: no such file or directory", fs)
    end.

(** [try { body } catch (err) { handler(err.message) } finally { final }]:
    the finaliser runs last on every path, and an exception of its own
    replaces the result. *)
Definition try_catch_finally {A} (body : M A) (handler : string -> M A)
    (final : M unit) : M A :=
  fun fs =>
    let '(r, fs1) := body fs in
    let '(r', fs2) := match r with
                      | Ok a => (Ok a, fs1)
                      | Throw e => handler e fs1
                      end in
    let '(f, fs3) := final fs2 in
    (match f with Ok _ => r' | Throw e => Throw e end, fs3).

(** ** HTTP *)

(** [req.file]: absent, or the path multer stored the upload at. *)
Record Request : Type := mkRequest { file : option string }.

Inductive Body : Type :=
| Json (fields : object string)
| Text (s : string).

Record Response : Type := mkResponse { status : nat; body : Body }.

(** [res.json({...})]: properties whose value is [undefined] are left out. *)
Definition res_json (code : nat) (fields : list (string * value)) : Response :=
  mkResponse code
    (Json (omap (fun p => match snd p with
                          | Str s => Some (fst p, s)
                          | Undefined => None
                          end) fields)).

(** ** model.json and the artifacts handed to tfjs *)

(** One entry of [weightsManifest]: shard file names and weight
    specifications. *)
Record WeightsGroup (W : Type) : Type := mkGroup { paths : list string; weights : list W }.
Arguments mkGroup {W} _ _.
Arguments paths {W} _.
Arguments weights {W} _.

Record ModelJson (T W : Type) : Type :=
  mkModelJson { modelTopology : T; weightsManifest : list (WeightsGroup W) }.
Arguments mkModelJson {T W} _ _.
Arguments modelTopology {T W} _.
Arguments weightsManifest {T W} _.

(** What the IO handler's [load] returns. *)
Record ModelArtifacts (T W : Type) : Type :=
  mkArtifacts { art_modelTopology : T; weightSpecs : list W; weightData : list byte }.
Arguments mkArtifacts {T W} _ _ _.
Arguments art_modelTopology {T W} _.
Arguments weightSpecs {T W} _.
Arguments weightData {T W} _.

(** A Node [Buffer]: a view of [byteLength] bytes at [byteOffset] into an
    [ArrayBuffer]. *)
Record Buffer : Type := mkBuffer { buffer : list byte; byteOffset : nat; byteLength : nat }.

Definition ArrayBuffer_slice (ab : list byte) (start stop : nat) : list byte :=
  take (stop - start) (drop start ab).

(** ** The libraries the servers call *)

Class Runtime : Type := {
  Model : Type;
  Image : Type;
  JimpImage : Type;
  Topology : Type;
  WeightSpec : Type;
  MODEL_DIR : string;
  path_join : string -> string -> string;
  (** JSON.parse of the three artifact files *)
  parse_class_indices : list byte -> outcome (list (string * string));
  parse_disease_info : list byte -> outcome (gmap string (object string));
  parse_model_json : list byte -> outcome (ModelJson Topology WeightSpec);
  (** canvas: [loadImage(path)]; [drawImage(image, 0, 0, w, h)] followed
      by [getImageData] *)
  loadImage : Files -> string -> outcome Image;
  drawImage : Image -> nat -> nat -> list byte;
  (** jimp: [Jimp.read(path)]; [resize(w, h)] followed by
      [getBufferAsync(MIME_JPEG)] *)
  Jimp_read : Files -> string -> outcome JimpImage;
  resize_getBuffer : JimpImage -> nat -> nat -> outcome (list byte);
  (** tfjs and tfjs-node *)
  decodeImage : list byte -> outcome (Tensor byte);
  nearest_source : nat -> nat -> nat -> nat;
  loadLayersModel_url : Files -> string -> outcome Model;
  loadLayersModel : ModelArtifacts Topology WeightSpec -> outcome Model;
  model_predict : Model -> Tensor spec_float -> outcome (list spec_float);
  (** Number::toString *)
  Number_toString : spec_float -> string;
  (** the allocation pool around a [Buffer] that [Buffer.concat] returns *)
  pool_before : list byte;
  pool_after : list byte
}.

Section Servers.
Context {R : Runtime}.

(** The module-level variables [model], [labels] and [solutions]. *)
Record Globals : Type :=
  mkGlobals { model : option Model; labels : list value; solutions : gmap string (object string) }.

(** [let model; let labels = []; let solutions = {};] *)
Definition initial_globals : Globals := mkGlobals None [] ∅.

(** *** Inference results, both servers

<<
    const maxIdx = data.indexOf(Math.max(...data));
    const confidence = (data[maxIdx] * 100).toFixed(2);
    const label = labels[maxIdx] || "Unknown";
>> *)
Definition maxIdx_of (data : list spec_float) : Z := indexOf data (Math_max data).

(** [data[maxIdx] * 100]; [undefined * 100] is NaN. *)
Definition percent_of (data : list spec_float) (maxIdx : Z) : spec_float :=
  match arr_get data maxIdx with
  | Some x => Number_mul x hundred
  | None => S754_nan
  end.

Definition confidence_of (data : list spec_float) (maxIdx : Z) : string :=
  toFixed2 Number_toString (percent_of data maxIdx).

Definition label_of (labels : list value) (maxIdx : Z) : string :=
  or_string (default Undefined (arr_get labels maxIdx)) "Unknown".

(** *** Weight loading, canvas server

<<
    const shardPaths = modelJson.weightsManifest[0].paths;
    const weightBuffers = shardPaths.map((shardPath) =>
      fs.readFileSync(path.join(MODEL_DIR, shardPath)));
    const combinedWeights = Buffer.concat(weightBuffers);
>> *)
Fixpoint read_shards (fs : Files) (shardPaths : list string) : outcome (list (list byte)) :=
  match shardPaths with
  | [] => Ok []
  | shardPath :: rest =>
      b ← readFileSync fs (path_join MODEL_DIR shardPath);
      bs ← read_shards fs rest;
      Ok (b :: bs)
  end.

(** [Buffer.concat]: a fresh buffer of the total length, possibly carved
    out of the pool, with the inputs copied one after the other. *)
Definition Buffer_concat (list : list (list byte)) : Buffer :=
  let bytes := concat list in
  mkBuffer (pool_before ++ bytes ++ pool_after) (length pool_before) (length bytes).

(** The [load] method of [modelIOHandler]. *)
Definition load_artifacts (fs : Files) (modelJson : ModelJson Topology WeightSpec)
  : outcome (ModelArtifacts Topology WeightSpec) :=
  match weightsManifest modelJson with
  | [] => Throw "Cannot read properties of undefined (reading 'paths')"
  | group0 :: _ =>
      weightBuffers ← read_shards fs (paths group0);
      let combinedWeights := Buffer_concat weightBuffers in
      Ok (mkArtifacts (modelTopology modelJson) (weights group0)
            (ArrayBuffer_slice (buffer combinedWeights)
               (byteOffset combinedWeights)
               (byteOffset combinedWeights + byteLength combinedWeights)))
  end.

(** *** [initialize], canvas server.  An exception leaves the variables
    assigned so far and is only logged. *)
Definition canvas_load_model (fs : Files) : outcome Model :=
  text ← readFileSync fs (path_join MODEL_DIR "model.json");
  modelJson ← parse_model_json text;
  artifacts ← load_artifacts fs modelJson;
  loadLayersModel artifacts.

Definition load_solutions (fs : Files) (g : Globals) : outcome Globals :=
  let infoPath := path_join MODEL_DIR "diseaseInfo.json" in
  match fs !! infoPath with
  | Some text =>
      info ← parse_disease_info text;
      Ok (mkGlobals (model g) (labels g) info)
  | None => Ok g
  end.

Definition load_class_indices (fs : Files) (g : Globals) : outcome Globals :=
  text ← readFileSync fs (path_join MODEL_DIR "class_indices.json");
  classIndices ← parse_class_indices text;
  Ok (mkGlobals (model g) (load_labels classIndices) (solutions g)).

Definition canvas_initialize (fs : Files) (g : Globals) : Globals :=
  match load_class_indices fs g with
  | Throw _ => g
  | Ok g1 =>
      match load_solutions fs g1 with
      | Throw _ => g1
      | Ok g2 =>
          match canvas_load_model fs with
          | Throw _ => g2
          | Ok m => mkGlobals (Some m) (labels g2) (solutions g2)
          end
      end
  end.

(** *** [initialize], Jimp server: the model first. *)
Definition jimp_initialize (fs : Files) (g : Globals) : Globals :=
  match loadLayersModel_url fs ("file://" ++ MODEL_DIR ++ "/model.json") with
  | Throw _ => g
  | Ok m =>
      let g0 := mkGlobals (Some m) (labels g) (solutions g) in
      match load_class_indices fs g0 with
      | Throw _ => g0
      | Ok g1 =>
          match load_solutions fs g1 with
          | Throw _ => g1
          | Ok g2 => g2
          end
      end
  end.

(** *** POST /predict, canvas server *)

(** [solutions[label]], a property read on the catalogue.  The catalogue
    is an ordinary object: a name it does not hold itself is looked up in
    [Object.prototype], whose members are functions (for [__proto__] the
    prototype object itself).  Such a value is truthy, has neither a
    [solution] nor a [pesticide] property and no enumerable property of
    its own: as far as the handlers look at it, it is an object without
    properties. *)
Definition Object_prototype_names : list string :=
  ["constructor"; "__defineGetter__"; "__defineSetter__"; "hasOwnProperty";
   "__lookupGetter__"; "__lookupSetter__"; "isPrototypeOf"; "propertyIsEnumerable";
   "toString"; "valueOf"; "__proto__"; "toLocaleString"].

Definition inherited (name : string) : bool :=
  existsb (String.eqb name) Object_prototype_names.

Definition solutions_get (solutions : gmap string (object string)) (label : string)
  : option (object string) :=
  match solutions !! label with
  | Some entry => Some entry
  | None => if inherited label then Some [] else None
  end.

(** [solutions[label] || { disease: label, solution: ..., pesticide: ... }] *)
Definition canvas_info (solutions : gmap string (object string)) (label : string)
  : object string :=
  match solutions_get solutions label with
  | Some entry => entry
  | None => [("disease", label);
             ("solution", "Use proper fertilizers and care.");
             ("pesticide", "Apply recommended pesticide.")]
  end.

Definition canvas_input (image : Image) : Tensor spec_float :=
  let canvas := mkCanvas 224 224 (drawImage image 224 224) in
  normalize (fromPixels canvas).

Definition canvas_try (g : Globals) (imgPath : string) : M Response :=
  match model g with
  | None => fun fs => (Throw "Model not loaded yet.", fs)
  | Some m =>
      image ← lift (fun fs => loadImage fs imgPath);
      let input := canvas_input image in
      data ← lift (fun _ => model_predict m input);
      let maxIdx := maxIdx_of data in
      let confidence := confidence_of data maxIdx in
      let label := label_of (labels g) maxIdx in
      let info := canvas_info (solutions g) label in
      mret (res_json 200 [("status", Str "success"); ("label", Str label);
                          ("confidence", Str confidence);
                          ("solution", obj_get info "solution");
                          ("pesticide", obj_get info "pesticide")])
  end.

(** [err.message || "Prediction failed."] *)
Definition canvas_catch (message : string) : M Response :=
  mret (res_json 500 [("status", Str "error");
                      ("message", Str (or_string (Str message) "Prediction failed."))]).

Definition cleanup (imgPath : string) : M unit :=
  present ← existsSync imgPath;
  if present : bool then unlinkSync imgPath else mret tt.

Definition canvas_predict (g : Globals) (req : Request) : M Response :=
  match file req with
  | None => mret (res_json 400 [("status", Str "error"); ("message", Str "No file uploaded.")])
  | Some imgPath =>
      try_catch_finally (canvas_try g imgPath) canvas_catch (cleanup imgPath)
  end.

(** *** POST /predict, Jimp server *)

(** [resizeNearestNeighbor([h, w])] on a rank-3 image tensor; the backend
    picks the source row and column. *)
Definition resizeNearestNeighbor (t : Tensor byte) (newH newW : nat) : outcome (Tensor byte) :=
  match shape t with
  | [h; w; c] =>
      Ok (mkTensor [newH; newW; c]
            (flat_map (fun y =>
               flat_map (fun x =>
                 map (fun channel =>
                        channel_at (data t)
                          ((nearest_source h newH y * w + nearest_source w newW x) * c + channel))
                     (seq 0 c))
                 (seq 0 newW))
               (seq 0 newH)))
  | _ => Throw "resizeNearestNeighbor: x must be rank 3"
  end.

Definition jimp_input (fs : Files) (path : string) : outcome (Tensor spec_float) :=
  image ← Jimp_read fs path;
  buffer ← resize_getBuffer image 224 224;
  decoded ← decodeImage buffer;
  resized ← resizeNearestNeighbor decoded 224 224;
  Ok (normalize resized).

(** [solutions[label] || { solution: ..., pesticide: ... }] *)
Definition jimp_info (solutions : gmap string (object string)) (label : string)
  : object string :=
  match solutions_get solutions label with
  | Some entry => entry
  | None => [("solution", "General care needed.");
             ("pesticide", "Use appropriate pesticide.")]
  end.

(** [{ status: "success", label, confidence, ...info }] *)
Definition jimp_success (label confidence : string) (info : object string) : object string :=
  fold_left (fun o p => obj_set o (fst p) (snd p)) info
    [("status", "success"); ("label", label); ("confidence", confidence)].

Definition jimp_try (g : Globals) (req : Request) : M Response :=
  match file req with
  | None => mret (mkResponse 400 (Text "No image uploaded."))
  | Some path =>
      input ← lift (fun fs => jimp_input fs path);
      match model g with
      | None => fun fs => (Throw "Cannot read properties of undefined (reading 'predict')", fs)
      | Some m =>
          data ← lift (fun _ => model_predict m input);
          let maxIdx := maxIdx_of data in
          let confidence := confidence_of data maxIdx in
          let label := label_of (labels g) maxIdx in
          let info := jimp_info (solutions g) label in
          mret (mkResponse 200 (Json (jimp_success label confidence info)))
      end
  end.

Definition jimp_catch (message : string) : M Response :=
  mret (mkResponse 500 (Text "Failed to process image.")).

(** [if (req.file && fs.existsSync(req.file.path)) fs.unlinkSync(req.file.path)] *)
Definition jimp_finally (req : Request) : M unit :=
  match file req with
  | None => mret tt
  | Some path => cleanup path
  end.

Definition jimp_predict (g : Globals) (req : Request) : M Response :=
  try_catch_finally (jimp_try g req) jimp_catch (jimp_finally req).

End Servers.

(** ** Vocabulary of the properties *)

(** The numeric value a key is sorted by (0 where the key is NaN). *)
Definition key_number (k : string) : Z :=
  match StringToNumber k with
  | Some n => Z.of_N n
  | None => 0%Z
  end.

(** A key that is a decimal integer a number holds exactly. *)
Definition safe_integer_key (k : string) : Prop :=
  exists n, StringToNumber k = Some n /\ (n < 2 ^ 53)%N.

(** The keys 0, 1, ..., n-1. *)
Definition indices (n : nat) : list N := map N.of_nat (seq 0 n).

(** The claim that position and key coincide: every position [i] of the
    label list holds the value stored under the numeric key [i]. *)
Definition position_holds_key (members : list (string * string)) : Prop :=
  forall i : nat, i < length (load_labels members) ->
    load_labels members !! i
    = Some (obj_get (JSON_parse members) (ToString_index (N.of_nat i))).

(** The members written for the keys [ks] of [o]. *)
Definition members_of (o : object string) (ks : list string) : list (string * string) :=
  omap (fun k => match obj_lookup o k with
                 | Some v => Some (k, v)
                 | None => None
                 end) ks.

(** A float that is not NaN, as a point of a lexicographic order: its
    class (-Infinity, negative, zero, positive, +Infinity), then exponent
    and mantissa, negated for negative numbers.  [SFcompare] is the
    comparison of these points. *)
Definition sf_rank (x : spec_float) : Z * Z * Z :=
  match x with
  | S754_nan => (0, 0, 0)
  | S754_infinity true => (-2, 0, 0)
  | S754_infinity false => (2, 0, 0)
  | S754_zero _ => (0, 0, 0)
  | S754_finite true m e => (-1, - e, - Zpos m)
  | S754_finite false m e => (1, e, Zpos m)
  end%Z.

Definition lex_lt (p q : Z * Z * Z) : Prop :=
  let '(a1, b1, c1) := p in
  let '(a2, b2, c2) := q in
  (a1 < a2 \/ (a1 = a2 /\ (b1 < b2 \/ (b1 = b2 /\ c1 < c2))))%Z.

Definition is_nan (x : spec_float) : bool :=
  match x with S754_nan => true | _ => false end.

(** [x <= y] on floats that are not NaN. *)
Definition sf_le (x y : spec_float) : Prop :=
  lex_lt (sf_rank x) (sf_rank y) \/ sf_rank x = sf_rank y.

(** The float32 nearest to k/10. *)
Definition f32_tenths (k : Z) : spec_float := SFdiv 24 128 (f32_of_Z k) (f32_of_Z 10).

(** [n] is within one half of [scale * x]. *)
Definition within_half (n scale : Z) (x : spec_float) : Prop :=
  match x with
  | S754_zero _ => n = 0%Z
  | S754_finite s m e =>
      (2 * Z.abs (n * 2 ^ Z.max 0 (- e) - scale * cond_Zopp s (Zpos m) * 2 ^ Z.max 0 e)
       <= 2 ^ Z.max 0 (- e))%Z
  | _ => False
  end.

(** What [normalize] stores for a pixel channel byte. *)
Definition unit_of_byte (b : byte) : spec_float :=
  SFdiv 24 128 (f32_of_byte b) (tf_scalar 255).

Section WholeManifest.
Context {R : Runtime}.

(** The claim on the whole manifest: every shard file it references, in
    every entry of [weightsManifest], is read and concatenated in order,
    and all its weight specifications are handed over. *)
Definition loads_every_shard (fs : Files) (modelJson : ModelJson Topology WeightSpec) : Prop :=
  forall contents : list (list byte),
    Forall2 (fun shardPath bytes => fs !! path_join MODEL_DIR shardPath = Some bytes)
            (flat_map paths (weightsManifest modelJson)) contents ->
    exists artifacts,
      load_artifacts fs modelJson = Ok artifacts
      /\ weightData artifacts = concat contents
      /\ length (weightData artifacts) = sum_list (map length contents)
      /\ weightSpecs artifacts = flat_map weights (weightsManifest modelJson).
End WholeManifest.

(** ** A concrete runtime and concrete requests *)

(** Stand-ins for the libraries: images are their own pixel bytes, the
    model answers [0.2, 0.5, 0.5, 0.1] to every input. *)
Definition example_runtime : Runtime := {|
  Model := unit;
  Image := list byte;
  JimpImage := list byte;
  Topology := unit;
  WeightSpec := string;
  MODEL_DIR := "model";
  path_join := fun dir name => (dir ++ "/" ++ name)%string;
  parse_class_indices := fun _ => Ok [("1", "Tomato___healthy"); ("0", "Tomato___Early_blight")];
  parse_disease_info := fun _ => Ok ∅;
  parse_model_json := fun _ =>
    Ok (mkModelJson tt [mkGroup ["group1-shard1of1.bin"] ["conv/kernel"];
                        mkGroup ["group2-shard1of1.bin"] ["dense/kernel"]]);
  loadImage := fun fs path => readFileSync fs path;
  drawImage := fun image w h => image;
  Jimp_read := fun fs path => readFileSync fs path;
  resize_getBuffer := fun image w h => Ok image;
  decodeImage := fun buffer => Ok (mkTensor [1; 1; 3] buffer);
  nearest_source := fun _ _ _ => 0;
  loadLayersModel_url := fun _ _ => Ok tt;
  loadLayersModel := fun _ => Ok tt;
  model_predict := fun _ _ => Ok (map f32_tenths [2; 5; 5; 1]%Z);
  Number_toString := fun _ => "1e+21";
  pool_before := ["001"%byte];
  pool_after := ["002"%byte]
|}.

Definition two_group_manifest : ModelJson unit string :=
  mkModelJson tt [mkGroup ["group1-shard1of1.bin"] ["conv/kernel"];
                  mkGroup ["group2-shard1of1.bin"] ["dense/kernel"]].

Definition example_files : Files :=
  {[ "model/group1-shard1of1.bin" := ["001"; "002"]%byte;
     "model/group2-shard1of1.bin" := ["003"]%byte;
     "uploads/leaf" := ["255"; "000"; "000"; "255"]%byte ]}.

Definition example_request : Request := mkRequest (Some "uploads/leaf").

Definition ready_globals : @Globals example_runtime :=
  @mkGlobals example_runtime (Some tt)
    [Str "Tomato___Early_blight"; Str "Tomato___healthy"] ∅.

(** The byte with a given value (0 above 255). *)
Definition byte_at (n : nat) : byte := default "000"%byte (Byte.of_N (N.of_nat n)).

(** The 256 normalised values, in the order of the bytes. *)
Definition unit_table : list spec_float :=
  map (fun n => unit_of_byte (byte_at n)) (seq 0 256).

(** The entries of a table of 256 floats, compared two by two: an
    earlier entry is smaller. *)
Definition increasing_on (us : list spec_float) : bool :=
  forallb (fun i => forallb (fun j =>
      implb (Nat.ltb i j) (SFltb (nth i us S754_nan) (nth j us S754_nan)))
    (seq 0 256)) (seq 0 256).

Definition units_increasing : bool := increasing_on unit_table.

(** ** The training script (train_model.js)

    The directories of the data set are a map from a directory's path to
    the names it holds; [readdirSync] of anything else throws.  The image
    files are read through [loadImage] from the file map of the servers. *)

Abbreviation Dirs := (gmap string (list string)).

Definition readdirSync (dirs : Dirs) (path : string) : outcome (list string) :=
  match dirs !! path with
  | Some names => Ok names
  | None => Throw "ENOENT: no such file or directory, scandir"
  end.

Definition IMAGE_SIZE : nat := 224.

(** [tf.oneHot(i, depth)] for a number [i]: an int32 vector of length
    [depth] holding 1 at position [i] and 0 elsewhere; tfjs refuses a
    depth below 2. *)
Definition oneHot (i depth : nat) : outcome (Tensor Z) :=
  if Nat.ltb depth 2
  then Throw ("Error in oneHot: depth must be >=2, but it is "
              ++ ToString_index (N.of_nat depth))
  else Ok (mkTensor [depth] (map (fun j => if Nat.eqb j i then 1%Z else 0%Z) (seq 0 depth))).

(** [tf.concat(tensors)], along axis 0: tfjs wants at least one tensor,
    of rank 1 or more, all of the same shape behind the first dimension;
    the first dimensions add up and the values follow one another. *)
Definition tf_concat {A} (tensors : list (Tensor A)) : outcome (Tensor A) :=
  match tensors with
  | [] => Throw "Pass at least one tensor to concat"
  | t :: _ =>
      if forallb (fun t' => bool_decide (shape t' <> [] /\ tail (shape t') = tail (shape t)))
                 tensors
      then Ok (mkTensor (sum_list (map (fun t' => hd 0 (shape t')) tensors) :: tail (shape t))
                        (flat_map data tensors))
      else Throw "Error in concat: the shapes of the tensors do not match"
  end.

Section Training.
Context {R : Runtime}.

(** [DATA_DIR], the folder of class folders. *)
Variable DATA_DIR : string.

(** The external state the script reads: the image files and the
    directory listings. *)
Variable fs : Files.
Variable dirs : Dirs.

(** <<
    async function loadImageTensor(filePath) {
        const img = await loadImage(filePath);
        const canvas = createCanvas(IMAGE_SIZE, IMAGE_SIZE);
        const ctx = canvas.getContext("2d");
        ctx.drawImage(img, 0, 0, IMAGE_SIZE, IMAGE_SIZE);
        return tf.browser.fromPixels(canvas).toFloat().div(tf.scalar(255)).expandDims();
    }
>> *)
Definition loadImageTensor (filePath : string) : outcome (Tensor spec_float) :=
  img ← loadImage fs filePath;
  let canvas := mkCanvas IMAGE_SIZE IMAGE_SIZE (drawImage img IMAGE_SIZE IMAGE_SIZE) in
  Ok (expandDims (div (toFloat (fromPixels canvas)) (tf_scalar 255))).

(** The inner loop of [loadDataset], [for (const file of files)], with
    the arrays [xs] and [ys] it pushes to. *)
Fixpoint load_files (folder : string) (i depth : nat) (files : list string)
    (xs : list (Tensor spec_float)) (ys : list (Tensor Z))
  : outcome (list (Tensor spec_float) * list (Tensor Z)) :=
  match files with
  | [] => Ok (xs, ys)
  | file :: files' =>
      tensor ← loadImageTensor (path_join folder file);
      y ← oneHot i depth;
      load_files folder i depth files' (xs ++ [tensor]) (ys ++ [y])
  end.

(** The outer loop, [for (let i = 0; i < labels.length; i++)], from
    index [i] on; [rest] are the labels from [i] and [depth] is
    [labels.length]. *)
Fixpoint load_classes (rest : list string) (i depth : nat)
    (xs : list (Tensor spec_float)) (ys : list (Tensor Z))
  : outcome (list (Tensor spec_float) * list (Tensor Z)) :=
  match rest with
  | [] => Ok (xs, ys)
  | label :: rest' =>
      let folder := path_join DATA_DIR label in
      files ← readdirSync dirs folder;
      acc ← load_files folder i depth files xs ys;
      load_classes rest' (S i) depth (fst acc) (snd acc)
  end.

(** <<
    async function loadDataset() {
        const xs = [];
        const ys = [];
        for (let i = 0; i < labels.length; i++) { ... }
        return { xs: tf.concat(xs), ys: tf.concat(ys) };
    }
>> *)
Definition loadDataset (labels : list string)
  : outcome (Tensor spec_float * Tensor Z) :=
  acc ← load_classes labels 0 (length labels) [] [];
  xs ← tf_concat (fst acc);
  ys ← tf_concat (snd acc);
  Ok (xs, ys).

(** The files of the data set in the order the loops visit them, and the
    class index of each. *)
Definition dataset_paths (labels : list string) (listings : list (list string))
  : list string :=
  concat (zip_with (fun label files =>
                      map (path_join (path_join DATA_DIR label)) files)
                   labels listings).

End Training.

Definition classes_from (i : nat) (listings : list (list string)) : list nat :=
  concat (imap (fun k files => replicate (length files) (i + k)) listings).

Definition dataset_classes (listings : list (list string)) : list nat :=
  classes_from 0 listings.

(** Row [i] of the targets: 1 at the class index, 0 elsewhere. *)
Definition hot_row (depth i : nat) : list Z :=
  map (fun j => if Nat.eqb j i then 1%Z else 0%Z) (seq 0 depth).

(** A data set of two classes with one image each. *)
Definition example_dirs : Dirs :=
  {[ "data/Tomato___Early_blight" := ["a.jpg"];
     "data/Tomato___healthy" := ["b.jpg"] ]}.

Definition example_images : Files :=
  {[ "data/Tomato___Early_blight/a.jpg" := ["255"; "000"; "000"; "255"]%byte;
     "data/Tomato___healthy/b.jpg" := ["000"; "255"; "000"; "255"]%byte ]}.

(** The model directory of a server that can start, without a remedy
    catalogue. *)
Definition model_files : Files :=
  {[ "model/class_indices.json" := [];
     "model/model.json" := [];
     "model/group1-shard1of1.bin" := ["001"; "002"]%byte ]}.

(** The example libraries with a model whose output holds a NaN. *)
Definition nan_runtime : Runtime := {|
  Model := unit;
  Image := list byte;
  JimpImage := list byte;
  Topology := unit;
  WeightSpec := string;
  MODEL_DIR := "model";
  path_join := fun dir name => (dir ++ "/" ++ name)%string;
  parse_class_indices := fun _ => Ok [("1", "Tomato___healthy"); ("0", "Tomato___Early_blight")];
  parse_disease_info := fun _ => Ok ∅;
  parse_model_json := fun _ =>
    Ok (mkModelJson tt [mkGroup ["group1-shard1of1.bin"] ["conv/kernel"]]);
  loadImage := fun fs path => readFileSync fs path;
  drawImage := fun image w h => image;
  Jimp_read := fun fs path => readFileSync fs path;
  resize_getBuffer := fun image w h => Ok image;
  decodeImage := fun buffer => Ok (mkTensor [1; 1; 3] buffer);
  nearest_source := fun _ _ _ => 0;
  loadLayersModel_url := fun _ _ => Ok tt;
  loadLayersModel := fun _ => Ok tt;
  model_predict := fun _ _ => Ok [f32_tenths 2; S754_nan];
  Number_toString := fun _ => "1e+21";
  pool_before := [];
  pool_after := []
|}.

(** * Properties *)

Example labels_CAB :
  load_labels [("2", "C"); ("0", "A"); ("1", "B")] = [Str "A"; Str "B"; Str "C"].
Proof. reflexivity. Qed.

Example keys_order :
  Object_keys (JSON_parse [("b", "x"); ("10", "y"); ("2", "z"); ("02", "w")])
  = ["2"; "10"; "b"; "02"].
Proof. reflexivity. Qed.

Example labels_gap :
  load_labels [("0", "A"); ("2", "C")] = [Str "A"; Str "C"].
Proof. reflexivity. Qed.

Example train_roundtrip :
  load_labels (write_class_indices ["x"; "y"; "z"]) = [Str "x"; Str "y"; Str "z"].
Proof. reflexivity. Qed.

(** ** Objects *)

Lemma obj_lookup_set {V} (o : object V) k v k' :
  obj_lookup (obj_set o k v) k' = if String.eqb k k' then Some v else obj_lookup o k'.
Proof.
  induction o as [|[k0 v0] o IH]; simpl.
  - reflexivity.
  - destruct (String.eqb k0 k) eqn:E0; simpl.
    + apply String.eqb_eq in E0. subst k0.
      destruct (String.eqb k k'); reflexivity.
    + rewrite IH. destruct (String.eqb k0 k') eqn:E1; [|reflexivity].
      apply String.eqb_eq in E1. subst k0. rewrite String.eqb_sym, E0. reflexivity.
Qed.

Lemma obj_set_fresh {V} (o : object V) k v :
  k ∉ map fst o -> obj_set o k v = o ++ [(k, v)].
Proof.
  induction o as [|[k0 v0] o IH]; simpl; intros Hk.
  - reflexivity.
  - apply not_elem_of_cons in Hk as [Hne Hk].
    destruct (String.eqb k0 k) eqn:E0.
    + apply String.eqb_eq in E0. congruence.
    + rewrite IH by assumption. reflexivity.
Qed.

Lemma obj_set_keys {V} (o : object V) k v :
  map fst (obj_set o k v) ⊆ k :: map fst o.
Proof.
  induction o as [|[k0 v0] o IH]; simpl.
  - set_solver.
  - destruct (String.eqb k0 k); simpl.
    + intros x Hx. now right.
    + intros x Hx. apply elem_of_cons in Hx as [->|Hx].
      * right. left.
      * apply IH in Hx. apply elem_of_cons in Hx as [->|Hx]; [left | right; now right].
Qed.

Lemma parse_from_nodup {V} (members acc : object V) :
  NoDup (map fst (acc ++ members)) ->
  fold_left (fun o m => obj_set o (fst m) (snd m)) members acc = acc ++ members.
Proof.
  revert acc. induction members as [|[k v] ms IH]; intros acc Hnd; simpl.
  - rewrite app_nil_r. reflexivity.
  - assert (Hfresh : k ∉ map fst acc).
    { rewrite map_app in Hnd. simpl in Hnd.
      apply NoDup_app in Hnd as (_ & Hd & _). intros Hin.
      apply (Hd k Hin). left. }
    rewrite obj_set_fresh by assumption.
    rewrite IH; rewrite <- app_assoc; simpl; [reflexivity | assumption].
Qed.

Lemma JSON_parse_nodup {V} (members : object V) :
  NoDup (map fst members) -> JSON_parse members = members.
Proof. intros H. unfold JSON_parse. rewrite parse_from_nodup; auto. Qed.

Lemma parse_from_keys {V} (members acc : object V) :
  map fst (fold_left (fun o m => obj_set o (fst m) (snd m)) members acc)
  ⊆ map fst acc ++ map fst members.
Proof.
  revert acc. induction members as [|[k v] ms IH]; intros acc; simpl.
  - set_solver.
  - etrans; [apply IH|]. pose proof (obj_set_keys acc k v). set_solver.
Qed.

Lemma JSON_parse_keys {V} (members : object V) :
  map fst (JSON_parse members) ⊆ map fst members.
Proof. unfold JSON_parse. etrans; [apply parse_from_keys|]. set_solver. Qed.

(** ** Keys as numbers *)

Lemma to_uint_not_Nil n : N.to_uint n <> Nil.
Proof.
  intros H. pose proof (DecimalN.Unsigned.to_of (N.to_uint n)) as E.
  rewrite DecimalN.Unsigned.of_to in E. rewrite H in E. discriminate.
Qed.

Lemma ToString_index_NilEmpty n :
  ToString_index n = NilEmpty.string_of_uint (N.to_uint n).
Proof.
  unfold ToString_index, NilZero.string_of_uint.
  destruct (N.to_uint n) eqn:E; try reflexivity.
  exfalso. exact (to_uint_not_Nil n E).
Qed.

Lemma StringToNumber_ToString n : StringToNumber (ToString_index n) = Some n.
Proof.
  unfold StringToNumber. rewrite ToString_index_NilEmpty, NilEmpty.usu. simpl.
  rewrite DecimalN.Unsigned.of_to. reflexivity.
Qed.

Lemma ToString_index_inj n m : ToString_index n = ToString_index m -> n = m.
Proof.
  intros H. apply (f_equal StringToNumber) in H.
  rewrite !StringToNumber_ToString in H. congruence.
Qed.


Lemma key_number_ToString n : key_number (ToString_index n) = Z.of_N n.
Proof. unfold key_number. rewrite StringToNumber_ToString. reflexivity. Qed.

Lemma array_index_Some k n : array_index k = Some n -> k = ToString_index n.
Proof.
  unfold array_index. destruct (StringToNumber k) as [m|]; [|discriminate].
  destruct (String.eqb (ToString_index m) k) eqn:E; simpl; [|discriminate].
  destruct (m <? 4294967295)%N; [|discriminate].
  intros [= <-]. apply String.eqb_eq in E. congruence.
Qed.

(** ** Array.prototype.sort *)

Section SortFacts.
Context {A : Type} (comparefn : A -> A -> option Z).

Lemma sort_insert_perm x l : sort_insert comparefn x l ≡ₚ x :: l.
Proof.
  induction l as [|y t IH]; simpl.
  - reflexivity.
  - destruct (SortCompare comparefn x y <=? 0)%Z.
    + reflexivity.
    + rewrite IH. apply perm_swap.
Qed.

Lemma Array_sort_perm l : Array_sort comparefn l ≡ₚ l.
Proof.
  induction l as [|x t IH]; simpl.
  - reflexivity.
  - rewrite sort_insert_perm, IH. reflexivity.
Qed.

(** On elements whose comparison is the difference of a numeric key the
    result is in ascending key order. *)
Lemma sort_insert_sorted (f : A -> Z) x l :
  (forall y, y ∈ l -> SortCompare comparefn x y = (f x - f y)%Z) ->
  StronglySorted (fun a b => (f a <= f b)%Z) l ->
  StronglySorted (fun a b => (f a <= f b)%Z) (sort_insert comparefn x l).
Proof.
  induction l as [|y t IH]; simpl; intros Hc Hs.
  - repeat constructor.
  - pose proof (Hc y ltac:(left)) as Hy.
    inversion Hs as [|? ? Ht Hall]; subst.
    destruct (SortCompare comparefn x y <=? 0)%Z eqn:E.
    + apply Z.leb_le in E. constructor; [assumption|].
      constructor; [lia|].
      eapply Forall_impl; [exact Hall|]. simpl. intros; lia.
    + apply Z.leb_gt in E. constructor.
      * apply IH; [|assumption]. intros z Hz. apply Hc. now right.
      * rewrite sort_insert_perm. constructor; [lia | assumption].
Qed.

Lemma Array_sort_sorted (f : A -> Z) l :
  (forall x y, x ∈ l -> y ∈ l -> SortCompare comparefn x y = (f x - f y)%Z) ->
  StronglySorted (fun a b => (f a <= f b)%Z) (Array_sort comparefn l).
Proof.
  induction l as [|x t IH]; simpl; intros Hc.
  - constructor.
  - apply sort_insert_sorted.
    + intros y Hy. apply Hc; [left|]. right.
      now rewrite <- (Array_sort_perm t).
    + apply IH. intros a b Ha Hb. apply Hc; now right.
Qed.
End SortFacts.

Lemma key_minus_numeric a b :
  is_Some (StringToNumber a) -> is_Some (StringToNumber b) ->
  SortCompare key_minus a b = (key_number a - key_number b)%Z.
Proof.
  intros [x Hx] [y Hy]. unfold SortCompare, key_minus, key_number.
  rewrite Hx, Hy. reflexivity.
Qed.

(** ** Object.keys *)

Lemma index_keys_back (ks : list string) :
  map ToString_index (omap array_index ks) = List.filter is_array_index ks.
Proof.
  induction ks as [|k ks IH]; [reflexivity|].
  cbn [omap list_omap List.filter]. unfold is_array_index at 1.
  destruct (array_index k) as [n|] eqn:E.
  - cbn [map]. rewrite IH. f_equal. symmetry. now apply array_index_Some.
  - exact IH.
Qed.

Lemma filter_split_perm {A} (p : A -> bool) (l : list A) :
  List.filter p l ++ List.filter (fun x => negb (p x)) l ≡ₚ l.
Proof.
  induction l as [|x l IH]; simpl; [reflexivity|].
  destruct (p x); simpl.
  - now rewrite IH.
  - rewrite <- Permutation_middle. now rewrite IH.
Qed.

Lemma Object_keys_perm {V} (o : object V) : Object_keys o ≡ₚ map fst o.
Proof.
  unfold Object_keys.
  rewrite (Permutation_map ToString_index (Array_sort_perm compare_N _)).
  rewrite index_keys_back. apply filter_split_perm.
Qed.

Lemma sorted_keys_perm (o : object string) : sorted_keys o ≡ₚ map fst o.
Proof. unfold sorted_keys. rewrite Array_sort_perm. apply Object_keys_perm. Qed.

Lemma sorted_keys_sorted (o : object string) :
  Forall (fun k => is_Some (StringToNumber k)) (map fst o) ->
  StronglySorted (fun a b => (key_number a <= key_number b)%Z) (sorted_keys o).
Proof.
  intros Hnum. unfold sorted_keys. apply Array_sort_sorted.
  intros x y Hx Hy. rewrite List.Forall_forall in Hnum.
  apply key_minus_numeric; apply Hnum; apply list_elem_of_In;
    now rewrite <- (Object_keys_perm o).
Qed.

(** ** The label list *)


Lemma map_fmap {A B} (f : A -> B) (l : list A) : map f l = f <$> l.
Proof. reflexivity. Qed.

Lemma indices_lookup n i : i < n -> indices n !! i = Some (N.of_nat i).
Proof.
  intros Hi. unfold indices. rewrite map_fmap, list_lookup_fmap.
  rewrite lookup_seq_lt by assumption. reflexivity.
Qed.

Lemma indices_length n : length (indices n) = n.
Proof. unfold indices. rewrite length_map, length_seq. reflexivity. Qed.

Lemma seq_sorted s n : StronglySorted le (seq s n).
Proof.
  revert s. induction n as [|n IH]; intros s; simpl; constructor.
  - apply IH.
  - apply List.Forall_forall. intros x Hx. apply in_seq in Hx. lia.
Qed.

Lemma indices_sorted n : StronglySorted Z.le (map Z.of_N (indices n)).
Proof.
  unfold indices. rewrite !map_fmap.
  apply (StronglySorted_fmap _ N.le); [intros; lia|].
  apply (StronglySorted_fmap _ le); [intros; lia|]. apply seq_sorted.
Qed.

Lemma canonical_keys_number n :
  map key_number (map ToString_index (indices n)) = map Z.of_N (indices n).
Proof.
  rewrite map_map. apply map_ext. intros i. apply key_number_ToString.
Qed.

Lemma canonical_key_back (k : string) (l : list N) :
  k ∈ map ToString_index l -> ToString_index (Z.to_N (key_number k)) = k.
Proof.
  rewrite map_fmap. intros Hk. apply list_elem_of_fmap in Hk as (i & -> & _).
  rewrite key_number_ToString, N2Z.id. reflexivity.
Qed.

(** With keys 0 .. n-1 (each once, in any order in the file) the sorted
    keys are "0", "1", ..., in this order. *)
Lemma dense_sorted_keys (o : object string) n :
  map fst o ≡ₚ map ToString_index (indices n) ->
  sorted_keys o = map ToString_index (indices n).
Proof.
  intros Hperm.
  assert (Hsk : sorted_keys o ≡ₚ map ToString_index (indices n))
    by (rewrite sorted_keys_perm; exact Hperm).
  assert (Hnum : Forall (fun k => is_Some (StringToNumber k)) (map fst o)).
  { apply List.Forall_forall. intros k Hk.
    apply (proj2 (list_elem_of_In _ _)) in Hk. rewrite Hperm, map_fmap in Hk.
    apply list_elem_of_fmap in Hk as (i & -> & _).
    rewrite StringToNumber_ToString. eauto. }
  assert (Hval : map key_number (sorted_keys o) = map Z.of_N (indices n)).
  { apply (StronglySorted_unique Z.le).
    - rewrite map_fmap.
      eapply StronglySorted_fmap; [|apply sorted_keys_sorted, Hnum].
      intros x y H; exact H.
    - apply indices_sorted.
    - rewrite <- canonical_keys_number. now apply Permutation_map. }
  transitivity (map (fun z => ToString_index (Z.to_N z)) (map key_number (sorted_keys o))).
  - rewrite map_map. symmetry. erewrite map_ext_in; [apply map_id|].
    intros k Hk. simpl. apply (canonical_key_back k (indices n)).
    rewrite <- Hsk. now apply list_elem_of_In.
  - rewrite Hval, map_map. apply map_ext. intros i. now rewrite N2Z.id.
Qed.

Lemma labels_dense (o : object string) n :
  map fst o ≡ₚ map ToString_index (indices n) ->
  build_labels o = map (fun i => obj_get o (ToString_index i)) (indices n).
Proof.
  intros H. unfold build_labels. rewrite (dense_sorted_keys o n H), map_map.
  reflexivity.
Qed.

(** C1, as stated, fails where a key is missing: with keys 0 and 2 the
    label at position 1 is "C", the value of key 2, and key 1 has none. *)
Lemma labels_position_counterexample :
  ~ position_holds_key [("0", "A"); ("2", "C")].
Proof.
  intros H. specialize (H 1%nat). vm_compute in H.
  specialize (H ltac:(repeat constructor)). discriminate.
Qed.

(** C1 (amended): when every key of the class-index file is a decimal
    integer (below 2^53), the label list reads the values in ascending order of the keys
    coerced to numbers, every key once and whatever order the file declares
    them in; the keys "2","0","1" with values "C","A","B" give
    ["A","B","C"]; and when the keys are exactly 0 .. n-1 the label at
    position i is the value stored under the key i. *)
Theorem labels_in_numeric_key_order (members : list (string * string)) :
  Forall (fun m => safe_integer_key (fst m)) members ->
  let classIndices := JSON_parse members in
  load_labels members = map (obj_get classIndices) (sorted_keys classIndices)
  /\ sorted_keys classIndices ≡ₚ map fst classIndices
  /\ StronglySorted (fun a b => (key_number a <= key_number b)%Z)
                    (sorted_keys classIndices)
  /\ load_labels [("2", "C"); ("0", "A"); ("1", "B")] = [Str "A"; Str "B"; Str "C"]
  /\ (forall n, map fst classIndices ≡ₚ map ToString_index (indices n) ->
        position_holds_key members).
Proof.
  intros Hnum classIndices. split; [reflexivity|].
  split; [apply sorted_keys_perm|]. split.
  - apply sorted_keys_sorted. apply List.Forall_forall. intros k Hk.
    apply (proj2 (list_elem_of_In _ _)), JSON_parse_keys in Hk.
    apply (proj1 (list_elem_of_In _ _)), in_map_iff in Hk as (m & <- & Hm).
    rewrite List.Forall_forall in Hnum. destruct (Hnum m Hm) as (n & Hn & _).
    rewrite Hn. eauto.
  - split; [reflexivity|]. intros n Hdense i Hi.
    unfold load_labels in *. fold classIndices in Hi |- *.
    rewrite (labels_dense classIndices n Hdense) in Hi |- *.
    rewrite length_map, indices_length in Hi.
    rewrite map_fmap, list_lookup_fmap, indices_lookup by assumption.
    reflexivity.
Qed.

Lemma labels_in_numeric_key_order_witness :
  Forall (fun m => safe_integer_key (fst m)) [("2", "C"); ("0", "A"); ("1", "B")]
  /\ map fst (JSON_parse [("2", "C"); ("0", "A"); ("1", "B")])
     ≡ₚ map ToString_index (indices 3)
  /\ position_holds_key [("2", "C"); ("0", "A"); ("1", "B")].
Proof.
  assert (Hnum : Forall (fun m => safe_integer_key (fst m))
                   [("2", "C"); ("0", "A"); ("1", "B")])
    by (repeat constructor; eexists; (split; [reflexivity|]); reflexivity).
  assert (Hdense : map fst (JSON_parse [("2", "C"); ("0", "A"); ("1", "B")])
                   ≡ₚ map ToString_index (indices 3))
    by (vm_compute; apply (Permutation_cons_append ["0"; "1"] "2")).
  split; [exact Hnum|]. split; [exact Hdense|].
  exact (proj2 (proj2 (proj2 (proj2
    (labels_in_numeric_key_order [("2", "C"); ("0", "A"); ("1", "B")] Hnum))))
    3%nat Hdense).
Defined.

(** ** From training to serving *)

Lemma obj_lookup_combine {V} (ks : list string) (vs : list V) i k v :
  NoDup ks -> ks !! i = Some k -> vs !! i = Some v ->
  obj_lookup (combine ks vs) k = Some v.
Proof.
  revert vs i. induction ks as [|k0 ks IH]; intros vs i Hnd Hk Hv.
  - discriminate.
  - destruct vs as [|v0 vs]; [discriminate|]. simpl.
    apply NoDup_cons in Hnd as [Hnotin Hnd].
    destruct i as [|i]; simpl in Hk, Hv.
    + injection Hk as ->. injection Hv as ->. now rewrite String.eqb_refl.
    + destruct (String.eqb k0 k) eqn:E.
      * apply String.eqb_eq in E. subst k0. exfalso. apply Hnotin.
        eapply list_elem_of_lookup_2. exact Hk.
      * eapply IH; eassumption.
Qed.

Lemma obj_lookup_is_Some {V} (o : object V) k :
  k ∈ map fst o -> is_Some (obj_lookup o k).
Proof.
  induction o as [|[k0 v0] o IH]; simpl; intros Hk.
  - inversion Hk.
  - destruct (String.eqb k0 k) eqn:E; [eauto|].
    apply elem_of_cons in Hk as [->|Hk]; [|auto].
    rewrite String.eqb_refl in E. discriminate.
Qed.

Lemma obj_lookup_None {V} (o : object V) k :
  k ∉ map fst o -> obj_lookup o k = None.
Proof.
  induction o as [|[k0 v0] o IH]; simpl; intros Hk; [reflexivity|].
  apply not_elem_of_cons in Hk as [Hne Hk].
  destruct (String.eqb k0 k) eqn:E; [|auto].
  apply String.eqb_eq in E. congruence.
Qed.


Lemma members_of_keys o ks :
  (forall k, k ∈ ks -> k ∈ map fst o) -> map fst (members_of o ks) = ks.
Proof.
  induction ks as [|k ks IH]; intros Hin; [reflexivity|].
  unfold members_of. cbn [omap list_omap].
  destruct (obj_lookup_is_Some o k (Hin k ltac:(left))) as [v ->].
  cbn [map fst]. f_equal. apply IH. intros k' Hk'. apply Hin. now right.
Qed.

Lemma members_of_keys_sub o ks k :
  k ∈ map fst (members_of o ks) -> k ∈ ks.
Proof.
  induction ks as [|k0 ks IH]; [trivial|].
  unfold members_of. cbn [omap list_omap]. fold (members_of o ks).
  destruct (obj_lookup o k0) as [v|]; simpl; intros Hk.
  - apply elem_of_cons in Hk as [->|Hk]; [left | right; auto].
  - right; auto.
Qed.

Lemma members_of_lookup o ks k :
  k ∈ ks -> obj_lookup (members_of o ks) k = obj_lookup o k.
Proof.
  induction ks as [|k0 ks IH]; intros Hk; [inversion Hk|].
  unfold members_of. cbn [omap list_omap]. fold (members_of o ks).
  destruct (decide (k0 = k)) as [->|Hne].
  - destruct (obj_lookup o k) as [v|] eqn:E.
    + simpl. now rewrite String.eqb_refl.
    + destruct (decide (k ∈ ks)) as [Hin|Hnot]; [now rewrite IH|].
      apply obj_lookup_None. intros H. apply Hnot.
      now apply members_of_keys_sub in H.
  - apply elem_of_cons in Hk as [->|Hk]; [congruence|].
    destruct (obj_lookup o k0) as [v|]; [|now apply IH].
    simpl. destruct (String.eqb k0 k) eqn:E; [|now apply IH].
    apply String.eqb_eq in E. congruence.
Qed.

Lemma JSON_stringify_members o : JSON_stringify o = members_of o (Object_keys o).
Proof. reflexivity. Qed.

Lemma combine_map_fst {A B C} (g : A -> C) (l1 : list A) (l2 : list B) :
  map (fun p => (g (fst p), snd p)) (combine l1 l2) = combine (map g l1) l2.
Proof.
  revert l2. induction l1 as [|a l1 IH]; intros [|b l2]; simpl; try reflexivity.
  now rewrite IH.
Qed.

Lemma fold_left_map {A B C} (f : A -> B -> A) (g : C -> B) (l : list C) (a : A) :
  fold_left (fun x c => f x (g c)) l a = fold_left f (map g l) a.
Proof. revert a. induction l as [|c l IH]; intros a; simpl; [reflexivity|apply IH]. Qed.

Lemma map_fst_combine {A B} (l1 : list A) (l2 : list B) :
  length l1 = length l2 -> map fst (combine l1 l2) = l1.
Proof.
  revert l2. induction l1 as [|a l1 IH]; intros [|b l2] Hlen; simpl in *;
    try reflexivity; try discriminate.
  f_equal. apply IH. lia.
Qed.

Lemma canonical_keys_NoDup n : NoDup (map ToString_index (indices n)).
Proof.
  unfold indices. rewrite !map_fmap.
  apply NoDup_fmap_2; [intros x y; apply ToString_index_inj|].
  apply NoDup_fmap_2; [intros x y; apply Nat2N.inj|]. apply NoDup_seq.
Qed.

(** What the training script holds before writing: key i, value the
    i-th class name. *)
Lemma train_classIndices_eq (names : list string) :
  train_classIndices names
  = combine (map ToString_index (indices (length names))) names.
Proof.
  unfold train_classIndices.
  etransitivity;
    [exact (fold_left_map (fun o m => obj_set o (fst m) (snd m))
              (fun p => (ToString_index (N.of_nat (fst p)), snd p)) _ _)|].
  rewrite (combine_map_fst (fun i => ToString_index (N.of_nat i))).
  rewrite <- (map_map N.of_nat ToString_index). fold (indices (length names)).
  apply JSON_parse_nodup. rewrite map_fst_combine.
  - apply canonical_keys_NoDup.
  - now rewrite length_map, indices_length.
Qed.

(** C10: for every list of class names, the class-index file written by
    the training script, read back and ordered by the server, gives the
    class names in their original order: the label at position i is
    training class i. *)
Theorem train_serve_roundtrip (names : list string) :
  load_labels (write_class_indices names) = map Str names.
Proof.
  set (n := length names).
  set (canon := map ToString_index (indices n)).
  pose proof (train_classIndices_eq names) as Ho. fold n canon in Ho.
  assert (Hkeys : map fst (train_classIndices names) = canon).
  { rewrite Ho. apply map_fst_combine. unfold canon.
    now rewrite length_map, indices_length. }
  unfold write_class_indices. rewrite JSON_stringify_members.
  set (o := train_classIndices names) in *.
  assert (Hmk : map fst (members_of o (Object_keys o)) = Object_keys o).
  { apply members_of_keys. intros k Hk. now rewrite <- (Object_keys_perm o). }
  assert (Hparse : JSON_parse (members_of o (Object_keys o)) = members_of o (Object_keys o)).
  { apply JSON_parse_nodup. rewrite Hmk, Object_keys_perm, Hkeys.
    apply canonical_keys_NoDup. }
  unfold load_labels. rewrite Hparse.
  rewrite (labels_dense _ n) by (rewrite Hmk, Object_keys_perm, Hkeys; reflexivity).
  apply list_eq. intros i. rewrite !map_fmap, !list_lookup_fmap.
  destruct (decide (i < n)) as [Hi|Hi].
  - rewrite indices_lookup by assumption. simpl.
    destruct (lookup_lt_is_Some_2 names i Hi) as [name Hname]. rewrite Hname. simpl.
    f_equal. unfold obj_get. rewrite members_of_lookup.
    + rewrite Ho. erewrite obj_lookup_combine; [reflexivity| | |exact Hname].
      * apply canonical_keys_NoDup.
      * unfold canon. rewrite map_fmap, list_lookup_fmap, indices_lookup by assumption.
        reflexivity.
    + rewrite (Object_keys_perm o), Hkeys. unfold canon. rewrite map_fmap.
      apply list_elem_of_fmap. exists (N.of_nat i). split; [reflexivity|].
      eapply list_elem_of_lookup_2. now apply indices_lookup.
  - rewrite (lookup_ge_None_2 (indices n)) by (rewrite indices_length; lia).
    rewrite (lookup_ge_None_2 names) by (fold n; lia). reflexivity.
Qed.

(** ** The order on floating-point numbers *)


Lemma SFcompare_rank x y :
  is_nan x = false -> is_nan y = false ->
  exists c, SFcompare x y = Some c /\
    match c with
    | Lt => lex_lt (sf_rank x) (sf_rank y)
    | Eq => sf_rank x = sf_rank y
    | Gt => lex_lt (sf_rank y) (sf_rank x)
    end.
Proof.
  destruct x as [sx|sx| |sx mx ex], y as [sy|sy| |sy my ey];
    try discriminate; intros _ _; simpl;
    try (destruct sx; try destruct sy; eexists; (split; [reflexivity|]);
         simpl; first [reflexivity | lia]).
  destruct sx, sy; try (eexists; (split; [reflexivity|]); simpl; lia).
  - change (Pos.compare_cont Eq mx my) with (Pos.compare mx my).
    destruct (Z.compare_spec ex ey), (Pos.compare_spec mx my);
      eexists; (split; [reflexivity|]); simpl; subst; first [reflexivity | lia].
  - change (Pos.compare_cont Eq mx my) with (Pos.compare mx my).
    destruct (Z.compare_spec ex ey), (Pos.compare_spec mx my);
      eexists; (split; [reflexivity|]); simpl; subst; first [reflexivity | lia].
Qed.

Lemma lex_lt_trans p q r : lex_lt p q -> lex_lt q r -> lex_lt p r.
Proof. destruct p as [[??]?], q as [[??]?], r as [[??]?]. simpl. lia. Qed.

Lemma lex_lt_irrefl p : ~ lex_lt p p.
Proof. destruct p as [[??]?]. simpl. lia. Qed.

Lemma SFleb_iff x y :
  is_nan x = false -> is_nan y = false ->
  SFleb x y = true <-> (lex_lt (sf_rank x) (sf_rank y) \/ sf_rank x = sf_rank y).
Proof.
  intros Hx Hy. destruct (SFcompare_rank x y Hx Hy) as (c & Hc & Hr).
  unfold SFleb. rewrite Hc. destruct c; split; intros H; auto; try discriminate.
  - destruct H as [H|H]; [exfalso; eapply lex_lt_irrefl, lex_lt_trans; eassumption|].
    rewrite H in Hr. now apply lex_lt_irrefl in Hr.
Qed.

Lemma SFltb_iff x y :
  is_nan x = false -> is_nan y = false ->
  SFltb x y = true <-> lex_lt (sf_rank x) (sf_rank y).
Proof.
  intros Hx Hy. destruct (SFcompare_rank x y Hx Hy) as (c & Hc & Hr).
  unfold SFltb. rewrite Hc. destruct c; split; intros H; auto; try discriminate.
  - rewrite Hr in H. now apply lex_lt_irrefl in H.
  - exfalso; eapply lex_lt_irrefl, lex_lt_trans; eassumption.
Qed.

Lemma SFeqb_iff x y :
  is_nan x = false -> is_nan y = false ->
  SFeqb x y = true <-> sf_rank x = sf_rank y.
Proof.
  intros Hx Hy. destruct (SFcompare_rank x y Hx Hy) as (c & Hc & Hr).
  unfold SFeqb. rewrite Hc. destruct c; split; intros H; auto; try discriminate.
  - rewrite H in Hr. now apply lex_lt_irrefl in Hr.
  - rewrite H in Hr. now apply lex_lt_irrefl in Hr.
Qed.

Lemma lex_total p q : lex_lt p q \/ p = q \/ lex_lt q p.
Proof.
  destruct p as [[a1 b1] c1], q as [[a2 b2] c2]. simpl.
  destruct (Z.lt_total a1 a2) as [?|[->|?]]; [lia| |lia].
  destruct (Z.lt_total b1 b2) as [?|[->|?]]; [lia| |lia].
  destruct (Z.lt_total c1 c2) as [?|[->|?]]; [lia| |lia].
  right; left; reflexivity.
Qed.

Lemma SFeqb_nan_l v : SFeqb S754_nan v = false.
Proof. reflexivity. Qed.

Lemma SFeqb_nan_r x : SFeqb x S754_nan = false.
Proof. destruct x; reflexivity. Qed.


Lemma sf_le_trans x y z : sf_le x y -> sf_le y z -> sf_le x z.
Proof.
  unfold sf_le. intros [H1|H1] [H2|H2].
  - left. eapply lex_lt_trans; eassumption.
  - left. now rewrite <- H2.
  - left. now rewrite H1.
  - right. congruence.
Qed.

Lemma sf_le_refl x : sf_le x x.
Proof. now right. Qed.

(** ** Math.max and indexOf *)

Lemma max_step_spec a x :
  is_nan a = false -> is_nan x = false ->
  is_nan (max_step a x) = false
  /\ (max_step a x = a \/ max_step a x = x)
  /\ sf_le a (max_step a x) /\ sf_le x (max_step a x).
Proof.
  intros Ha Hx.
  assert (Hgen : forall r, r = (if SFltb a x then x else a) ->
            is_nan r = false /\ (r = a \/ r = x) /\ sf_le a r /\ sf_le x r).
  { intros r ->. destruct (SFltb a x) eqn:E.
    - apply SFltb_iff in E; try assumption.
      repeat split; auto using sf_le_refl. now left.
    - repeat split; auto using sf_le_refl.
      destruct (lex_total (sf_rank a) (sf_rank x)) as [H|[H|H]].
      + apply SFltb_iff in H; try assumption. congruence.
      + right. congruence.
      + now left. }
  destruct a as [[|]| | |], x as [[|]| | |]; try discriminate;
    try (apply Hgen; reflexivity).
  simpl. repeat split; auto; now right.
Qed.

Lemma fold_max_spec l acc :
  is_nan acc = false -> Forall (fun x => is_nan x = false) l ->
  let m := fold_left max_step l acc in
  is_nan m = false /\ sf_le acc m /\ (forall y, y ∈ l -> sf_le y m)
  /\ (m = acc \/ m ∈ l).
Proof.
  revert acc. induction l as [|x l IH]; intros acc Hacc Hl; simpl.
  - repeat split; auto using sf_le_refl. intros y Hy. inversion Hy.
  - apply Forall_cons in Hl as [Hx Hl].
    destruct (max_step_spec acc x Hacc Hx) as (Hn & Hsel & Hle1 & Hle2).
    destruct (IH (max_step acc x) Hn Hl) as (Hm & Hle & Hall & Hin).
    repeat split; auto.
    + eapply sf_le_trans; eassumption.
    + intros y Hy. apply elem_of_cons in Hy as [->|Hy]; [|auto].
      eapply sf_le_trans; eassumption.
    + destruct Hin as [Hin|Hin]; [|right; now right].
      destruct Hsel as [Hsel|Hsel].
      * left. now rewrite Hin.
      * right. rewrite Hin, Hsel. left.
Qed.

Lemma sf_le_neg_infinity y :
  is_nan y = false -> sf_le y (S754_infinity true) -> y = S754_infinity true.
Proof.
  destruct y as [s|[|]| |[|] m e]; try discriminate; intros _ [H|H];
    simpl in H; try discriminate; try lia; reflexivity.
Qed.

Lemma Math_max_spec (l : list spec_float) :
  l <> [] -> Forall (fun x => is_nan x = false) l ->
  is_nan (Math_max l) = false
  /\ (forall y, y ∈ l -> sf_le y (Math_max l))
  /\ Math_max l ∈ l.
Proof.
  intros Hne Hl.
  destruct (fold_max_spec l (S754_infinity true) eq_refl Hl) as (Hn & _ & Hall & Hin).
  fold (Math_max l) in *. repeat split; auto.
  destruct Hin as [Hin|Hin]; [|assumption].
  destruct l as [|x l]; [congruence|].
  assert (x = S754_infinity true) as ->.
  { apply sf_le_neg_infinity.
    - now apply Forall_cons in Hl as [Hx _].
    - rewrite <- Hin. apply Hall. left. }
  rewrite Hin. left.
Qed.

Lemma indexOf_from_found (a : list spec_float) v k :
  (exists x, x ∈ a /\ SFeqb x v = true) ->
  exists i x, indexOf_from a v k = (k + Z.of_nat i)%Z
    /\ a !! i = Some x /\ SFeqb x v = true
    /\ forall j y, j < i -> a !! j = Some y -> SFeqb y v = false.
Proof.
  revert k. induction a as [|x0 a IH]; intros k (x & Hin & Hx).
  - inversion Hin.
  - simpl. destruct (SFeqb x0 v) eqn:E.
    + exists 0%nat, x0. repeat split; auto; [lia|]. intros j y Hj. lia.
    + apply elem_of_cons in Hin as [->|Hin]; [congruence|].
      destruct (IH (k + 1)%Z (ex_intro _ x (conj Hin Hx))) as (i & xi & Hi & Hl & He & Hbefore).
      exists (S i), xi. repeat split; auto; [lia|].
      intros [|j] y Hj Hy; simpl in Hy.
      * congruence.
      * eapply Hbefore; [|eassumption]. lia.
Qed.

Lemma arr_get_nat {A} (a : list A) (i : nat) : arr_get a (Z.of_nat i) = a !! i.
Proof.
  unfold arr_get. destruct (Z.ltb_spec (Z.of_nat i) 0); [lia|].
  now rewrite Nat2Z.id.
Qed.


Section Inference.
Context {R : Runtime}.

(** C4: for every model output vector (non-empty, without NaN), the
    class index is the first index at which the maximum occurs: the value
    there is at least every value of the vector and strictly greater than
    every earlier one; the confidence is computed from the value at that
    index; for [0.2, 0.5, 0.5, 0.1] the index is 1 and the reported
    confidence is "50.00". *)
Theorem maxIdx_first_maximum (data : list spec_float) :
  data <> [] -> Forall (fun x => is_nan x = false) data ->
  (exists (i : nat) (x : spec_float),
      maxIdx_of data = Z.of_nat i
      /\ data !! i = Some x
      /\ Forall (fun y => SFleb y x = true) data
      /\ (forall j y, j < i -> data !! j = Some y -> SFltb y x = true)
      /\ percent_of data (maxIdx_of data) = Number_mul x hundred
      /\ confidence_of data (maxIdx_of data)
         = toFixed2 Number_toString (Number_mul x hundred))
  /\ maxIdx_of (map f32_tenths [2; 5; 5; 1]%Z) = 1%Z
  /\ confidence_of (map f32_tenths [2; 5; 5; 1]%Z) 1 = "50.00".
Proof.
  intros Hne Hnan. split; [|split; reflexivity].
  destruct (Math_max_spec data Hne Hnan) as (Hm & Hall & Hin).
  assert (Hnn : forall y, y ∈ data -> is_nan y = false).
  { intros y Hy. rewrite Forall_forall in Hnan. now apply Hnan. }
  destruct (indexOf_from_found data (Math_max data) 0) as (i & x & Hi & Hx & He & Hbefore).
  { exists (Math_max data). split; [assumption|]. now apply SFeqb_iff. }
  assert (Hxin : x ∈ data) by (eapply list_elem_of_lookup_2; eassumption).
  apply SFeqb_iff in He; auto.
  exists i, x. unfold confidence_of, percent_of, maxIdx_of, indexOf.
  rewrite Hi, Z.add_0_l, arr_get_nat, Hx. repeat split; auto.
  - apply Forall_forall. intros y Hy. apply SFleb_iff; auto.
    unfold sf_le in Hall. rewrite He. now apply Hall.
  - intros j y Hj Hy.
    assert (Hyin : y ∈ data) by (eapply list_elem_of_lookup_2; eassumption).
    apply SFltb_iff; auto. rewrite He.
    destruct (Hall y Hyin) as [Hlt|Heq]; [assumption|].
    apply SFeqb_iff in Heq; auto. rewrite (Hbefore j y Hj Hy) in Heq. discriminate.
Qed.

(** Outside that domain: with a NaN in the output [Math.max] is NaN,
    [indexOf] finds nothing, and the answer is the label "Unknown" with
    confidence "NaN"; an empty output behaves the same. *)
Example maxIdx_of_nan :
  maxIdx_of [S754_nan; f32_tenths 5] = (-1)%Z
  /\ maxIdx_of [] = (-1)%Z
  /\ confidence_of [S754_nan; f32_tenths 5] (-1) = "NaN"
  /\ label_of [Str "Tomato___Early_blight"] (-1) = "Unknown".
Proof. repeat split. Qed.
End Inference.

(** ** Rounding to binary64 and toFixed *)

Lemma digits2_pos_spec (m : positive) :
  (2 ^ (Zpos (digits2_pos m) - 1) <= Zpos m < 2 ^ Zpos (digits2_pos m))%Z.
Proof.
  induction m as [m IH|m IH|]; simpl digits2_pos.
  - rewrite Pos2Z.inj_succ. replace (Z.succ (Zpos (digits2_pos m)) - 1)%Z
      with (Zpos (digits2_pos m)) by lia.
    rewrite Z.pow_succ_r by lia.
    replace (2 ^ Zpos (digits2_pos m))%Z with (2 * 2 ^ (Zpos (digits2_pos m) - 1))%Z in *
      by (rewrite <- Z.pow_succ_r by lia; f_equal; lia).
    lia.
  - rewrite Pos2Z.inj_succ. replace (Z.succ (Zpos (digits2_pos m)) - 1)%Z
      with (Zpos (digits2_pos m)) by lia.
    rewrite Z.pow_succ_r by lia.
    replace (2 ^ Zpos (digits2_pos m))%Z with (2 * 2 ^ (Zpos (digits2_pos m) - 1))%Z in *
      by (rewrite <- Z.pow_succ_r by lia; f_equal; lia).
    lia.
  - simpl. lia.
Qed.

Lemma digits2_pos_le (m : positive) (k : Z) :
  (Zpos m < 2 ^ k)%Z -> (Zpos (digits2_pos m) <= k)%Z.
Proof.
  intros H. pose proof (digits2_pos_spec m) as [Hlo _].
  destruct (Z.le_gt_cases (Zpos (digits2_pos m)) k) as [|Hgt]; [assumption|].
  assert (2 ^ k <= 2 ^ (Zpos (digits2_pos m) - 1))%Z.
  { destruct (Z.le_gt_cases 0 k).
    - apply Z.pow_le_mono_r; lia.
    - rewrite Z.pow_neg_r by lia. apply Z.pow_nonneg. lia. }
  lia.
Qed.

Lemma iter_xO_value (m k : positive) :
  Zpos (Pos.iter xO m k) = (Zpos m * 2 ^ Zpos k)%Z.
Proof.
  induction k as [|k IH] using Pos.peano_ind.
  - simpl. lia.
  - rewrite Pos.iter_succ, Pos2Z.inj_xO, IH, Pos2Z.inj_succ, Z.pow_succ_r by lia. lia.
Qed.

Lemma iter_xO_digits (m k : positive) :
  digits2_pos (Pos.iter xO m k) = (digits2_pos m + k)%positive.
Proof.
  induction k as [|k IH] using Pos.peano_ind.
  - simpl. lia.
  - rewrite Pos.iter_succ. simpl. rewrite IH. lia.
Qed.

(** A mantissa of at most 53 bits whose exponent stays in the normal
    range is kept exactly by the rounding to binary64: only its encoding
    is made canonical. *)
Lemma binary_round_exact (s : bool) (m : positive) (e : Z) :
  let d := Zpos (digits2_pos m) in
  (d <= 53)%Z -> (-1074 <= e + d - 53)%Z -> (e + d <= 1024)%Z ->
  exists m', binary_round 53 1024 s m e = S754_finite s m' (e + d - 53)
             /\ Zpos m' = (Zpos m * 2 ^ (53 - d))%Z.
Proof.
  intros d Hd Hlo Hhi.
  assert (Hfexp : fexp 53 1024 (d + e) = (e + d - 53)%Z).
  { unfold fexp, emin. lia. }
  assert (Haux : forall mz, Zpos (digits2_pos mz) = 53%Z ->
            binary_round_aux 53 1024 s (Zpos mz) (e + d - 53) loc_Exact
            = S754_finite s mz (e + d - 53)).
  { intros mz Hmz. unfold binary_round_aux, shr_fexp. simpl Zdigits2.
    rewrite Hmz.
    replace (fexp 53 1024 (53 + (e + d - 53)) - (e + d - 53))%Z with 0%Z
      by (unfold fexp, emin; lia).
    simpl. rewrite Hmz.
    replace (fexp 53 1024 (53 + (e + d - 53)) - (e + d - 53))%Z with 0%Z
      by (unfold fexp, emin; lia).
    simpl. destruct (Z.leb_spec (e + d - 53) (1024 - 53)); [reflexivity|lia]. }
  unfold binary_round. fold d. rewrite Hfexp. unfold shl_align.
  destruct (e + d - 53 - e)%Z as [|p|p] eqn:E; try lia.
  - exists m. assert (Hd53 : d = 53%Z) by lia.
    replace (e + d - 53)%Z with e in * by lia.
    rewrite Haux by exact Hd53. split; [reflexivity|].
    rewrite Hd53. simpl. lia.
  - exists (Pos.iter xO m p). rewrite Haux.
    + split; [reflexivity|]. rewrite iter_xO_value. f_equal. f_equal. lia.
    + rewrite iter_xO_digits, Pos2Z.inj_add. fold d. lia.
Qed.

Lemma nearest_hundredth_neg (m : positive) (e : Z) :
  (e < 0)%Z ->
  nearest_hundredth m e = ((200 * Zpos m + 2 ^ (- e)) / 2 ^ (- e + 1))%Z.
Proof. destruct e; try lia. intros _. reflexivity. Qed.

Lemma at_least_1e21_neg (m : positive) (e : Z) :
  (e < 0)%Z -> at_least_1e21 m e = (10 ^ 21 * 2 ^ (- e) <=? Zpos m)%Z.
Proof. destruct e; try lia. intros _. reflexivity. Qed.


(** A float32 between 0 and 1 that is not zero: its mantissa and
    exponent. *)
Lemma unit_interval_f32 (s : bool) (m : positive) (e : Z) :
  valid_binary 24 128 (S754_finite s m e) = true ->
  SFleb (S754_zero false) (S754_finite s m e) = true ->
  SFleb (S754_finite s m e) (f32_of_Z 1) = true ->
  s = false /\ (-149 <= e <= -23)%Z /\ (Zpos m < 2 ^ 24)%Z /\ (Zpos m <= 2 ^ (- e))%Z.
Proof.
  intros Hv H0 H1. destruct s; [discriminate|]. split; [reflexivity|].
  simpl in Hv. apply andb_prop in Hv as [Hc Hb].
  unfold canonical_mantissa, fexp, emin in Hc. apply Z.eqb_eq in Hc.
  pose proof (digits2_pos_spec m) as [_ Hm].
  assert (Hd : (Zpos (digits2_pos m) <= 24)%Z) by lia.
  assert (Hm24 : (Zpos m < 2 ^ 24)%Z).
  { eapply Z.lt_le_trans; [exact Hm|]. apply Z.pow_le_mono_r; lia. }
  apply SFleb_iff in H1; [|reflexivity|reflexivity].
  change (f32_of_Z 1) with (S754_finite false 8388608 (-23)) in H1.
  assert (He : (e < -23 \/ (e = -23 /\ Zpos m <= 8388608))%Z).
  { destruct H1 as [H1|H1]; [simpl in H1; lia|].
    injection H1 as -> ->. lia. }
  repeat split; try lia.
  destruct He as [He|[-> He]].
  - eapply Z.le_trans; [apply Z.lt_le_incl, Hm24|].
    apply Z.pow_le_mono_r; lia.
  - simpl. lia.
Qed.

Lemma percent_of_unit (m : positive) (e : Z) :
  (-149 <= e <= -23)%Z -> (Zpos m < 2 ^ 24)%Z ->
  exists m' q,
    Number_mul (S754_finite false m e) hundred = S754_finite false m' (e + 2 - q)
    /\ (24 <= q <= 53)%Z /\ Zpos m' = (25 * Zpos m * 2 ^ q)%Z.
Proof.
  intros He Hm. unfold Number_mul, hundred. simpl xorb.
  assert (HM : (Zpos (m * 25) < 2 ^ 29)%Z).
  { rewrite Pos2Z.inj_mul. change (2 ^ 29)%Z with (2 ^ 24 * 32)%Z. lia. }
  pose proof (digits2_pos_le _ _ HM) as Hd.
  assert (0 < Zpos (digits2_pos (m * 25)))%Z by lia.
  destruct (binary_round_exact false (m * 25) (e + 2)) as (m' & Hr & Hv);
    cbv zeta; try lia.
  exists m', (53 - Zpos (digits2_pos (m * 25)))%Z. rewrite Hr. split.
  - f_equal. lia.
  - split; [lia|]. rewrite Hv, Pos2Z.inj_mul. lia.
Qed.

Lemma toFixed2_unit (toStr : spec_float -> string) (m m' : positive) (e q : Z) :
  (-149 <= e <= -23)%Z -> (Zpos m <= 2 ^ (- e))%Z ->
  (24 <= q <= 53)%Z -> Zpos m' = (25 * Zpos m * 2 ^ q)%Z ->
  exists n, toFixed2 toStr (S754_finite false m' (e + 2 - q)) = fixed2 n
    /\ within_half n 10000 (S754_finite false m e) /\ (0 <= n <= 10000)%Z.
Proof.
  intros He Hm Hq Hm'.
  set (T := (2 ^ (- e - 2))%Z).
  assert (HT : (0 < T)%Z) by (apply Z.pow_pos_nonneg; lia).
  assert (HQ : (0 < 2 ^ q)%Z) by (apply Z.pow_pos_nonneg; lia).
  assert (He4 : (2 ^ (- e) = 4 * T)%Z).
  { unfold T. change 4%Z with (2 ^ 2)%Z. rewrite <- Z.pow_add_r by lia.
    f_equal. lia. }
  assert (Hk : (2 ^ (- (e + 2 - q)) = 2 ^ q * T)%Z).
  { unfold T. rewrite <- Z.pow_add_r by lia. f_equal. lia. }
  assert (Hk1 : (2 ^ (- (e + 2 - q) + 1) = 2 ^ q * (2 * T))%Z).
  { rewrite Z.pow_add_r, Hk by lia. simpl. lia. }
  exists ((5000 * Zpos m + T) / (2 * T))%Z.
  assert (Hn : nearest_hundredth m' (e + 2 - q) = ((5000 * Zpos m + T) / (2 * T))%Z).
  { rewrite nearest_hundredth_neg by lia. rewrite Hk, Hk1, Hm'.
    replace (200 * (25 * Zpos m * 2 ^ q) + 2 ^ q * T)%Z
      with (2 ^ q * (5000 * Zpos m + T))%Z by lia.
    apply Z.div_mul_cancel_l; lia. }
  assert (Hbig : at_least_1e21 m' (e + 2 - q) = false).
  { rewrite at_least_1e21_neg by lia. apply Z.leb_gt. rewrite Hk, Hm'.
    change (10 ^ 21)%Z with 1000000000000000000000%Z. nia. }
  split; [|split].
  - unfold toFixed2. rewrite Hbig, Hn. reflexivity.
  - unfold within_half. simpl cond_Zopp.
    rewrite (Z.max_r 0 (- e)), (Z.max_l 0 e), He4 by lia.
    pose proof (Z.mul_div_le (5000 * Zpos m + T) (2 * T) ltac:(lia)).
    pose proof (Z.mul_succ_div_gt (5000 * Zpos m + T) (2 * T) ltac:(lia)).
    simpl (2 ^ 0)%Z. lia.
  - split.
    + apply Z.div_pos; lia.
    + apply Z.lt_succ_r, Z.div_lt_upper_bound; lia.
Qed.

Example fixed2_5000 : fixed2 5000 = "50.00".
Proof. reflexivity. Qed.

Example fixed2_7 : fixed2 7 = "0.07".
Proof. reflexivity. Qed.

Example fixed2_10000 : fixed2 10000 = "100.00".
Proof. reflexivity. Qed.

(** The product by [hundred] is the IEEE product by the canonical
    binary64 encoding of 100. *)
Example Number_mul_is_SFmul :
  Number_mul (f32_tenths 5) hundred
  = SFmul 53 1024 (f64_of (f32_tenths 5)) (binary_normalize 53 1024 100 0 false)
  /\ Number_mul (f32_tenths 2) hundred
  = SFmul 53 1024 (f64_of (f32_tenths 2)) (binary_normalize 53 1024 100 0 false).
Proof. split; reflexivity. Qed.

Section Confidence.
Context {R : Runtime}.

(** C9: when the value at the class index is a float32 confidence
    between 0 and 1, the reported confidence is the two-decimal numeral
    of n/100 where n is the integer nearest to that confidence times 100
    times 100: the confidence times 100 rounded to two decimals; and it
    lies between 0 and 100. *)
Theorem confidence_percent_rounded (data : list spec_float) (maxIdx : Z) (x : spec_float) :
  arr_get data maxIdx = Some x ->
  valid_binary 24 128 x = true ->
  SFleb (S754_zero false) x = true ->
  SFleb x (f32_of_Z 1) = true ->
  exists n : Z,
    confidence_of data maxIdx = fixed2 n
    /\ within_half n 10000 x
    /\ (0 <= n <= 10000)%Z.
Proof.
  intros Hget Hvalid H0 H1. unfold confidence_of, percent_of. rewrite Hget.
  destruct x as [s|s| |s m e]; try discriminate.
  - exists 0%Z. split; [destruct s; reflexivity|]. split; [reflexivity|lia].
  - destruct s; discriminate.
  - destruct (unit_interval_f32 s m e Hvalid H0 H1) as (-> & He & Hm24 & Hm).
    destruct (percent_of_unit m e He Hm24) as (m' & q & -> & Hq & Hm').
    now apply (toFixed2_unit Number_toString m m' e q).
Qed.

(** No clamping is applied: an output value above 1 is reported as it
    is. *)
Example confidence_above_one :
  confidence_of [f32_of_Z 3; f32_tenths 5] 0 = "300.00".
Proof. reflexivity. Qed.
End Confidence.

(** ** Preprocessing *)


Lemma normalize_data (pixels : Tensor byte) :
  data (normalize pixels) = map unit_of_byte (data pixels).
Proof. unfold normalize, expandDims, div, toFloat. simpl. apply map_map. Qed.

Lemma unit_of_byte_range (b : byte) :
  SFleb (S754_zero false) (unit_of_byte b) = true
  /\ SFleb (unit_of_byte b) (f32_of_Z 1) = true
  /\ valid_binary 24 128 (unit_of_byte b) = true.
Proof. destruct b; vm_compute; auto. Qed.

(** Dividing in binary64 and storing as float32, as the CPU backend
    does, gives the same float32 for every byte. *)
Lemma div_cpu_byte (b : byte) :
  div_cpu (f32_of_byte b) (tf_scalar 255) = unit_of_byte b.
Proof. destruct b; vm_compute; reflexivity. Qed.

Lemma length_flat_map_const {A B} (f : A -> list B) (k : nat) (l : list A) :
  (forall a, length (f a) = k) -> length (flat_map f l) = length l * k.
Proof.
  intros Hf. induction l as [|a l IH]; [reflexivity|].
  cbn [flat_map length]. rewrite length_app, Hf, IH. lia.
Qed.

Lemma lookup_flat_map_const {A B} (f : A -> list B) (k : nat) (l : list A) p c :
  (forall a, length (f a) = k) -> c < k ->
  flat_map f l !! (p * k + c) = l !! p ≫= fun a => f a !! c.
Proof.
  intros Hf Hc. revert p. induction l as [|a l IH]; intros p.
  - reflexivity.
  - cbn [flat_map]. destruct p as [|p].
    + rewrite lookup_app_l by (rewrite Hf; lia). reflexivity.
    + rewrite lookup_app_r by (rewrite Hf; lia). rewrite Hf.
      replace (S p * k + c - k) with (p * k + c) by lia. apply IH.
Qed.

Lemma fromPixels_length (canvas : Canvas) :
  length (data (fromPixels canvas)) = width canvas * height canvas * 3.
Proof.
  unfold fromPixels. cbn [data].
  rewrite (length_flat_map_const _ 3) by (intros; reflexivity).
  now rewrite length_seq.
Qed.

Lemma fromPixels_lookup (canvas : Canvas) p c :
  p < width canvas * height canvas -> c < 3 ->
  data (fromPixels canvas) !! (p * 3 + c)
  = Some (channel_at (image_data canvas) (p * 4 + c)).
Proof.
  intros Hp Hc. unfold fromPixels. cbn [data].
  rewrite (lookup_flat_map_const _ 3) by (intros; reflexivity || assumption).
  rewrite lookup_seq_lt by assumption. cbn [mbind option_bind].
  rewrite map_fmap, list_lookup_fmap, lookup_seq_lt by assumption. reflexivity.
Qed.

Section Preprocessing.
Context {R : Runtime}.

Lemma resize_shape (h w c : nat) (d : list byte) :
  exists resized,
    resizeNearestNeighbor (mkTensor [h; w; c] d) 224 224 = Ok resized
    /\ shape resized = [224; 224; c]
    /\ length (data resized) = 224 * 224 * c.
Proof.
  eexists. split; [reflexivity|]. split; [reflexivity|]. cbn [data shape].
  rewrite (length_flat_map_const _ (224 * c)).
  - rewrite length_seq. lia.
  - intros y. rewrite (length_flat_map_const _ c).
    + now rewrite length_seq.
    + intros x. now rewrite length_map, length_seq.
Qed.

Lemma resize_lookup (h w c newH newW : nat) (d : list byte) (resized : Tensor byte)
    (y x channel : nat) :
  resizeNearestNeighbor (mkTensor [h; w; c] d) newH newW = Ok resized ->
  y < newH -> x < newW -> channel < c ->
  data resized !! ((y * newW + x) * c + channel)
  = Some (channel_at d ((nearest_source h newH y * w + nearest_source w newW x) * c + channel)).
Proof.
  intros Hr Hy Hx Hc. unfold resizeNearestNeighbor in Hr. cbn [shape data] in Hr.
  injection Hr as <-. cbn [data].
  replace ((y * newW + x) * c + channel) with (y * (newW * c) + (x * c + channel)) by lia.
  rewrite (lookup_flat_map_const _ (newW * c)).
  - rewrite lookup_seq_lt by assumption. cbn [mbind option_bind Nat.add].
    rewrite (lookup_flat_map_const _ c).
    + rewrite lookup_seq_lt by assumption. cbn [mbind option_bind Nat.add].
      rewrite map_fmap, list_lookup_fmap, lookup_seq_lt by assumption. reflexivity.
    + intros x'. now rewrite length_map, length_seq.
    + assumption.
  - intros y'. rewrite (length_flat_map_const _ c).
    + now rewrite length_seq.
    + intros x'. now rewrite length_map, length_seq.
  - nia.
Qed.

(** The input tensor of the Jimp server: when the upload is read, resized
    and re-encoded by Jimp and the JPEG decodes to three channels, the
    tensor has shape [1, 224, 224, 3] and holds at row y, column x and
    channel c the quotient by 255 of the decoded byte of the source pixel
    that the nearest-neighbour resize picks. *)
Lemma jimp_input_pixels (fs : Files) (path : string) (image : JimpImage)
    (buffer : list byte) (h w : nat) (decoded : list byte) :
  Jimp_read fs path = Ok image ->
  resize_getBuffer image 224 224 = Ok buffer ->
  decodeImage buffer = Ok (mkTensor [h; w; 3] decoded) ->
  exists input,
    jimp_input fs path = Ok input
    /\ shape input = [1; 224; 224; 3]
    /\ length (data input) = 224 * 224 * 3
    /\ (forall y x c, y < 224 -> x < 224 -> c < 3 ->
          data input !! ((y * 224 + x) * 3 + c)
          = Some (unit_of_byte
                    (channel_at decoded
                       ((nearest_source h 224 y * w + nearest_source w 224 x) * 3 + c))))
    /\ Forall (fun v => SFleb (S754_zero false) v = true /\ SFleb v (f32_of_Z 1) = true)
              (data input).
Proof.
  intros Hread Hbuf Hdec.
  destruct (resize_shape h w 3 decoded) as (resized & Hr & Hs & Hl).
  exists (normalize resized). split.
  { unfold jimp_input. rewrite Hread. unfold mbind at 1, outcome_bind at 1.
    rewrite Hbuf. unfold mbind at 1, outcome_bind at 1.
    rewrite Hdec. unfold mbind at 1, outcome_bind at 1.
    rewrite Hr. reflexivity. }
  split.
  { unfold normalize, expandDims, div, toFloat. cbn [shape]. now rewrite Hs. }
  split; [now rewrite normalize_data, length_map|]. split.
  - intros y x c Hy Hx Hc.
    rewrite normalize_data, map_fmap, list_lookup_fmap.
    now rewrite (resize_lookup h w 3 224 224 decoded resized y x c Hr Hy Hx Hc).
  - rewrite normalize_data. apply Forall_forall. intros v Hv.
    apply list_elem_of_fmap in Hv as (b & -> & _).
    destruct (unit_of_byte_range b) as (H0 & H1 & _). now split.
Qed.

(** C3: preprocessing turns each pixel channel byte into the float32
    quotient by 255 at the same position; the quotient lies between 0
    and 1, is 1 for 255 and 0 for 0; the tensor has one more leading
    dimension, and for an upload it has shape [1, 224, 224, 3] in both
    servers: in the canvas server it holds the quotients of the red,
    green and blue bytes of the 224 x 224 canvas, in the Jimp server
    ([jimp_input]) those of the decoded bytes of the image that Jimp
    resized and re-encoded, whenever that JPEG decodes to three
    channels. *)
Theorem normalize_unit_interval :
  (forall pixels : Tensor byte,
      shape (normalize pixels) = 1 :: shape pixels
      /\ forall i, data (normalize pixels) !! i = unit_of_byte <$> data pixels !! i)
  /\ (forall b : byte,
        SFleb (S754_zero false) (unit_of_byte b) = true
        /\ SFleb (unit_of_byte b) (f32_of_Z 1) = true)
  /\ unit_of_byte "255"%byte = f32_of_Z 1
  /\ unit_of_byte "000"%byte = S754_zero false
  /\ (forall image : Image,
        shape (canvas_input image) = [1; 224; 224; 3]
        /\ length (data (canvas_input image)) = 224 * 224 * 3
        /\ forall p c, p < 224 * 224 -> c < 3 ->
             data (canvas_input image) !! (p * 3 + c)
             = Some (unit_of_byte (channel_at (drawImage image 224 224) (p * 4 + c))))
  /\ (forall (h w : nat) (decoded : list byte),
        exists resized,
          resizeNearestNeighbor (mkTensor [h; w; 3] decoded) 224 224 = Ok resized
          /\ shape (normalize resized) = [1; 224; 224; 3]
          /\ length (data (normalize resized)) = 224 * 224 * 3)
  /\ (forall (fs : Files) (path : string) (image : JimpImage) (buffer : list byte)
             (h w : nat) (decoded : list byte),
        Jimp_read fs path = Ok image ->
        resize_getBuffer image 224 224 = Ok buffer ->
        decodeImage buffer = Ok (mkTensor [h; w; 3] decoded) ->
        exists input,
          jimp_input fs path = Ok input
          /\ shape input = [1; 224; 224; 3]
          /\ length (data input) = 224 * 224 * 3
          /\ (forall y x c, y < 224 -> x < 224 -> c < 3 ->
                data input !! ((y * 224 + x) * 3 + c)
                = Some (unit_of_byte
                          (channel_at decoded
                             ((nearest_source h 224 y * w + nearest_source w 224 x) * 3
                              + c))))
          /\ Forall (fun v => SFleb (S754_zero false) v = true
                              /\ SFleb v (f32_of_Z 1) = true)
                    (data input)).
Proof.
  split; [|split; [|split; [|split; [|split; [|split]]]]].
  - intros pixels. split; [reflexivity|]. intros i.
    now rewrite normalize_data, map_fmap, list_lookup_fmap.
  - intros b. destruct (unit_of_byte_range b) as (H0 & H1 & _). now split.
  - reflexivity.
  - reflexivity.
  - intros image. unfold canvas_input. split; [reflexivity|]. split.
    + rewrite normalize_data, length_map. apply fromPixels_length.
    + intros p c Hp Hc.
      rewrite normalize_data, map_fmap, list_lookup_fmap.
      rewrite fromPixels_lookup by assumption. reflexivity.
  - intros h w decoded.
    destruct (resize_shape h w 3 decoded) as (resized & Hr & Hs & Hl).
    exists resized. split; [exact Hr|]. split.
    + unfold normalize, expandDims, div, toFloat. cbn [shape]. now rewrite Hs.
    + now rewrite normalize_data, length_map.
  - apply jimp_input_pixels.
Qed.

End Preprocessing.

(** The Jimp server on an upload whose first decoded byte is 255: the
    first value of the input tensor is 1.0. *)
Example jimp_input_example :
  exists input,
    jimp_input (R := example_runtime) example_files "uploads/leaf" = Ok input
    /\ shape input = [1; 224; 224; 3]
    /\ data input !! 0 = Some (f32_of_Z 1).
Proof.
  destruct (jimp_input_pixels (R := example_runtime) example_files "uploads/leaf"
              ["255"; "000"; "000"; "255"]%byte ["255"; "000"; "000"; "255"]%byte
              1 1 ["255"; "000"; "000"; "255"]%byte eq_refl eq_refl eq_refl)
    as (input & Hin & Hshape & _ & Hat & _).
  exists input. split; [exact Hin|]. split; [exact Hshape|].
  exact (Hat 0 0 0 ltac:(lia) ltac:(lia) ltac:(lia)).
Qed.


(** ** The /predict handlers *)

Section Handlers.
Context {R : Runtime}.

Lemma lift_run {A} (c : Files -> outcome A) (fs : Files) : lift c fs = (c fs, fs).
Proof. reflexivity. Qed.

(** The [try] blocks only read the file system. *)
Lemma canvas_try_fs (g : Globals) (imgPath : string) (fs : Files) :
  snd (canvas_try g imgPath fs) = fs.
Proof.
  unfold canvas_try. destruct (model g) as [m|]; [|reflexivity].
  unfold mbind, M_bind, lift.
  destruct (loadImage fs imgPath) as [image|e]; [|reflexivity].
  destruct (model_predict m (canvas_input image)) as [data|e]; reflexivity.
Qed.

Lemma jimp_try_fs (g : Globals) (req : Request) (fs : Files) :
  snd (jimp_try g req fs) = fs.
Proof.
  unfold jimp_try. destruct (file req) as [path|]; [|reflexivity].
  unfold mbind, M_bind, lift.
  destruct (jimp_input fs path) as [input|e]; [|reflexivity].
  destruct (model g) as [m|]; [|reflexivity].
  destruct (model_predict m input) as [data|e]; reflexivity.
Qed.

Lemma cleanup_present (imgPath : string) (fs : Files) :
  is_Some (fs !! imgPath) -> cleanup imgPath fs = (Ok tt, delete imgPath fs).
Proof.
  intros [bytes Hb]. unfold cleanup, mbind, M_bind, existsSync, unlinkSync.
  rewrite bool_decide_eq_true_2 by (rewrite Hb; eauto). now rewrite Hb.
Qed.

Lemma cleanup_absent (imgPath : string) (fs : Files) :
  fs !! imgPath = None -> cleanup imgPath fs = (Ok tt, fs).
Proof.
  intros Hb. unfold cleanup, mbind, M_bind, existsSync.
  rewrite bool_decide_eq_false_2; [reflexivity|].
  rewrite Hb. intros [? H]. discriminate.
Qed.

(** The whole handler, once the [try] block is evaluated. *)
Lemma canvas_predict_run (g : Globals) (req : Request) (imgPath : string) (fs : Files) :
  file req = Some imgPath -> is_Some (fs !! imgPath) ->
  canvas_predict g req fs
  = (match fst (canvas_try g imgPath fs) with
     | Ok r => Ok r
     | Throw e => fst (canvas_catch e fs)
     end, delete imgPath fs).
Proof.
  intros Hfile Hpresent. unfold canvas_predict. rewrite Hfile.
  unfold try_catch_finally.
  pose proof (canvas_try_fs g imgPath fs) as Hfs.
  destruct (canvas_try g imgPath fs) as [r fs1]. simpl in Hfs. subst fs1.
  destruct r as [r|e]; simpl; now rewrite cleanup_present.
Qed.

Lemma jimp_predict_run (g : Globals) (req : Request) (path : string) (fs : Files) :
  file req = Some path -> is_Some (fs !! path) ->
  jimp_predict g req fs
  = (match fst (jimp_try g req fs) with
     | Ok r => Ok r
     | Throw e => fst (jimp_catch e fs)
     end, delete path fs).
Proof.
  intros Hfile Hpresent. unfold jimp_predict, try_catch_finally, jimp_finally.
  pose proof (jimp_try_fs g req fs) as Hfs.
  destruct (jimp_try g req fs) as [r fs1]. simpl in Hfs. subst fs1.
  rewrite Hfile. destruct r as [r|e]; simpl; now rewrite cleanup_present.
Qed.

(** C5: when the upload was stored at imagePath, the file is gone when
    the handler returns, in both servers and whatever happened in between
    (success, model not loaded, undecodable image, failing inference):
    the handler returns a response with status 200 or 500 and leaves the
    file system without that file, every other file untouched. *)
Theorem upload_removed_on_every_path (g : Globals) (req : Request)
    (imagePath : string) (fs : Files) :
  file req = Some imagePath -> is_Some (fs !! imagePath) ->
  (exists r, canvas_predict g req fs = (Ok r, delete imagePath fs)
             /\ (status r = 200 \/ status r = 500))
  /\ (exists r, jimp_predict g req fs = (Ok r, delete imagePath fs)
                /\ (status r = 200 \/ status r = 500))
  /\ snd (canvas_predict g req fs) !! imagePath = None
  /\ snd (jimp_predict g req fs) !! imagePath = None.
Proof.
  intros Hfile Hpresent.
  rewrite (canvas_predict_run g req imagePath fs Hfile Hpresent).
  rewrite (jimp_predict_run g req imagePath fs Hfile Hpresent).
  split; [|split; [|split; apply lookup_delete_eq]].
  - unfold canvas_try. destruct (model g) as [m|]; [|simpl; eauto].
    unfold mbind, M_bind, lift.
    destruct (loadImage fs imagePath) as [image|e]; [|simpl; eauto].
    destruct (model_predict m (canvas_input image)) as [data|e]; simpl; eauto.
  - unfold jimp_try. rewrite Hfile. unfold mbind, M_bind, lift.
    destruct (jimp_input fs imagePath) as [input|e]; [|simpl; eauto].
    destruct (model g) as [m|]; [|simpl; eauto].
    destruct (model_predict m input) as [data|e]; simpl; eauto.
Qed.

(** The response after a successful inference. *)
Lemma canvas_predict_success (g : Globals) (req : Request) (imgPath : string)
    (fs : Files) (m : Model) (image : Image) (data : list spec_float) :
  file req = Some imgPath -> is_Some (fs !! imgPath) ->
  model g = Some m -> loadImage fs imgPath = Ok image ->
  model_predict m (canvas_input image) = Ok data ->
  let label := label_of (labels g) (maxIdx_of data) in
  let info := canvas_info (solutions g) label in
  fst (canvas_predict g req fs)
  = Ok (res_json 200 [("status", Str "success"); ("label", Str label);
                      ("confidence", Str (confidence_of data (maxIdx_of data)));
                      ("solution", obj_get info "solution");
                      ("pesticide", obj_get info "pesticide")]).
Proof.
  intros Hfile Hpresent Hm Himg Hdata.
  rewrite (canvas_predict_run g req imgPath fs Hfile Hpresent).
  unfold canvas_try. rewrite Hm. unfold mbind, M_bind, lift.
  rewrite Himg, Hdata. reflexivity.
Qed.

Lemma jimp_predict_success (g : Globals) (req : Request) (path : string)
    (fs : Files) (m : Model) (input : Tensor spec_float) (data : list spec_float) :
  file req = Some path -> is_Some (fs !! path) ->
  model g = Some m -> jimp_input fs path = Ok input ->
  model_predict m input = Ok data ->
  let label := label_of (labels g) (maxIdx_of data) in
  fst (jimp_predict g req fs)
  = Ok (mkResponse 200
          (Json (jimp_success label (confidence_of data (maxIdx_of data))
                   (jimp_info (solutions g) label)))).
Proof.
  intros Hfile Hpresent Hm Hin Hdata.
  rewrite (jimp_predict_run g req path fs Hfile Hpresent).
  unfold jimp_try. rewrite Hfile. unfold mbind, M_bind, lift.
  rewrite Hin, Hm, Hdata. reflexivity.
Qed.

Lemma arr_get_outside {A} (a : list A) (i : Z) :
  (i < 0 \/ Z.of_nat (length a) <= i)%Z -> arr_get a i = None.
Proof.
  intros H. unfold arr_get. destruct (Z.ltb_spec i 0); [reflexivity|].
  apply lookup_ge_None_2. lia.
Qed.

(** C6: resolving a class index against the label list always yields a
    string: "Unknown" when the index is outside the list (below zero or
    at least its length) and when the label there is undefined or empty,
    the label otherwise; and once inference has produced its output both
    handlers answer 200 with that label, whatever the index (in the Jimp
    server the spread of the catalogue entry comes after the label, so
    this is for an entry without a label property of its own). *)
Theorem unknown_label_fallback (g : Globals) (req : Request) (imgPath : string)
    (fs : Files) (m : Model) (data : list spec_float) :
  file req = Some imgPath -> is_Some (fs !! imgPath) -> model g = Some m ->
  (forall (labels : list value) (maxIdx : Z),
      ((maxIdx < 0 \/ Z.of_nat (length labels) <= maxIdx)%Z ->
       label_of labels maxIdx = "Unknown")
      /\ (forall v, arr_get labels maxIdx = Some v -> truthy v = false ->
            label_of labels maxIdx = "Unknown")
      /\ (forall s, arr_get labels maxIdx = Some (Str s) -> s <> "" ->
            label_of labels maxIdx = s))
  /\ (forall image, loadImage fs imgPath = Ok image ->
        model_predict m (canvas_input image) = Ok data ->
        exists fields,
          fst (canvas_predict g req fs) = Ok (mkResponse 200 (Json fields))
          /\ obj_get fields "label" = Str (label_of (labels g) (maxIdx_of data)))
  /\ (forall input, jimp_input fs imgPath = Ok input ->
        model_predict m input = Ok data ->
        exists fields,
          fst (jimp_predict g req fs) = Ok (mkResponse 200 (Json fields))
          /\ (obj_lookup (jimp_info (solutions g) (label_of (labels g) (maxIdx_of data)))
                "label" = None ->
              obj_get fields "label" = Str (label_of (labels g) (maxIdx_of data)))).
Proof.
  intros Hfile Hpresent Hm. split; [|split].
  - intros labels maxIdx. unfold label_of. split; [|split].
    + intros Hout. now rewrite arr_get_outside.
    + intros v -> Hv. simpl. destruct v as [|s]; [reflexivity|].
      simpl in *. now rewrite Hv.
    + intros s -> Hs. simpl.
      destruct (String.eqb_spec s ""); [contradiction|reflexivity].
  - intros image Himg Hdata.
    rewrite (canvas_predict_success g req imgPath fs m image data) by assumption.
    eexists. split; [reflexivity|]. unfold obj_get. simpl.
    reflexivity.
  - intros input Hin Hdata.
    rewrite (jimp_predict_success g req imgPath fs m input data) by assumption.
    eexists. split; [reflexivity|]. intros Hfree.
    unfold jimp_success.
    assert (Hfold : forall (info acc : object string),
              obj_lookup info "label" = None ->
              obj_lookup (fold_left (fun o p => obj_set o (fst p) (snd p)) info acc) "label"
              = obj_lookup acc "label").
    { induction info as [|[k v] info IH]; intros acc Hnone; [reflexivity|].
      simpl in Hnone |- *. destruct (String.eqb k "label") eqn:E; [discriminate|].
      rewrite IH by assumption. now rewrite obj_lookup_set, E. }
    unfold obj_get. rewrite Hfold by assumption. reflexivity.
Qed.

(** The canvas server answers a request that finds no model with the
    not-ready message in a JSON error body, and decodes nothing. *)
Lemma canvas_not_ready (g : Globals) (req : Request) (imgPath : string) (fs : Files) :
  file req = Some imgPath -> is_Some (fs !! imgPath) -> model g = None ->
  fst (canvas_predict g req fs)
  = Ok (mkResponse 500 (Json [("status", "error"); ("message", "Model not loaded yet.")])).
Proof.
  intros Hfile Hpresent Hm.
  rewrite (canvas_predict_run g req imgPath fs Hfile Hpresent).
  unfold canvas_try. rewrite Hm. reflexivity.
Qed.

(** The Jimp server has no such check: it reads and decodes the upload,
    then fails on [model.predict]; the answer is the plain text of any
    other failure. *)
Lemma jimp_not_ready (g : Globals) (req : Request) (path : string) (fs : Files) :
  file req = Some path -> is_Some (fs !! path) -> model g = None ->
  fst (jimp_predict g req fs) = Ok (mkResponse 500 (Text "Failed to process image.")).
Proof.
  intros Hfile Hpresent Hm.
  rewrite (jimp_predict_run g req path fs Hfile Hpresent).
  unfold jimp_try. rewrite Hfile. unfold mbind, M_bind, lift.
  destruct (jimp_input fs path); [rewrite Hm|]; reflexivity.
Qed.

(** A model is only ever stored by [initialize] after [loadLayersModel]
    returned it. *)
Lemma canvas_initialize_model (fs : Files) (g : Globals) (m : Model) :
  model (canvas_initialize fs g) = Some m ->
  model g = Some m \/ exists artifacts, loadLayersModel artifacts = Ok m.
Proof.
  unfold canvas_initialize, load_class_indices, load_solutions, canvas_load_model.
  unfold mbind, outcome_bind.
  destruct (readFileSync fs (path_join MODEL_DIR "class_indices.json")); [|auto].
  destruct (parse_class_indices a); [|auto]. simpl.
  destruct (fs !! path_join MODEL_DIR "diseaseInfo.json").
  - destruct (parse_disease_info l); simpl; [|auto].
    destruct (readFileSync fs (path_join MODEL_DIR "model.json")); [|auto].
    destruct (parse_model_json a2); [|auto].
    destruct (load_artifacts fs a3) as [art|]; [|auto].
    destruct (loadLayersModel art) eqn:E; simpl; [|auto].
    intros [= <-]. eauto.
  - simpl. destruct (readFileSync fs (path_join MODEL_DIR "model.json")); [|auto].
    destruct (parse_model_json a1); [|auto].
    destruct (load_artifacts fs a2) as [art|]; [|auto].
    destruct (loadLayersModel art) eqn:E; simpl; [|auto].
    intros [= <-]. eauto.
Qed.

(** The remedy lookup of the canvas server: the catalogue entry when
    there is one; otherwise the fixed default texts, unless the label
    names a member of [Object.prototype], which is found instead and has
    neither text. *)
Lemma canvas_info_lookup (solutions : gmap string (object string)) (label : string) :
  (forall entry, solutions !! label = Some entry -> canvas_info solutions label = entry)
  /\ (solutions !! label = None -> inherited label = false ->
      obj_get (canvas_info solutions label) "solution" = Str "Use proper fertilizers and care."
      /\ obj_get (canvas_info solutions label) "pesticide" = Str "Apply recommended pesticide.")
  /\ (solutions !! label = None -> inherited label = true ->
      obj_get (canvas_info solutions label) "solution" = Undefined
      /\ obj_get (canvas_info solutions label) "pesticide" = Undefined).
Proof.
  unfold canvas_info, solutions_get. split; [|split].
  - intros entry ->. reflexivity.
  - intros -> ->. split; reflexivity.
  - intros -> ->. split; reflexivity.
Qed.

(** C7, Jimp server: the default remedy for a label without catalogue
    entry is another pair of texts than the one the canvas server
    returns. *)
Theorem jimp_default_remedy_differs :
  jimp_info ∅ "Tomato___healthy"
  = [("solution", "General care needed."); ("pesticide", "Use appropriate pesticide.")]
  /\ obj_get (jimp_info ∅ "Tomato___healthy") "solution"
     <> Str "Use proper fertilizers and care."
  /\ obj_get (jimp_info ∅ "Tomato___healthy") "pesticide"
     <> Str "Apply recommended pesticide."
  /\ obj_get (canvas_info ∅ "Tomato___healthy") "solution"
     = Str "Use proper fertilizers and care."
  /\ obj_get (canvas_info ∅ "Tomato___healthy") "pesticide"
     = Str "Apply recommended pesticide.".
Proof. repeat split; discriminate. Qed.
End Handlers.

(** ** Weight loading *)

Section Weights.
Context {R : Runtime}.


Lemma read_shards_all (fs : Files) (shardPaths : list string) (contents : list (list byte)) :
  Forall2 (fun shardPath bytes => fs !! path_join MODEL_DIR shardPath = Some bytes)
          shardPaths contents ->
  read_shards fs shardPaths = Ok contents.
Proof.
  induction 1 as [|p b ps bs Hp _ IH]; [reflexivity|].
  simpl. unfold readFileSync. rewrite Hp. simpl. rewrite IH. reflexivity.
Qed.

Lemma read_shards_missing (fs : Files) (shardPaths : list string) (shardPath : string) :
  shardPath ∈ shardPaths -> fs !! path_join MODEL_DIR shardPath = None ->
  exists e, read_shards fs shardPaths = Throw e.
Proof.
  intros Hin Hmiss. induction shardPaths as [|p ps IH]; [inversion Hin|].
  simpl. unfold readFileSync.
  destruct (fs !! path_join MODEL_DIR p) as [b|] eqn:Hp; simpl; [|eauto].
  apply elem_of_cons in Hin as [->|Hin]; [congruence|].
  destruct (IH Hin) as [e ->]. simpl. eauto.
Qed.

(** The slice of the underlying [ArrayBuffer] is exactly the
    concatenation, wherever the pool placed it. *)
Lemma combined_slice (list : list (list byte)) :
  let combinedWeights := Buffer_concat list in
  ArrayBuffer_slice (buffer combinedWeights) (byteOffset combinedWeights)
    (byteOffset combinedWeights + byteLength combinedWeights)
  = concat list.
Proof.
  unfold Buffer_concat, ArrayBuffer_slice. cbn [buffer byteOffset byteLength].
  replace (length pool_before + length (concat list) - length pool_before)
    with (length (concat list)) by lia.
  rewrite drop_app_length. apply take_app_length.
Qed.

Lemma length_concat_sum {A} (l : list (list A)) :
  length (concat l) = sum_list (map length l).
Proof.
  induction l as [|x l IH]; [reflexivity|].
  cbn [concat map sum_list sum_list_with]. rewrite length_app, IH. reflexivity.
Qed.

(** X21.  What the loader does with the entry it reads, the first of
    [weightsManifest]: it reads the shard files that entry lists, in the
    listed order; when all are present the weight data handed to model
    construction is their concatenation in that order, its length the sum
    of their lengths, next to the topology and the weight specifications
    of that entry, unmodified; when one is missing the load throws.  A
    manifest with a single entry is loaded whole. *)
Theorem first_group_shards_concatenated (fs : Files)
    (modelJson : ModelJson Topology WeightSpec)
    (group0 : WeightsGroup WeightSpec) (rest : list (WeightsGroup WeightSpec)) :
  weightsManifest modelJson = group0 :: rest ->
  (forall contents : list (list byte),
      Forall2 (fun shardPath bytes => fs !! path_join MODEL_DIR shardPath = Some bytes)
              (paths group0) contents ->
      load_artifacts fs modelJson
      = Ok (mkArtifacts (modelTopology modelJson) (weights group0) (concat contents))
      /\ length (concat contents) = sum_list (map length contents))
  /\ (forall shardPath, shardPath ∈ paths group0 ->
        fs !! path_join MODEL_DIR shardPath = None ->
        exists e, load_artifacts fs modelJson = Throw e)
  /\ (rest = [] -> loads_every_shard fs modelJson).
Proof.
  intros Hman.
  assert (Hload : forall contents,
            Forall2 (fun shardPath bytes => fs !! path_join MODEL_DIR shardPath = Some bytes)
                    (paths group0) contents ->
            load_artifacts fs modelJson
            = Ok (mkArtifacts (modelTopology modelJson) (weights group0) (concat contents))).
  { intros contents Hall. unfold load_artifacts. rewrite Hman.
    rewrite (read_shards_all fs _ _ Hall).
    pose proof (combined_slice contents) as Hs. cbv zeta in Hs.
    unfold mbind, outcome_bind. cbv zeta. now rewrite Hs. }
  split; [|split].
  - intros contents Hall. split; [now apply Hload | apply length_concat_sum].
  - intros shardPath Hin Hmiss. unfold load_artifacts. rewrite Hman.
    destruct (read_shards_missing fs _ _ Hin Hmiss) as [e ->].
    exists e. reflexivity.
  - intros -> contents Hall. rewrite Hman in Hall |- *.
    cbn [flat_map] in Hall |- *. rewrite app_nil_r in Hall |- *.
    eexists. split; [exact (Hload contents Hall)|].
    cbn [weightData weightSpecs]. repeat split. apply length_concat_sum.
Qed.
(** The entries after the first are dropped: on a manifest with further
    entries whose shards are all present, the artifacts are those of the
    first entry alone, and as soon as a later entry carries a weight
    specification or a byte, the manifest is not loaded whole. *)
Lemma later_entries_dropped (fs : Files) (modelJson : ModelJson Topology WeightSpec)
    (group0 : WeightsGroup WeightSpec) (rest : list (WeightsGroup WeightSpec))
    (contents0 contents : list (list byte)) :
  weightsManifest modelJson = group0 :: rest ->
  Forall2 (fun shardPath bytes => fs !! path_join MODEL_DIR shardPath = Some bytes)
          (paths group0) contents0 ->
  Forall2 (fun shardPath bytes => fs !! path_join MODEL_DIR shardPath = Some bytes)
          (flat_map paths rest) contents ->
  flat_map weights rest <> [] \/ concat contents <> [] ->
  load_artifacts fs modelJson
  = Ok (mkArtifacts (modelTopology modelJson) (weights group0) (concat contents0))
  /\ ~ loads_every_shard fs modelJson.
Proof.
  intros Hman H0 Hrest Hmore.
  assert (Hload : load_artifacts fs modelJson
                  = Ok (mkArtifacts (modelTopology modelJson) (weights group0)
                          (concat contents0))).
  { unfold load_artifacts. rewrite Hman. rewrite (read_shards_all fs _ _ H0).
    pose proof (combined_slice contents0) as Hs. cbv zeta in Hs.
    unfold mbind, outcome_bind. cbv zeta. now rewrite Hs. }
  split; [exact Hload|]. intros Hall.
  destruct (Hall (contents0 ++ contents)) as (a & Ha & Hdata & _ & Hspecs).
  { rewrite Hman. cbn [flat_map]. now apply Forall2_app. }
  rewrite Hload in Ha. injection Ha as <-. cbn [weightData weightSpecs] in Hdata, Hspecs.
  rewrite Hman in Hspecs. cbn [flat_map] in Hspecs. rewrite concat_app in Hdata.
  destruct Hmore as [Hw|Hb].
  - apply Hw. apply (app_inv_head (weights group0)). now rewrite app_nil_r.
  - apply Hb. apply (app_inv_head (concat contents0)). now rewrite app_nil_r.
Qed.
End Weights.

(** ** Concrete requests *)


Lemma example_upload_present : is_Some (example_files !! "uploads/leaf").
Proof. vm_compute. eauto. Defined.

(** C2, canvas server: on a manifest with two entries, all of whose
    shard files are present, the loader hands over the specifications and
    the bytes of the first entry only; the shard of the second entry is
    never read and its weight specification is not passed on, so the
    weight data is not the concatenation of all referenced shards. *)
Theorem second_entry_not_loaded :
  Forall2 (fun shardPath bytes =>
             example_files !! @path_join example_runtime (@MODEL_DIR example_runtime) shardPath
             = Some bytes)
          (flat_map paths (weightsManifest two_group_manifest))
          [["001"; "002"]; ["003"]]%byte
  /\ flat_map weights (weightsManifest two_group_manifest) = ["conv/kernel"; "dense/kernel"]
  /\ load_artifacts (R := example_runtime) example_files two_group_manifest
     = Ok (mkArtifacts tt ["conv/kernel"] ["001"; "002"]%byte)
  /\ ~ loads_every_shard (R := example_runtime) example_files two_group_manifest.
Proof.
  split; [repeat constructor|]. split; [reflexivity|].
  apply (later_entries_dropped (R := example_runtime) example_files two_group_manifest
           (mkGroup ["group1-shard1of1.bin"] ["conv/kernel"])
           [mkGroup ["group2-shard1of1.bin"] ["dense/kernel"]]
           [["001"; "002"]%byte] [["003"]%byte]).
  - reflexivity.
  - repeat constructor.
  - repeat constructor.
  - left. discriminate.
Qed.

Lemma first_group_shards_concatenated_witness :
  weightsManifest two_group_manifest
  = mkGroup ["group1-shard1of1.bin"] ["conv/kernel"]
    :: [mkGroup ["group2-shard1of1.bin"] ["dense/kernel"]]
  /\ load_artifacts (R := example_runtime) example_files two_group_manifest
     = Ok (mkArtifacts tt ["conv/kernel"] ["001"; "002"]%byte).
Proof.
  split; [reflexivity|].
  refine (proj1 (proj1 (first_group_shards_concatenated (R := example_runtime)
            example_files two_group_manifest _ _ eq_refl) [["001"; "002"]%byte] _)).
  repeat constructor.
Defined.

Lemma maxIdx_first_maximum_witness :
  map f32_tenths [2; 5; 5; 1]%Z <> []
  /\ Forall (fun x => is_nan x = false) (map f32_tenths [2; 5; 5; 1]%Z)
  /\ exists i x,
       maxIdx_of (map f32_tenths [2; 5; 5; 1]%Z) = Z.of_nat i
       /\ map f32_tenths [2; 5; 5; 1]%Z !! i = Some x
       /\ Forall (fun y => SFleb y x = true) (map f32_tenths [2; 5; 5; 1]%Z).
Proof.
  assert (Hne : map f32_tenths [2; 5; 5; 1]%Z <> []) by discriminate.
  assert (Hnan : Forall (fun x => is_nan x = false) (map f32_tenths [2; 5; 5; 1]%Z))
    by (repeat constructor).
  split; [exact Hne|]. split; [exact Hnan|].
  destruct (proj1 (maxIdx_first_maximum (R := example_runtime) _ Hne Hnan))
    as (i & x & Hi & Hx & Hmax & _).
  exists i, x. auto.
Defined.

Lemma confidence_percent_rounded_witness :
  arr_get (map f32_tenths [2; 5; 5; 1]%Z) 1 = Some (f32_tenths 5)
  /\ valid_binary 24 128 (f32_tenths 5) = true
  /\ SFleb (S754_zero false) (f32_tenths 5) = true
  /\ SFleb (f32_tenths 5) (f32_of_Z 1) = true
  /\ exists n, confidence_of (R := example_runtime) (map f32_tenths [2; 5; 5; 1]%Z) 1 = fixed2 n
               /\ within_half n 10000 (f32_tenths 5) /\ (0 <= n <= 10000)%Z.
Proof.
  repeat (split; [reflexivity|]).
  exact (confidence_percent_rounded (R := example_runtime)
           (map f32_tenths [2; 5; 5; 1]%Z) 1 (f32_tenths 5)
           eq_refl eq_refl eq_refl eq_refl).
Defined.

Lemma upload_removed_on_every_path_witness :
  file example_request = Some "uploads/leaf"
  /\ is_Some (example_files !! "uploads/leaf")
  /\ snd (canvas_predict (R := example_runtime) initial_globals example_request example_files)
       !! "uploads/leaf" = None
  /\ snd (jimp_predict (R := example_runtime) ready_globals example_request example_files)
       !! "uploads/leaf" = None.
Proof.
  split; [reflexivity|]. split; [exact example_upload_present|]. split.
  - exact (proj1 (proj2 (proj2 (upload_removed_on_every_path (R := example_runtime)
             initial_globals example_request "uploads/leaf" example_files
             eq_refl example_upload_present)))).
  - exact (proj2 (proj2 (proj2 (upload_removed_on_every_path (R := example_runtime)
             ready_globals example_request "uploads/leaf" example_files
             eq_refl example_upload_present)))).
Defined.

Lemma unknown_label_fallback_witness :
  file example_request = Some "uploads/leaf"
  /\ is_Some (example_files !! "uploads/leaf")
  /\ model ready_globals = Some tt
  /\ label_of [Str "Tomato___Early_blight"] 1 = "Unknown"
  /\ label_of [Str "Tomato___Early_blight"] (-1) = "Unknown"
  /\ label_of [Str "Tomato___Early_blight"; Str ""] 1 = "Unknown".
Proof.
  split; [reflexivity|]. split; [exact example_upload_present|]. split; [reflexivity|].
  pose proof (proj1 (unknown_label_fallback (R := example_runtime)
                ready_globals example_request "uploads/leaf" example_files tt
                (map f32_tenths [2; 5; 5; 1]%Z)
                eq_refl example_upload_present eq_refl)) as H.
  split; [|split].
  - apply (proj1 (H [Str "Tomato___Early_blight"] 1%Z)). right. simpl. lia.
  - apply (proj1 (H [Str "Tomato___Early_blight"] (-1)%Z)). left. lia.
  - apply (proj1 (proj2 (H [Str "Tomato___Early_blight"; Str ""] 1%Z)) (Str ""));
      reflexivity.
Defined.

(** C8, Jimp server: a request that arrives while no model is loaded is
    answered with status 500 and the plain text "Failed to process
    image.", not with a not-ready message in a JSON error body as the
    canvas server does. *)
Theorem jimp_not_ready_plain_text :
  fst (jimp_predict (R := example_runtime) initial_globals example_request example_files)
  = Ok (mkResponse 500 (Text "Failed to process image."))
  /\ fst (canvas_predict (R := example_runtime) initial_globals example_request example_files)
     = Ok (mkResponse 500 (Json [("status", "error"); ("message", "Model not loaded yet.")])).
Proof.
  split.
  - exact (jimp_not_ready (R := example_runtime) initial_globals example_request
             "uploads/leaf" example_files eq_refl example_upload_present eq_refl).
  - exact (canvas_not_ready (R := example_runtime) initial_globals example_request
             "uploads/leaf" example_files eq_refl example_upload_present eq_refl).
Qed.

(** * Further properties of the servers *)

(** ** Every request is answered *)

Section Answers.
Context {R : Runtime}.

Lemma cleanup_run (imgPath : string) (fs : Files) :
  cleanup imgPath fs = (Ok tt, delete imgPath fs).
Proof.
  destruct (fs !! imgPath) as [bytes|] eqn:E.
  - apply cleanup_present. rewrite E. eauto.
  - rewrite cleanup_absent by assumption. now rewrite delete_id.
Qed.

(** The canvas handler with a file, whether or not the file is still on
    disk. *)
Lemma canvas_predict_file (g : Globals) (req : Request) (imgPath : string) (fs : Files) :
  file req = Some imgPath ->
  canvas_predict g req fs
  = (match fst (canvas_try g imgPath fs) with
     | Ok r => Ok r
     | Throw e => fst (canvas_catch e fs)
     end, delete imgPath fs).
Proof.
  intros Hfile. unfold canvas_predict. rewrite Hfile. unfold try_catch_finally.
  pose proof (canvas_try_fs g imgPath fs) as Hfs.
  destruct (canvas_try g imgPath fs) as [r fs1]. simpl in Hfs. subst fs1.
  destruct r as [r|e]; simpl; now rewrite cleanup_run.
Qed.

Lemma jimp_predict_file (g : Globals) (req : Request) (path : string) (fs : Files) :
  file req = Some path ->
  jimp_predict g req fs
  = (match fst (jimp_try g req fs) with
     | Ok r => Ok r
     | Throw e => fst (jimp_catch e fs)
     end, delete path fs).
Proof.
  intros Hfile. unfold jimp_predict, try_catch_finally, jimp_finally.
  pose proof (jimp_try_fs g req fs) as Hfs.
  destruct (jimp_try g req fs) as [r fs1]. simpl in Hfs. subst fs1.
  rewrite Hfile. destruct r as [r|e]; simpl; now rewrite cleanup_run.
Qed.

(** X1.  Neither handler ever rejects: for every state of the server, every
    request and every file system it returns a response, with status 400
    exactly when the request carries no file and 200 or 500 otherwise;
    the only change to the file system is that the upload path, if any,
    is no longer there (also when the upload had already vanished: the
    [existsSync] guard keeps [unlinkSync] from throwing).  Without a file
    the canvas server answers the JSON error "No file uploaded." and the
    Jimp server the text "No image uploaded.". *)
Theorem predict_always_answers (g : Globals) (req : Request) (fs : Files) :
  let fs' := match file req with Some imgPath => delete imgPath fs | None => fs end in
  (exists r, canvas_predict g req fs = (Ok r, fs')
     /\ (status r = 200 \/ status r = 400 \/ status r = 500)
     /\ (status r = 400 <-> file req = None)
     /\ (file req = None ->
         r = mkResponse 400 (Json [("status", "error"); ("message", "No file uploaded.")])))
  /\ (exists r, jimp_predict g req fs = (Ok r, fs')
        /\ (status r = 200 \/ status r = 400 \/ status r = 500)
        /\ (status r = 400 <-> file req = None)
        /\ (file req = None -> r = mkResponse 400 (Text "No image uploaded."))).
Proof.
  destruct (file req) as [imgPath|] eqn:Hfile; cbv zeta; split.
  - rewrite (canvas_predict_file g req imgPath fs Hfile).
    assert (Hst : exists r, match fst (canvas_try g imgPath fs) with
                            | Ok r => Ok r
                            | Throw e => fst (canvas_catch e fs)
                            end = Ok r /\ (status r = 200 \/ status r = 500)).
    { unfold canvas_try. destruct (model g) as [m|]; [|simpl; eauto].
      unfold mbind, M_bind, lift.
      destruct (loadImage fs imgPath) as [image|e]; [|simpl; eauto].
      destruct (model_predict m (canvas_input image)) as [data|e]; simpl; eauto. }
    destruct Hst as (r & -> & Hs). exists r. split; [reflexivity|].
    split; [tauto|]. split; [|discriminate].
    split; [intros H400; destruct Hs as [Hs|Hs]; rewrite Hs in H400; discriminate
           |discriminate].
  - rewrite (jimp_predict_file g req imgPath fs Hfile).
    assert (Hst : exists r, match fst (jimp_try g req fs) with
                            | Ok r => Ok r
                            | Throw e => fst (jimp_catch e fs)
                            end = Ok r /\ (status r = 200 \/ status r = 500)).
    { unfold jimp_try. rewrite Hfile. unfold mbind, M_bind, lift.
      destruct (jimp_input fs imgPath) as [input|e]; [|simpl; eauto].
      destruct (model g) as [m|]; [|simpl; eauto].
      destruct (model_predict m input) as [data|e]; simpl; eauto. }
    destruct Hst as (r & -> & Hs). exists r. split; [reflexivity|].
    split; [tauto|]. split; [|discriminate].
    split; [intros H400; destruct Hs as [Hs|Hs]; rewrite Hs in H400; discriminate
           |discriminate].
  - unfold canvas_predict. rewrite Hfile. eexists. split; [reflexivity|].
    simpl. split; [tauto|]. split; [tauto|reflexivity].
  - unfold jimp_predict, try_catch_finally, jimp_try, jimp_finally. rewrite Hfile.
    eexists. split; [reflexivity|].
    simpl. split; [tauto|]. split; [tauto|reflexivity].
Qed.

(** ** Error responses *)

(** X2.  What a failure inside the [try] block turns into.  The canvas server
    reports the message of the exception, or "Prediction failed." when
    that message is empty, so its message is never empty; the Jimp server
    answers the same text whatever failed. *)
Theorem failure_responses (g : Globals) (req : Request) (imgPath : string) (fs : Files) :
  file req = Some imgPath ->
  (forall e, fst (canvas_try g imgPath fs) = Throw e ->
     fst (canvas_predict g req fs)
     = Ok (mkResponse 500
             (Json [("status", "error");
                    ("message", if String.eqb e "" then "Prediction failed." else e)])))
  /\ (forall m e, model g = Some m -> loadImage fs imgPath = Throw e ->
        fst (canvas_try g imgPath fs) = Throw e)
  /\ (forall m image e, model g = Some m -> loadImage fs imgPath = Ok image ->
        model_predict m (canvas_input image) = Throw e ->
        fst (canvas_try g imgPath fs) = Throw e)
  /\ (forall e, (if String.eqb e "" then "Prediction failed." else e) <> "")
  /\ (forall e, fst (jimp_try g req fs) = Throw e ->
        fst (jimp_predict g req fs) = Ok (mkResponse 500 (Text "Failed to process image.")))
  /\ (forall e, jimp_input fs imgPath = Throw e -> fst (jimp_try g req fs) = Throw e)
  /\ (forall input m e, jimp_input fs imgPath = Ok input -> model g = Some m ->
        model_predict m input = Throw e -> fst (jimp_try g req fs) = Throw e).
Proof.
  intros Hfile. repeat split.
  - intros e He. rewrite (canvas_predict_file g req imgPath fs Hfile). simpl.
    rewrite He. unfold canvas_catch, res_json. simpl.
    destruct (String.eqb e ""); reflexivity.
  - intros m e Hm Himg. unfold canvas_try. rewrite Hm.
    unfold mbind, M_bind, lift. now rewrite Himg.
  - intros m image e Hm Himg Hp. unfold canvas_try. rewrite Hm.
    unfold mbind, M_bind, lift. now rewrite Himg, Hp.
  - intros e. destruct (String.eqb_spec e ""); [discriminate|assumption].
  - intros e He. rewrite (jimp_predict_file g req imgPath fs Hfile). simpl.
    now rewrite He.
  - intros e Hin. unfold jimp_try. rewrite Hfile.
    unfold mbind, M_bind, lift. now rewrite Hin.
  - intros input m e Hin Hm Hp. unfold jimp_try. rewrite Hfile.
    unfold mbind, M_bind, lift. now rewrite Hin, Hm, Hp.
Qed.
End Answers.

(** ** The fields of a successful answer *)

(** Properties copied one after the other: the later ones win.  [info]
    is an object, so its keys are distinct. *)
Lemma spread_lookup {V} (info base : object V) (k : string) :
  NoDup (map fst info) ->
  obj_lookup (fold_left (fun o p => obj_set o (fst p) (snd p)) info base) k
  = match obj_lookup info k with
    | Some v => Some v
    | None => obj_lookup base k
    end.
Proof.
  revert base. induction info as [|[k0 v0] info IH]; intros base Hnd; [reflexivity|].
  apply NoDup_cons in Hnd as [Hnotin Hnd]. simpl. rewrite IH by assumption.
  rewrite obj_lookup_set. destruct (String.eqb k0 k) eqn:E.
  - apply String.eqb_eq in E. subst k0.
    now rewrite (obj_lookup_None info k Hnotin).
  - reflexivity.
Qed.

Section Fields.
Context {R : Runtime}.

(** X3.  In the Jimp server the catalogue entry is spread last into the
    answer: each of its properties appears in the response, and an entry
    with a property named status, label or confidence replaces the value
    the server computed; a property the entry lacks keeps the computed
    value. *)
Theorem jimp_entry_overrides (label confidence : string) (info : object string) (k : string) :
  NoDup (map fst info) ->
  obj_lookup (jimp_success label confidence info) k
  = match obj_lookup info k with
    | Some v => Some v
    | None => obj_lookup [("status", "success"); ("label", label);
                          ("confidence", confidence)] k
    end.
Proof. intros Hnd. unfold jimp_success. now apply spread_lookup. Qed.

(** X4.  The success answer of the canvas server, as the handler sends
    it: status 200 and a JSON body with the status "success", the resolved
    label and the confidence, and of the remedy only [solution] and
    [pesticide], no other property.  These two are the catalogue entry's
    when the catalogue holds the label (each left out when the entry lacks
    it), the default texts when it does not, and both left out when the
    label is the name of a member of [Object.prototype] that the
    catalogue does not hold: [solutions[label]] then finds the inherited
    member and the default is not used. *)
Theorem canvas_answer_fields (g : Globals) (req : Request) (imgPath : string)
    (fs : Files) (m : Model) (image : Image) (data : list spec_float) :
  file req = Some imgPath -> is_Some (fs !! imgPath) ->
  model g = Some m -> loadImage fs imgPath = Ok image ->
  model_predict m (canvas_input image) = Ok data ->
  let label := label_of (labels g) (maxIdx_of data) in
  exists fields,
    fst (canvas_predict g req fs) = Ok (mkResponse 200 (Json fields))
    /\ map fst fields ⊆ ["status"; "label"; "confidence"; "solution"; "pesticide"]
    /\ NoDup (map fst fields)
    /\ obj_lookup fields "status" = Some "success"
    /\ obj_lookup fields "label" = Some label
    /\ obj_lookup fields "confidence" = Some (confidence_of data (maxIdx_of data))
    /\ (forall entry, solutions g !! label = Some entry ->
          obj_lookup fields "solution" = obj_lookup entry "solution"
          /\ obj_lookup fields "pesticide" = obj_lookup entry "pesticide")
    /\ (solutions g !! label = None -> inherited label = false ->
          obj_lookup fields "solution" = Some "Use proper fertilizers and care."
          /\ obj_lookup fields "pesticide" = Some "Apply recommended pesticide.")
    /\ (solutions g !! label = None -> inherited label = true ->
          obj_lookup fields "solution" = None /\ obj_lookup fields "pesticide" = None).
Proof.
  intros Hfile Hpresent Hm Himg Hdata label.
  rewrite (canvas_predict_success g req imgPath fs m image data) by assumption.
  cbv zeta. fold label. set (info := canvas_info (solutions g) label).
  assert (Hfields : forall sol pes : value, exists fields,
            res_json 200 [("status", Str "success"); ("label", Str label);
                          ("confidence", Str (confidence_of data (maxIdx_of data)));
                          ("solution", sol); ("pesticide", pes)]
            = mkResponse 200 (Json fields)
            /\ map fst fields ⊆ ["status"; "label"; "confidence"; "solution"; "pesticide"]
            /\ NoDup (map fst fields)
            /\ obj_lookup fields "status" = Some "success"
            /\ obj_lookup fields "label" = Some label
            /\ obj_lookup fields "confidence" = Some (confidence_of data (maxIdx_of data))
            /\ Str <$> obj_lookup fields "solution" = match sol with Str s => Some (Str s) | Undefined => None end
            /\ Str <$> obj_lookup fields "pesticide" = match pes with Str s => Some (Str s) | Undefined => None end).
  { intros sol pes. eexists. split; [reflexivity|].
    destruct sol as [|s], pes as [|p];
      simpl; (split; [|split; [|repeat split]]);
      first [ apply NoDup_ListNoDup; repeat constructor; simpl; intuition discriminate
            | intros x Hx; apply list_elem_of_In in Hx; apply list_elem_of_In;
              simpl in *; intuition ]. }
  destruct (Hfields (obj_get info "solution") (obj_get info "pesticide"))
    as (fields & Hres & Hsub & Hnd & Hst & Hlab & Hconf & Hsol & Hpes).
  assert (Hs : obj_lookup fields "solution" = obj_lookup info "solution").
  { unfold obj_get in Hsol. destruct (obj_lookup info "solution"),
      (obj_lookup fields "solution"); simpl in Hsol; congruence. }
  assert (Hp : obj_lookup fields "pesticide" = obj_lookup info "pesticide").
  { unfold obj_get in Hpes. destruct (obj_lookup info "pesticide"),
      (obj_lookup fields "pesticide"); simpl in Hpes; congruence. }
  exists fields. rewrite Hres. split; [reflexivity|].
  split; [exact Hsub|]. split; [exact Hnd|]. split; [exact Hst|].
  split; [exact Hlab|]. split; [exact Hconf|].
  rewrite Hs, Hp. unfold info, canvas_info, solutions_get. split; [|split].
  - intros entry ->. split; reflexivity.
  - intros -> ->. split; reflexivity.
  - intros -> ->. split; reflexivity.
Qed.
(** The Jimp server at such a label: the inherited member is spread, it
    has no enumerable property, and the answer carries no remedy. *)
Example jimp_inherited_label :
  jimp_success "constructor" "50.00" (jimp_info ∅ "constructor")
  = [("status", "success"); ("label", "constructor"); ("confidence", "50.00")].
Proof. reflexivity. Qed.

End Fields.

(** ** The class index at the edges *)

Lemma fold_max_nan (l : list spec_float) : fold_left max_step l S754_nan = S754_nan.
Proof. induction l as [|x l IH]; [reflexivity|]. simpl. exact IH. Qed.

Lemma max_step_nan_r (a : spec_float) : max_step a S754_nan = S754_nan.
Proof. destruct a as [[|]| | |]; reflexivity. Qed.

Lemma Math_max_nan (l : list spec_float) :
  Exists (fun x => is_nan x = true) l -> Math_max l = S754_nan.
Proof.
  unfold Math_max. generalize (S754_infinity true).
  induction l as [|x l IH]; intros acc Hex; [inversion Hex|].
  simpl. apply Exists_cons in Hex as [Hx|Hex].
  - destruct x; try discriminate. rewrite max_step_nan_r. apply fold_max_nan.
  - now apply IH.
Qed.

Lemma indexOf_from_nan (a : list spec_float) (k : Z) : indexOf_from a S754_nan k = (-1)%Z.
Proof.
  revert k. induction a as [|x a IH]; intros k; [reflexivity|].
  simpl. rewrite SFeqb_nan_r. apply IH.
Qed.

Lemma indexOf_from_bounds (a : list spec_float) (v : spec_float) (k : Z) :
  indexOf_from a v k = (-1)%Z
  \/ (k <= indexOf_from a v k < k + Z.of_nat (length a))%Z.
Proof.
  revert k. induction a as [|x a IH]; intros k; [now left|].
  simpl. destruct (SFeqb x v).
  - right. lia.
  - destruct (IH (k + 1)%Z) as [H|H]; [now left|right; lia].
Qed.

Lemma not_nan_Forall (l : list spec_float) :
  ~ Exists (fun x => is_nan x = true) l -> Forall (fun x => is_nan x = false) l.
Proof.
  intros H. apply Forall_forall. intros x Hx.
  destruct (is_nan x) eqn:E; [|reflexivity].
  exfalso. apply H. apply Exists_exists. eauto.
Qed.

Section ClassIndex.
Context {R : Runtime}.

Lemma maxIdx_of_bad (data : list spec_float) :
  data = [] \/ Exists (fun x => is_nan x = true) data ->
  maxIdx_of data = (-1)%Z
  /\ confidence_of data (maxIdx_of data) = "NaN"
  /\ forall labels, label_of labels (maxIdx_of data) = "Unknown".
Proof.
  intros Hbad.
  assert (Hm : maxIdx_of data = (-1)%Z).
  { destruct Hbad as [->|Hex]; [reflexivity|].
    unfold maxIdx_of, indexOf. rewrite (Math_max_nan data Hex).
    apply indexOf_from_nan. }
  rewrite Hm. repeat split.
Qed.

Lemma maxIdx_of_good (data : list spec_float) :
  data <> [] -> Forall (fun x => is_nan x = false) data ->
  exists i : nat, maxIdx_of data = Z.of_nat i /\ i < length data.
Proof.
  intros Hne Hnan.
  destruct (Math_max_spec data Hne Hnan) as (Hn & _ & Hin).
  destruct (indexOf_from_found data (Math_max data) 0) as (i & x & Hi & Hx & _).
  { exists (Math_max data). split; [assumption|]. now apply SFeqb_iff. }
  exists i. split; [unfold maxIdx_of, indexOf; rewrite Hi; lia|].
  eapply lookup_lt_Some. exact Hx.
Qed.

(** X5.  The class index is -1 or a position of the output vector; it is -1
    exactly when the vector is empty or holds a NaN somewhere, and then
    the confidence reads "NaN" and the label is "Unknown" whatever the
    label list. *)
Theorem maxIdx_bounds (data : list spec_float) :
  (-1 <= maxIdx_of data < Z.of_nat (length data))%Z
  /\ (maxIdx_of data = (-1)%Z <-> data = [] \/ Exists (fun x => is_nan x = true) data)
  /\ (maxIdx_of data = (-1)%Z ->
      confidence_of data (maxIdx_of data) = "NaN"
      /\ forall labels, label_of labels (maxIdx_of data) = "Unknown").
Proof.
  assert (Hb : (-1 <= maxIdx_of data < Z.of_nat (length data))%Z
               \/ (maxIdx_of data = (-1)%Z /\ data = [])).
  { unfold maxIdx_of, indexOf.
    destruct (indexOf_from_bounds data (Math_max data) 0) as [H|H].
    - destruct data; [now right|left]. rewrite H. simpl length. lia.
    - left. lia. }
  assert (Hiff : maxIdx_of data = (-1)%Z <-> data = [] \/ Exists (fun x => is_nan x = true) data).
  { split.
    - intros Hm. destruct data as [|x0 data']; [now left|right].
      destruct (decide (Exists (fun x => is_nan x = true) (x0 :: data'))) as [Hex|Hno];
        [assumption|].
      exfalso. apply not_nan_Forall in Hno.
      destruct (maxIdx_of_good (x0 :: data') ltac:(discriminate) Hno) as (i & Hi & _).
      rewrite Hi in Hm. lia.
    - intros Hbad. now apply maxIdx_of_bad. }
  split; [|split; [exact Hiff|]].
  - destruct Hb as [Hb|[Hm ->]]; [exact Hb|]. rewrite Hm. simpl. lia.
  - intros Hm. rewrite Hm. split.
    + reflexivity.
    + intros labels. reflexivity.
Qed.

(** X6.  When the model returns an empty vector or one that holds a NaN
    the request still succeeds:
    both servers answer 200 with the label "Unknown", the confidence
    "NaN" and the remedy found for "Unknown". *)
Theorem nan_output_answer (g : Globals) (req : Request) (imgPath : string)
    (fs : Files) (m : Model) (data : list spec_float) :
  file req = Some imgPath -> is_Some (fs !! imgPath) -> model g = Some m ->
  data = [] \/ Exists (fun x => is_nan x = true) data ->
  (forall image, loadImage fs imgPath = Ok image ->
     model_predict m (canvas_input image) = Ok data ->
     fst (canvas_predict g req fs)
     = Ok (res_json 200
             [("status", Str "success"); ("label", Str "Unknown");
              ("confidence", Str "NaN");
              ("solution", obj_get (canvas_info (solutions g) "Unknown") "solution");
              ("pesticide", obj_get (canvas_info (solutions g) "Unknown") "pesticide")]))
  /\ (forall input, jimp_input fs imgPath = Ok input ->
        model_predict m input = Ok data ->
        fst (jimp_predict g req fs)
        = Ok (mkResponse 200
                (Json (jimp_success "Unknown" "NaN" (jimp_info (solutions g) "Unknown"))))).
Proof.
  intros Hfile Hpresent Hm Hbad.
  destruct (maxIdx_of_bad data Hbad) as (Hidx & Hconf & Hlab).
  split.
  - intros image Himg Hdata.
    rewrite (canvas_predict_success g req imgPath fs m image data) by assumption.
    cbv zeta. now rewrite Hconf, Hlab.
  - intros input Hin Hdata.
    rewrite (jimp_predict_success g req imgPath fs m input data) by assumption.
    cbv zeta. now rewrite Hconf, Hlab.
Qed.
End ClassIndex.

(** ** The label list and the class-index file *)

Lemma obj_set_keys_eq {V} (o : object V) (k : string) (v : V) :
  map fst (obj_set o k v) = if bool_decide (k ∈ map fst o) then map fst o else map fst o ++ [k].
Proof.
  induction o as [|[k0 v0] o IH].
  - cbn [obj_set map fst]. rewrite bool_decide_eq_false_2; [reflexivity|].
    intros H; inversion H.
  - cbn [obj_set map fst]. destruct (String.eqb k0 k) eqn:E; cbn [map fst].
    + apply String.eqb_eq in E. subst k0.
      rewrite bool_decide_eq_true_2; [reflexivity|left].
    + assert (Hne : k0 <> k) by (intros ->; now rewrite String.eqb_refl in E).
      rewrite IH. destruct (decide (k ∈ map fst o)) as [Hin|Hnot].
      * rewrite !bool_decide_eq_true_2; [reflexivity|now right|assumption].
      * rewrite !bool_decide_eq_false_2; [reflexivity| |assumption].
        intros H. apply elem_of_cons in H as [H|H]; [congruence|contradiction].
Qed.

Lemma obj_set_NoDup {V} (o : object V) (k : string) (v : V) :
  NoDup (map fst o) -> NoDup (map fst (obj_set o k v)).
Proof.
  intros Hnd. rewrite obj_set_keys_eq. destruct (bool_decide (k ∈ map fst o)) eqn:D.
  - assumption.
  - apply bool_decide_eq_false_1 in D. apply NoDup_app. split; [assumption|].
    split; [|apply NoDup_singleton].
    intros x Hx Hk. apply list_elem_of_singleton in Hk. subst x. contradiction.
Qed.

Lemma parse_from_NoDup {V} (members acc : object V) :
  NoDup (map fst acc) ->
  NoDup (map fst (fold_left (fun o m => obj_set o (fst m) (snd m)) members acc)).
Proof.
  revert acc. induction members as [|[k v] ms IH]; intros acc Hnd; [assumption|].
  simpl. apply IH. now apply obj_set_NoDup.
Qed.

Lemma obj_lookup_app {V} (l1 l2 : object V) (k : string) :
  obj_lookup (l1 ++ l2) k
  = match obj_lookup l1 k with Some v => Some v | None => obj_lookup l2 k end.
Proof.
  induction l1 as [|[k0 v0] l1 IH]; [reflexivity|].
  simpl. destruct (String.eqb k0 k); [reflexivity|exact IH].
Qed.

Lemma parse_from_lookup {V} (members acc : object V) (k : string) :
  obj_lookup (fold_left (fun o m => obj_set o (fst m) (snd m)) members acc) k
  = match obj_lookup (rev members) k with
    | Some v => Some v
    | None => obj_lookup acc k
    end.
Proof.
  revert acc. induction members as [|[k0 v0] ms IH]; intros acc; [reflexivity|].
  simpl. rewrite IH, obj_lookup_app, obj_lookup_set. simpl.
  destruct (obj_lookup (rev ms) k); [reflexivity|].
  destruct (String.eqb k0 k); reflexivity.
Qed.

Lemma obj_lookup_elem {V} (l : object V) (k : string) (v : V) :
  obj_lookup l k = Some v -> (k, v) ∈ l.
Proof.
  induction l as [|[k0 v0] l IH]; [discriminate|]. simpl.
  destruct (String.eqb k0 k) eqn:E.
  - apply String.eqb_eq in E. intros [= ->]. subst. left.
  - intros H. right. auto.
Qed.

Lemma parse_from_key_elem {V} (members acc : object V) (k : string) :
  k ∈ map fst acc \/ k ∈ map fst members ->
  k ∈ map fst (fold_left (fun o m => obj_set o (fst m) (snd m)) members acc).
Proof.
  revert acc. induction members as [|[k0 v0] ms IH]; intros acc [H|H]; simpl.
  - assumption.
  - inversion H.
  - apply IH. left. rewrite obj_set_keys_eq.
    destruct (bool_decide (k0 ∈ map fst acc)); [assumption|].
    apply elem_of_app. now left.
  - simpl in H. apply elem_of_cons in H as [->|H]; [|apply IH; now right].
    apply IH. left. rewrite obj_set_keys_eq.
    destruct (bool_decide (k0 ∈ map fst acc)) eqn:D.
    + now apply bool_decide_eq_true_1 in D.
    + apply elem_of_app. right. left.
Qed.

(** X7.  The label list has one entry for each distinct key of the file; a
    key written more than once counts once, with the value of its last
    occurrence; and every entry is a class name of the file, never
    [undefined]. *)
Theorem labels_from_file (members : list (string * string)) :
  length (load_labels members) = length (JSON_parse members)
  /\ NoDup (map fst (JSON_parse members))
  /\ (forall k, k ∈ map fst (JSON_parse members) <-> k ∈ map fst members)
  /\ (forall k, obj_lookup (JSON_parse members) k = obj_lookup (rev members) k)
  /\ Forall (fun l => exists k v, (k, v) ∈ members /\ l = Str v) (load_labels members).
Proof.
  assert (Hlook : forall k, obj_lookup (JSON_parse members) k = obj_lookup (rev members) k).
  { intros k. unfold JSON_parse. rewrite parse_from_lookup. simpl.
    now destruct (obj_lookup (rev members) k). }
  split; [|split; [|split; [|split; [exact Hlook|]]]].
  - unfold load_labels, build_labels. rewrite length_map.
    rewrite (Permutation_length (sorted_keys_perm _)). apply length_map.
  - apply parse_from_NoDup. constructor.
  - intros k. split.
    + apply JSON_parse_keys.
    + intros Hk. apply parse_from_key_elem. now right.
  - apply Forall_forall. intros l Hl. unfold load_labels, build_labels in Hl.
    rewrite map_fmap in Hl. apply list_elem_of_fmap in Hl as (k & -> & Hk).
    rewrite sorted_keys_perm in Hk.
    destruct (obj_lookup_is_Some _ k Hk) as [v Hv].
    exists k, v. unfold obj_get. rewrite Hv. split; [|reflexivity].
    rewrite Hlook in Hv. apply obj_lookup_elem in Hv.
    apply list_elem_of_In, in_rev in Hv. now apply list_elem_of_In.
Qed.

Lemma NoDup_fmap_inj_on {A B} (f : A -> B) (l : list A) (x y : A) :
  NoDup (map f l) -> x ∈ l -> y ∈ l -> f x = f y -> x = y.
Proof.
  induction l as [|a l IH]; intros Hnd Hx Hy Hxy; [inversion Hx|].
  simpl in Hnd. apply NoDup_cons in Hnd as [Hnotin Hnd].
  apply elem_of_cons in Hx as [->|Hx], Hy as [->|Hy]; auto.
  - exfalso. apply Hnotin. rewrite Hxy, map_fmap. now apply list_elem_of_fmap_2.
  - exfalso. apply Hnotin. rewrite <- Hxy, map_fmap. now apply list_elem_of_fmap_2.
Qed.

Lemma obj_lookup_NoDup_elem {V} (l : object V) (k : string) (v : V) :
  NoDup (map fst l) -> (k, v) ∈ l -> obj_lookup l k = Some v.
Proof.
  induction l as [|[k0 v0] l IH]; intros Hnd Hin; [inversion Hin|].
  simpl in Hnd. apply NoDup_cons in Hnd as [Hnotin Hnd].
  simpl. apply elem_of_cons in Hin as [[= -> ->]|Hin].
  - now rewrite String.eqb_refl.
  - destruct (String.eqb k0 k) eqn:E; [|auto].
    apply String.eqb_eq in E. subst k0. exfalso. apply Hnotin.
    rewrite map_fmap. apply list_elem_of_fmap. exists (k, v). auto.
Qed.

Lemma obj_lookup_perm {V} (l l' : object V) (k : string) :
  NoDup (map fst l) -> l ≡ₚ l' -> obj_lookup l k = obj_lookup l' k.
Proof.
  intros Hnd Hp.
  assert (Hnd' : NoDup (map fst l')) by (now rewrite <- Hp).
  destruct (obj_lookup l k) as [v|] eqn:E.
  - symmetry. apply obj_lookup_NoDup_elem; [assumption|].
    rewrite <- Hp. now apply obj_lookup_elem.
  - destruct (obj_lookup l' k) as [v'|] eqn:E'; [|reflexivity].
    apply obj_lookup_elem in E'. rewrite <- Hp in E'.
    apply (obj_lookup_NoDup_elem l k v' Hnd) in E'. congruence.
Qed.

(** X8.  The order in which the file declares its members does not matter:
    two files with the same members, whose keys are decimal integers with
    distinct values, give the same label list. *)
Theorem labels_order_independent (members members' : list (string * string)) :
  members ≡ₚ members' ->
  Forall (fun m => safe_integer_key (fst m)) members ->
  NoDup (map (fun m => key_number (fst m)) members) ->
  load_labels members = load_labels members'.
Proof.
  intros Hperm Hsafe Hnum.
  assert (Hkeys : NoDup (map fst members)).
  { rewrite <- (map_map fst key_number), map_fmap in Hnum.
    now apply NoDup_fmap_1 in Hnum. }
  assert (Hkeys' : NoDup (map fst members')) by (now rewrite <- Hperm).
  unfold load_labels. rewrite (JSON_parse_nodup members Hkeys).
  rewrite (JSON_parse_nodup members' Hkeys').
  assert (Hn : forall l : list (string * string), l ≡ₚ members ->
            Forall (fun k => is_Some (StringToNumber k)) (map fst l)).
  { intros l Hl. apply List.Forall_forall. intros k Hk.
    apply in_map_iff in Hk as (m & <- & Hm).
    rewrite List.Forall_forall in Hsafe.
    destruct (Hsafe m) as (n & Hn & _).
    - apply list_elem_of_In. rewrite <- Hl. now apply list_elem_of_In.
    - rewrite Hn. eauto. }
  assert (Hsk : sorted_keys members = sorted_keys members').
  { apply (StronglySorted_unique_strong (fun a b => (key_number a <= key_number b)%Z)).
    - intros x1 x2 H1 H2 Hle Hge.
      rewrite sorted_keys_perm in H1. rewrite sorted_keys_perm, <- Hperm in H2.
      apply (NoDup_fmap_inj_on key_number (map fst members)); auto; [|lia].
      now rewrite map_map.
    - apply sorted_keys_sorted, Hn. reflexivity.
    - apply sorted_keys_sorted, Hn. now symmetry.
    - rewrite !sorted_keys_perm. now apply Permutation_map. }
  unfold build_labels. rewrite Hsk. apply map_ext. intros k.
  unfold obj_get. now rewrite (obj_lookup_perm members members' k Hkeys Hperm).
Qed.

(** ** A model trained by the script *)

Lemma written_labels_read_back (names : list string) :
  load_labels (write_class_indices names) = map Str names.
Proof.
  set (n := length names).
  set (canon := map ToString_index (indices n)).
  pose proof (train_classIndices_eq names) as Ho. fold n canon in Ho.
  assert (Hkeys : map fst (train_classIndices names) = canon).
  { rewrite Ho. apply map_fst_combine. unfold canon.
    now rewrite length_map, indices_length. }
  unfold write_class_indices. rewrite JSON_stringify_members.
  set (o := train_classIndices names) in *.
  assert (Hmk : map fst (members_of o (Object_keys o)) = Object_keys o).
  { apply members_of_keys. intros k Hk. now rewrite <- (Object_keys_perm o). }
  assert (Hparse : JSON_parse (members_of o (Object_keys o)) = members_of o (Object_keys o)).
  { apply JSON_parse_nodup. rewrite Hmk, Object_keys_perm, Hkeys.
    apply canonical_keys_NoDup. }
  unfold load_labels. rewrite Hparse.
  rewrite (labels_dense _ n) by (rewrite Hmk, Object_keys_perm, Hkeys; reflexivity).
  apply list_eq. intros i. rewrite !map_fmap, !list_lookup_fmap.
  destruct (decide (i < n)) as [Hi|Hi].
  - rewrite indices_lookup by assumption. simpl.
    destruct (lookup_lt_is_Some_2 names i Hi) as [name Hname]. rewrite Hname. simpl.
    f_equal. unfold obj_get. rewrite members_of_lookup.
    + rewrite Ho. erewrite obj_lookup_combine; [reflexivity| | |exact Hname].
      * apply canonical_keys_NoDup.
      * unfold canon. rewrite map_fmap, list_lookup_fmap, indices_lookup by assumption.
        reflexivity.
    + rewrite (Object_keys_perm o), Hkeys. unfold canon. rewrite map_fmap.
      apply list_elem_of_fmap. exists (N.of_nat i). split; [reflexivity|].
      eapply list_elem_of_lookup_2. now apply indices_lookup.
  - rewrite (lookup_ge_None_2 (indices n)) by (rewrite indices_length; lia).
    rewrite (lookup_ge_None_2 names) by (fold n; lia). reflexivity.
Qed.

(** X9.  The training script gives the last layer as many units as there are
    class folders.  For an output vector of that length (without NaN) the
    class index is a position of the label list written by the script, so
    the answer is the name of the class folder at that index and the
    fallback "Unknown" is not used (folder names are not empty). *)
Theorem trained_label_is_class_name (names : list string) (data : list spec_float) :
  length data = length names -> data <> [] ->
  Forall (fun x => is_nan x = false) data ->
  Forall (fun name => name <> "") names ->
  exists (i : nat) (name : string),
    maxIdx_of data = Z.of_nat i
    /\ names !! i = Some name
    /\ label_of (load_labels (write_class_indices names)) (maxIdx_of data) = name.
Proof.
  intros Hlen Hne Hnan Hnames.
  destruct (maxIdx_of_good data Hne Hnan) as (i & Hi & Hlt).
  rewrite Hlen in Hlt.
  destruct (lookup_lt_is_Some_2 names i Hlt) as [name Hname].
  exists i, name. split; [exact Hi|]. split; [exact Hname|].
  rewrite Hi, written_labels_read_back. unfold label_of.
  rewrite arr_get_nat, map_fmap, list_lookup_fmap, Hname. simpl.
  rewrite Forall_forall in Hnames.
  assert (Hn : name <> "") by (apply Hnames; eapply list_elem_of_lookup_2; eassumption).
  destruct (String.eqb_spec name ""); [contradiction|reflexivity].
Qed.

(** ** Preprocessing: order and alpha *)

Lemma units_increasing_true : units_increasing = true.
Proof. vm_compute. reflexivity. Qed.

Lemma byte_at_to_N (b : byte) : byte_at (N.to_nat (Byte.to_N b)) = b.
Proof. unfold byte_at. now rewrite N2Nat.id, Byte.of_to_N. Qed.

Lemma byte_value_lt_256 (b : byte) : N.to_nat (Byte.to_N b) < 256.
Proof. pose proof (Byte.to_N_bounded b). lia. Qed.

Lemma increasing_on_lt (us : list spec_float) (i j : nat) :
  increasing_on us = true -> i < j -> j < 256 ->
  SFltb (nth i us S754_nan) (nth j us S754_nan) = true.
Proof.
  intros H Hij Hj. unfold increasing_on in H.
  rewrite forallb_forall in H.
  assert (Hi' : In i (seq 0 256)) by (apply in_seq; lia).
  assert (Hj' : In j (seq 0 256)) by (apply in_seq; lia).
  specialize (H i Hi'). rewrite forallb_forall in H. specialize (H j Hj').
  now rewrite (proj2 (Nat.ltb_lt _ _) Hij) in H.
Qed.

Lemma unit_table_nth (i : nat) :
  i < 256 -> nth i unit_table S754_nan = unit_of_byte (byte_at i).
Proof.
  intros Hi. unfold unit_table.
  rewrite (nth_indep _ S754_nan (unit_of_byte (byte_at 0)))
    by (now rewrite length_map, length_seq).
  rewrite (map_nth (fun n => unit_of_byte (byte_at n))).
  now rewrite seq_nth.
Qed.

Lemma unit_of_byte_lt (b1 b2 : byte) :
  (Byte.to_N b1 < Byte.to_N b2)%N ->
  SFltb (unit_of_byte b1) (unit_of_byte b2) = true.
Proof.
  intros Hlt.
  pose proof (byte_value_lt_256 b1) as H1. pose proof (byte_value_lt_256 b2) as H2.
  assert (Hij : N.to_nat (Byte.to_N b1) < N.to_nat (Byte.to_N b2)) by lia.
  pose proof (increasing_on_lt unit_table _ _ units_increasing_true Hij H2) as H.
  rewrite !unit_table_nth in H by assumption.
  now rewrite !byte_at_to_N in H.
Qed.

Lemma unit_of_byte_not_nan (b : byte) : is_nan (unit_of_byte b) = false.
Proof.
  destruct (unit_of_byte_range b) as (H0 & _ & _).
  destruct (unit_of_byte b); try reflexivity. discriminate.
Qed.

Lemma SFltb_irrefl (x : spec_float) : SFltb x x = false.
Proof.
  destruct (is_nan x) eqn:E.
  - destruct x; try discriminate. reflexivity.
  - destruct (SFltb x x) eqn:L; [|reflexivity].
    apply SFltb_iff in L; try assumption. now apply lex_lt_irrefl in L.
Qed.

(** X10.  Normalisation keeps the order of pixel values and loses none: a
    smaller channel byte gives a strictly smaller float32, and only equal
    bytes give equal floats. *)
Theorem normalize_order_preserving (b1 b2 : byte) :
  ((Byte.to_N b1 < Byte.to_N b2)%N
   <-> SFltb (unit_of_byte b1) (unit_of_byte b2) = true)
  /\ (unit_of_byte b1 = unit_of_byte b2 -> b1 = b2).
Proof.
  assert (Hinj : forall b b', Byte.to_N b = Byte.to_N b' -> b = b').
  { intros b b' H. apply (f_equal Byte.of_N) in H.
    rewrite !Byte.of_to_N in H. congruence. }
  split; [split|].
  - apply unit_of_byte_lt.
  - intros Hlt.
    destruct (N.lt_trichotomy (Byte.to_N b1) (Byte.to_N b2)) as [H|[H|H]]; [exact H| |].
    + apply Hinj in H. subst b2. rewrite SFltb_irrefl in Hlt. discriminate.
    + apply unit_of_byte_lt in H.
      apply SFltb_iff in H; try apply unit_of_byte_not_nan.
      apply SFltb_iff in Hlt; try apply unit_of_byte_not_nan.
      exfalso. eapply lex_lt_irrefl, lex_lt_trans; eassumption.
  - intros Heq.
    destruct (N.lt_trichotomy (Byte.to_N b1) (Byte.to_N b2)) as [H|[H|H]].
    + apply unit_of_byte_lt in H. rewrite Heq, SFltb_irrefl in H. discriminate.
    + now apply Hinj.
    + apply unit_of_byte_lt in H. rewrite Heq, SFltb_irrefl in H. discriminate.
Qed.

Lemma flat_map_ext_seq {B} (f g : nat -> list B) (s n : nat) :
  (forall i, s <= i < s + n -> f i = g i) ->
  flat_map f (seq s n) = flat_map g (seq s n).
Proof.
  revert s. induction n as [|n IH]; intros s H; [reflexivity|].
  simpl. rewrite (H s) by lia. f_equal. apply IH. intros i Hi. apply H. lia.
Qed.

(** X11.  The tensor of a canvas depends on its red, green and blue bytes
    only: the alpha byte of each pixel, and any byte past the last
    pixel, is never read. *)
Theorem alpha_ignored (c1 c2 : Canvas) :
  width c1 = width c2 -> height c1 = height c2 ->
  (forall p channel, p < width c1 * height c1 -> channel < 3 ->
     channel_at (image_data c1) (p * 4 + channel)
     = channel_at (image_data c2) (p * 4 + channel)) ->
  fromPixels c1 = fromPixels c2
  /\ normalize (fromPixels c1) = normalize (fromPixels c2).
Proof.
  intros Hw Hh Hrgb.
  assert (H : fromPixels c1 = fromPixels c2).
  { unfold fromPixels. rewrite <- Hw, <- Hh. f_equal.
    apply flat_map_ext_seq. intros p Hp. simpl.
    rewrite !Hrgb by lia. reflexivity. }
  split; [exact H|now rewrite H].
Qed.

Lemma alpha_ignored_witness :
  fromPixels (mkCanvas 1 1 ["200"; "100"; "050"; "255"]%byte)
  = fromPixels (mkCanvas 1 1 ["200"; "100"; "050"; "000"; "007"]%byte).
Proof.
  refine (proj1 (alpha_ignored (mkCanvas 1 1 ["200"; "100"; "050"; "255"]%byte)
                   (mkCanvas 1 1 ["200"; "100"; "050"; "000"; "007"]%byte)
                   eq_refl eq_refl _)).
  intros p channel Hp Hc. simpl in Hp.
  destruct p as [|p]; [|lia].
  destruct channel as [|[|[|channel]]]; try reflexivity. lia.
Defined.

(** ** [initialize] *)

Section Initialize.
Context {R : Runtime}.

Lemma load_artifacts_first (fs : Files) (modelJson : ModelJson Topology WeightSpec)
    (group0 : WeightsGroup WeightSpec) (rest : list (WeightsGroup WeightSpec))
    (contents : list (list byte)) :
  weightsManifest modelJson = group0 :: rest ->
  Forall2 (fun shardPath bytes => fs !! path_join MODEL_DIR shardPath = Some bytes)
          (paths group0) contents ->
  load_artifacts fs modelJson
  = Ok (mkArtifacts (modelTopology modelJson) (weights group0) (concat contents)).
Proof.
  intros Hman Hall. unfold load_artifacts. rewrite Hman.
  rewrite (read_shards_all fs _ _ Hall).
  pose proof (combined_slice contents) as Hs. cbv zeta in Hs.
  unfold mbind, outcome_bind. cbv zeta. now rewrite Hs.
Qed.

(** X12.  When the canvas server becomes ready.  With a readable class-index
    file, a catalogue that is absent or readable, a readable model.json
    whose first manifest entry has all its shard files, and a model that
    tfjs accepts, [initialize] stores the model, the label list of the
    class-index file and the catalogue (the previous one when the file is
    absent). *)
Theorem canvas_initialize_ready (fs : Files) (g : Globals)
    (classText modelText : list byte) (members : list (string * string))
    (catalogue : gmap string (object string))
    (modelJson : ModelJson Topology WeightSpec)
    (group0 : WeightsGroup WeightSpec) (rest : list (WeightsGroup WeightSpec))
    (contents : list (list byte)) (m : Model) :
  fs !! path_join MODEL_DIR "class_indices.json" = Some classText ->
  parse_class_indices classText = Ok members ->
  (fs !! path_join MODEL_DIR "diseaseInfo.json" = None /\ catalogue = solutions g
   \/ exists infoText, fs !! path_join MODEL_DIR "diseaseInfo.json" = Some infoText
                       /\ parse_disease_info infoText = Ok catalogue) ->
  fs !! path_join MODEL_DIR "model.json" = Some modelText ->
  parse_model_json modelText = Ok modelJson ->
  weightsManifest modelJson = group0 :: rest ->
  Forall2 (fun shardPath bytes => fs !! path_join MODEL_DIR shardPath = Some bytes)
          (paths group0) contents ->
  loadLayersModel (mkArtifacts (modelTopology modelJson) (weights group0) (concat contents))
  = Ok m ->
  canvas_initialize fs g = mkGlobals (Some m) (load_labels members) catalogue.
Proof.
  intros Hc Hpc Hinfo Hm Hpm Hman Hall Hload.
  unfold canvas_initialize, load_class_indices, load_solutions, canvas_load_model,
    readFileSync.
  rewrite Hc, Hm. unfold mbind, outcome_bind. rewrite Hpc, Hpm.
  rewrite (load_artifacts_first fs modelJson group0 rest contents Hman Hall), Hload.
  destruct Hinfo as [[Hnone ->]|(infoText & Hsome & Hpi)].
  - rewrite Hnone. reflexivity.
  - rewrite Hsome, Hpi. reflexivity.
Qed.

(** X13.  Where [initialize] of the canvas server stops.  Every exception is
    swallowed and leaves what was assigned before it: without a readable
    class-index file nothing changes, and the model is not even looked
    for; a catalogue file that is present but unreadable, a missing
    model.json, or a model.json with an empty weightsManifest leave the
    new label list in place and the model as it was, so the server stays
    not ready. *)
Theorem canvas_initialize_failures (fs : Files) (g : Globals) :
  ((fs !! path_join MODEL_DIR "class_indices.json" = None
    \/ exists text e, fs !! path_join MODEL_DIR "class_indices.json" = Some text
                      /\ parse_class_indices text = Throw e) ->
   canvas_initialize fs g = g)
  /\ (forall classText members,
        fs !! path_join MODEL_DIR "class_indices.json" = Some classText ->
        parse_class_indices classText = Ok members ->
        ((exists infoText e, fs !! path_join MODEL_DIR "diseaseInfo.json" = Some infoText
                             /\ parse_disease_info infoText = Throw e) ->
         canvas_initialize fs g = mkGlobals (model g) (load_labels members) (solutions g))
        /\ (fs !! path_join MODEL_DIR "diseaseInfo.json" = None ->
            (fs !! path_join MODEL_DIR "model.json" = None
             \/ exists modelText modelJson,
                  fs !! path_join MODEL_DIR "model.json" = Some modelText
                  /\ parse_model_json modelText = Ok modelJson
                  /\ weightsManifest modelJson = []) ->
            canvas_initialize fs g
            = mkGlobals (model g) (load_labels members) (solutions g))).
Proof.
  split.
  - intros [Hnone|(text & e & Hsome & Hp)];
      unfold canvas_initialize, load_class_indices, readFileSync.
    + now rewrite Hnone.
    + rewrite Hsome. unfold mbind, outcome_bind. now rewrite Hp.
  - intros classText members Hc Hpc. split.
    + intros (infoText & e & Hsome & Hp).
      unfold canvas_initialize, load_class_indices, load_solutions, readFileSync.
      rewrite Hc. unfold mbind, outcome_bind. rewrite Hpc. cbn [model labels solutions].
      rewrite Hsome, Hp. reflexivity.
    + intros Hnone Hmodel.
      unfold canvas_initialize, load_class_indices, load_solutions, canvas_load_model,
        readFileSync.
      rewrite Hc. unfold mbind, outcome_bind. rewrite Hpc. cbn [model labels solutions].
      rewrite Hnone.
      destruct Hmodel as [Hm|(modelText & modelJson & Hm & Hpm & Hman)].
      * rewrite Hm. reflexivity.
      * rewrite Hm, Hpm. unfold load_artifacts. rewrite Hman. reflexivity.
Qed.

(** X14.  A missing class-index file, the two servers compared.  The canvas
    server never loads the model and refuses every prediction with the
    not-ready message.  The Jimp server, which loads the model first,
    keeps it and its empty label list: every inference that succeeds is
    answered 200 with the label "Unknown" and the default remedy. *)
Theorem missing_class_indices (fs0 fs : Files) (req : Request) (imgPath : string)
    (m : Model) :
  fs0 !! path_join MODEL_DIR "class_indices.json" = None ->
  file req = Some imgPath -> is_Some (fs !! imgPath) ->
  fst (canvas_predict (canvas_initialize fs0 initial_globals) req fs)
  = Ok (mkResponse 500 (Json [("status", "error"); ("message", "Model not loaded yet.")]))
  /\ (loadLayersModel_url fs0 ("file://" ++ MODEL_DIR ++ "/model.json") = Ok m ->
      jimp_initialize fs0 initial_globals = mkGlobals (Some m) [] ∅
      /\ forall input data,
           jimp_input fs imgPath = Ok input -> model_predict m input = Ok data ->
           fst (jimp_predict (jimp_initialize fs0 initial_globals) req fs)
           = Ok (mkResponse 200
                   (Json [("status", "success"); ("label", "Unknown");
                          ("confidence", confidence_of data (maxIdx_of data));
                          ("solution", "General care needed.");
                          ("pesticide", "Use appropriate pesticide.")]))).
Proof.
  intros Hnone Hfile Hpresent. split.
  - assert (Hg : canvas_initialize fs0 initial_globals = initial_globals).
    { unfold canvas_initialize, load_class_indices, readFileSync. now rewrite Hnone. }
    rewrite Hg. now apply (canvas_not_ready initial_globals req imgPath fs).
  - intros Hurl.
    assert (Hg : jimp_initialize fs0 initial_globals = mkGlobals (Some m) [] ∅).
    { unfold jimp_initialize, load_class_indices, readFileSync.
      rewrite Hurl. cbn [model labels solutions initial_globals]. now rewrite Hnone. }
    split; [exact Hg|]. intros input data Hin Hdata. rewrite Hg.
    rewrite (jimp_predict_success _ req imgPath fs m input data) by auto.
    cbv zeta. cbn [labels solutions]. unfold label_of.
    assert (Harr : arr_get (@nil value) (maxIdx_of data) = None).
    { unfold arr_get. destruct (maxIdx_of data <? 0)%Z; [reflexivity|].
      apply lookup_nil. }
    rewrite Harr. reflexivity.
Qed.

Lemma read_shards_delete (fs : Files) (imgPath : string) (shardPaths : list string) :
  (forall name, path_join MODEL_DIR name <> imgPath) ->
  read_shards (delete imgPath fs) shardPaths = read_shards fs shardPaths.
Proof.
  intros Hout. induction shardPaths as [|p ps IH]; [reflexivity|].
  simpl. unfold readFileSync. rewrite lookup_delete_ne by (intros H; symmetry in H; now apply Hout in H).
  now rewrite IH.
Qed.

Lemma canvas_load_model_delete (fs : Files) (imgPath : string) :
  (forall name, path_join MODEL_DIR name <> imgPath) ->
  canvas_load_model (delete imgPath fs) = canvas_load_model fs.
Proof.
  intros Hout. unfold canvas_load_model, readFileSync.
  rewrite lookup_delete_ne by (intros H; symmetry in H; now apply Hout in H).
  destruct (fs !! path_join MODEL_DIR "model.json") as [text|]; [|reflexivity].
  unfold mbind, outcome_bind. destruct (parse_model_json text) as [modelJson|]; [|reflexivity].
  unfold load_artifacts. destruct (weightsManifest modelJson); [reflexivity|].
  now rewrite read_shards_delete.
Qed.

(** X15.  Handling a request does not disturb the model artifacts: when the
    upload is not stored inside the model directory, [initialize] of the
    canvas server gives the same result on the file system a request
    leaves behind as on the one it found. *)
Theorem canvas_artifacts_survive (g g0 : Globals) (req : Request) (fs : Files) :
  (forall imgPath name, file req = Some imgPath -> path_join MODEL_DIR name <> imgPath) ->
  canvas_initialize (snd (canvas_predict g req fs)) g0 = canvas_initialize fs g0.
Proof.
  intros Hout. destruct (file req) as [imgPath|] eqn:Hfile.
  - rewrite (canvas_predict_file g req imgPath fs Hfile). cbn [snd].
    assert (Hne : forall name, path_join MODEL_DIR name <> imgPath)
      by (intros name; now apply Hout).
    assert (Hlook : forall name,
              delete imgPath fs !! path_join MODEL_DIR name = fs !! path_join MODEL_DIR name).
    { intros name. apply lookup_delete_ne. intros H. symmetry in H. now apply Hne in H. }
    unfold canvas_initialize, load_class_indices, load_solutions, readFileSync.
    now rewrite !Hlook, canvas_load_model_delete.
  - unfold canvas_predict. now rewrite Hfile.
Qed.
End Initialize.

(** ** Where each shard lies in the weight data *)

Lemma concat_shard_range {A} (contents : list (list A)) (j : nat) (b : list A) :
  contents !! j = Some b ->
  take (length b) (drop (sum_list (map length (take j contents))) (concat contents)) = b.
Proof.
  revert j. induction contents as [|c cs IH]; intros j Hj; [now rewrite lookup_nil in Hj|].
  destruct j as [|j].
  - simpl in Hj. injection Hj as ->. simpl. apply take_app_length.
  - simpl in Hj. cbn [take map sum_list sum_list_with concat].
    rewrite drop_app_add'; [|reflexivity]. now apply IH.
Qed.

Section ShardRanges.
Context {R : Runtime}.

(** X16.  The weight data handed to tfjs holds shard [j] of the first manifest
    entry at the byte range that starts at the total length of the shards
    before it: slicing the data there gives back the file's bytes, so the
    offsets of the weight specifications run across shard boundaries. *)
Theorem shard_byte_ranges (fs : Files) (modelJson : ModelJson Topology WeightSpec)
    (group0 : WeightsGroup WeightSpec) (rest : list (WeightsGroup WeightSpec))
    (contents : list (list byte)) :
  weightsManifest modelJson = group0 :: rest ->
  Forall2 (fun shardPath bytes => fs !! path_join MODEL_DIR shardPath = Some bytes)
          (paths group0) contents ->
  exists artifacts,
    load_artifacts fs modelJson = Ok artifacts
    /\ (forall j shardPath,
          paths group0 !! j = Some shardPath ->
          exists bytes start,
            fs !! path_join MODEL_DIR shardPath = Some bytes
            /\ start = sum_list (map length (take j contents))
            /\ ArrayBuffer_slice (weightData artifacts) start (start + length bytes) = bytes).
Proof.
  intros Hman Hall. eexists. split; [exact (load_artifacts_first fs modelJson group0 rest contents Hman Hall)|].
  cbn [weightData].
  intros j shardPath Hj.
  destruct (Forall2_lookup_l _ _ _ _ _ Hall Hj) as (bytes & Hb & Hfs).
  exists bytes, (sum_list (map length (take j contents))).
  split; [exact Hfs|]. split; [reflexivity|].
  unfold ArrayBuffer_slice.
  replace (sum_list (map length (take j contents)) + length bytes
           - sum_list (map length (take j contents))) with (length bytes) by lia.
  now apply concat_shard_range.
Qed.
End ShardRanges.

(** ** The training script *)

Lemma classes_from_cons (i : nat) (files : list string) (listings : list (list string)) :
  classes_from i (files :: listings)
  = replicate (length files) i ++ classes_from (S i) listings.
Proof.
  unfold classes_from. rewrite imap_cons. cbn [concat]. rewrite Nat.add_0_r.
  f_equal. f_equal. apply imap_ext. intros k x _. simpl. f_equal. lia.
Qed.

Lemma classes_from_length (i : nat) (listings : list (list string)) :
  length (classes_from i listings) = length (concat listings).
Proof.
  revert i. induction listings as [|files listings IH]; intros i; [reflexivity|].
  rewrite classes_from_cons. cbn [concat]. rewrite !length_app, length_replicate.
  now rewrite IH.
Qed.

Lemma classes_from_bound (i : nat) (listings : list (list string)) (c : nat) :
  c ∈ classes_from i listings -> i <= c < i + length listings.
Proof.
  revert i. induction listings as [|files listings IH]; intros i Hc.
  - inversion Hc.
  - rewrite classes_from_cons in Hc. apply elem_of_app in Hc as [Hc|Hc].
    + apply elem_of_replicate in Hc as [-> _]. simpl. lia.
    + apply IH in Hc. simpl. lia.
Qed.

Lemma oneHot_Ok (i depth : nat) :
  2 <= depth -> oneHot i depth = Ok (mkTensor [depth] (hot_row depth i)).
Proof.
  intros Hd. unfold oneHot. destruct (Nat.ltb_spec depth 2); [lia|reflexivity].
Qed.

Lemma oneHot_inv (i depth : nat) (y : Tensor Z) :
  oneHot i depth = Ok y -> 2 <= depth /\ y = mkTensor [depth] (hot_row depth i).
Proof.
  unfold oneHot. destruct (Nat.ltb_spec depth 2); [discriminate|].
  intros [= <-]. now split.
Qed.

Lemma hot_row_length (depth i : nat) : length (hot_row depth i) = depth.
Proof. unfold hot_row. now rewrite length_map, length_seq. Qed.

Lemma tf_concat_nil_iff {A} (tensors : list (Tensor A)) (t : Tensor A) :
  tf_concat tensors = Ok t -> tensors <> [].
Proof. destruct tensors; [discriminate|discriminate]. Qed.

Lemma tf_concat_same_shape {A} (tensors : list (Tensor A)) (d : nat) (dims : list nat) :
  tensors <> [] -> Forall (fun t => shape t = d :: dims) tensors ->
  tf_concat tensors
  = Ok (mkTensor (length tensors * d :: dims) (flat_map data tensors)).
Proof.
  intros Hne Hall. destruct tensors as [|t ts]; [congruence|].
  unfold tf_concat.
  assert (Ht : shape t = d :: dims) by now apply Forall_cons in Hall as [? _].
  rewrite Ht. cbn [tail].
  assert (Hcheck : forallb (fun t' => bool_decide (shape t' <> [] /\ tail (shape t') = dims))
                     (t :: ts) = true).
  { apply forallb_forall. intros t' Hin. apply bool_decide_eq_true_2.
    apply list_elem_of_In in Hin.
    rewrite (proj1 (List.Forall_forall _ _) Hall t') by now apply list_elem_of_In.
    split; [discriminate|reflexivity]. }
  rewrite Hcheck. do 2 f_equal. f_equal.
  clear Hcheck Hne Ht. induction Hall as [|t' ts' Ht' _ IH]; [reflexivity|].
  change (hd 0 (shape t') + sum_list (map (fun t'0 : Tensor A => hd 0 (shape t'0)) ts')
          = d + length ts' * d).
  rewrite Ht', IH. reflexivity.
Qed.

Lemma Ok_pair_inv {A B} (a a' : A) (b b' : B) :
  Ok (a, b) = Ok (a', b') -> a = a' /\ b = b'.
Proof. intros [= -> ->]. now split. Qed.

Section TrainingFacts.
Context {R : Runtime}.
Variable DATA_DIR : string.
Variable fs : Files.
Variable dirs : Dirs.

Lemma loadImageTensor_canvas (filePath : string) :
  loadImageTensor fs filePath
  = match loadImage fs filePath with
    | Ok img => Ok (canvas_input img)
    | Throw e => Throw e
    end.
Proof. reflexivity. Qed.

Lemma load_files_ok (folder : string) (i depth : nat) (files : list string)
    (images : list Image) xs ys :
  2 <= depth ->
  Forall2 (fun file img => loadImage fs (path_join folder file) = Ok img) files images ->
  load_files fs folder i depth files xs ys
  = Ok (xs ++ map canvas_input images,
        ys ++ replicate (length files) (mkTensor [depth] (hot_row depth i))).
Proof.
  intros Hd Hall. revert xs ys.
  induction Hall as [|file img files images Himg _ IH]; intros xs ys.
  - cbn [load_files map length replicate]. now rewrite !app_nil_r.
  - cbn [load_files]. rewrite loadImageTensor_canvas, Himg.
    unfold mbind at 1, outcome_bind at 1. rewrite (oneHot_Ok i depth Hd).
    unfold mbind at 1, outcome_bind at 1. rewrite IH.
    cbn [map length replicate]. now rewrite <- !app_assoc.
Qed.

Lemma load_files_inv (folder : string) (i depth : nat) (files : list string) xs ys acc :
  load_files fs folder i depth files xs ys = Ok acc ->
  (files <> [] -> 2 <= depth)
  /\ exists images,
       Forall2 (fun file img => loadImage fs (path_join folder file) = Ok img) files images
       /\ acc = (xs ++ map canvas_input images,
                 ys ++ replicate (length files) (mkTensor [depth] (hot_row depth i))).
Proof.
  revert xs ys. induction files as [|file files IH]; intros xs ys H.
  - cbn [load_files] in H. injection H as <-. split; [congruence|].
    exists []. split; [constructor|]. cbn. now rewrite !app_nil_r.
  - cbn [load_files] in H. rewrite loadImageTensor_canvas in H.
    destruct (loadImage fs (path_join folder file)) as [img|] eqn:Himg; [|discriminate].
    unfold mbind at 1, outcome_bind at 1 in H.
    destruct (oneHot i depth) as [y|] eqn:Hy; [|discriminate].
    apply oneHot_inv in Hy as [Hd ->].
    unfold mbind at 1, outcome_bind at 1 in H.
    apply IH in H as (_ & images & Hall & ->).
    split; [auto|]. exists (img :: images). split; [now constructor|].
    cbn [map length replicate]. now rewrite <- !app_assoc.
Qed.

Lemma load_classes_ok (rest : list string) (listings : list (list string))
    (images : list Image) (i depth : nat) xs ys :
  2 <= depth ->
  Forall2 (fun label files => dirs !! path_join DATA_DIR label = Some files) rest listings ->
  Forall2 (fun filePath img => loadImage fs filePath = Ok img)
          (dataset_paths DATA_DIR rest listings) images ->
  load_classes DATA_DIR fs dirs rest i depth xs ys
  = Ok (xs ++ map canvas_input images,
        ys ++ map (fun c => mkTensor [depth] (hot_row depth c)) (classes_from i listings)).
Proof.
  intros Hd Hdirs. revert images i xs ys.
  induction Hdirs as [|label files rest listings Hdir _ IH]; intros images i xs ys Himgs.
  - cbn in Himgs. inversion Himgs; subst. cbn. now rewrite !app_nil_r.
  - unfold dataset_paths in Himgs. cbn [zip_with concat] in Himgs.
    apply Forall2_app_inv_l in Himgs as (images1 & images2 & H1 & H2 & ->).
    apply Forall2_fmap_l in H1.
    cbn [load_classes]. unfold readFileSync, readdirSync. rewrite Hdir.
    unfold mbind at 1, outcome_bind at 1.
    rewrite (load_files_ok _ i depth files images1 xs ys Hd H1).
    unfold mbind at 1, outcome_bind at 1. cbn [fst snd].
    rewrite (IH images2 (S i) _ _ H2).
    rewrite classes_from_cons, !map_app, <- !app_assoc.
    do 3 f_equal. clear. induction (length files); [reflexivity|]. cbn. now f_equal.
Qed.

Lemma load_classes_inv (rest : list string) (i depth : nat) xs ys acc :
  load_classes DATA_DIR fs dirs rest i depth xs ys = Ok acc ->
  exists listings images,
    Forall2 (fun label files => dirs !! path_join DATA_DIR label = Some files) rest listings
    /\ Forall2 (fun filePath img => loadImage fs filePath = Ok img)
               (dataset_paths DATA_DIR rest listings) images
    /\ (images <> [] -> 2 <= depth)
    /\ acc = (xs ++ map canvas_input images,
              ys ++ map (fun c => mkTensor [depth] (hot_row depth c))
                        (classes_from i listings)).
Proof.
  revert i xs ys. induction rest as [|label rest IH]; intros i xs ys H.
  - cbn [load_classes] in H. injection H as <-. exists [], []. repeat split.
    + constructor.
    + constructor.
    + congruence.
    + cbn. now rewrite !app_nil_r.
  - cbn [load_classes] in H. unfold readdirSync in H.
    destruct (dirs !! path_join DATA_DIR label) as [files|] eqn:Hdir; [|discriminate].
    unfold mbind at 1, outcome_bind at 1 in H.
    destruct (load_files fs (path_join DATA_DIR label) i depth files xs ys) as [acc1|] eqn:Hf;
      [|discriminate].
    apply load_files_inv in Hf as (Hd1 & images1 & H1 & ->).
    unfold mbind at 1, outcome_bind at 1 in H. cbn [fst snd] in H.
    apply IH in H as (listings & images2 & Hdirs & H2 & Hd2 & ->).
    exists (files :: listings), (images1 ++ images2). repeat split.
    + now constructor.
    + unfold dataset_paths. cbn [zip_with concat]. apply Forall2_app; [|exact H2].
      now apply Forall2_fmap_l.
    + intros Hne. destruct images1 as [|img images1].
      * apply Hd2. exact Hne.
      * apply Hd1. inversion H1; congruence.
    + rewrite classes_from_cons, !map_app, <- !app_assoc.
      do 3 f_equal. clear. induction (length files); [reflexivity|]. cbn. now f_equal.
Qed.

Lemma canvas_input_shape (img : Image) : shape (canvas_input img) = [1; 224; 224; 3].
Proof. reflexivity. Qed.

Lemma canvas_input_length (img : Image) : length (data (canvas_input img)) = 224 * 224 * 3.
Proof.
  unfold canvas_input. rewrite normalize_data, length_map, fromPixels_length. reflexivity.
Qed.

Lemma dataset_paths_length (labels : list string) (listings : list (list string)) :
  length labels = length listings ->
  length (dataset_paths DATA_DIR labels listings) = length (concat listings).
Proof.
  revert listings. induction labels as [|label labels IH]; intros [|files listings] Hlen;
    try discriminate; [reflexivity|].
  unfold dataset_paths. cbn [zip_with concat]. rewrite !length_app, length_map.
  f_equal. apply IH. now injection Hlen.
Qed.

Lemma loadDataset_closed (labels : list string) (listings : list (list string))
    (images : list Image) :
  2 <= length labels ->
  Forall2 (fun label files => dirs !! path_join DATA_DIR label = Some files) labels listings ->
  Forall2 (fun filePath img => loadImage fs filePath = Ok img)
          (dataset_paths DATA_DIR labels listings) images ->
  images <> [] ->
  loadDataset DATA_DIR fs dirs labels
  = Ok (mkTensor [length images; 224; 224; 3]
                 (flat_map (fun img => data (canvas_input img)) images),
        mkTensor [length images * length labels]
                 (flat_map (hot_row (length labels)) (dataset_classes listings))).
Proof.
  intros Hd Hdirs Himgs Hne. unfold loadDataset.
  rewrite (load_classes_ok labels listings images 0 _ [] [] Hd Hdirs Himgs).
  unfold mbind at 1, outcome_bind at 1. cbn [fst snd app].
  rewrite (tf_concat_same_shape (map canvas_input images) 1 [224; 224; 3]).
  2:{ destruct images; [congruence|discriminate]. }
  2:{ apply Forall_forall. intros t Ht. apply list_elem_of_fmap in Ht as (img & -> & _).
      reflexivity. }
  unfold mbind at 1, outcome_bind at 1.
  assert (Hcount : length (classes_from 0 listings) = length images).
  { rewrite classes_from_length, <- (dataset_paths_length labels listings).
    - eapply Forall2_length; eassumption.
    - eapply Forall2_length; eassumption. }
  rewrite (tf_concat_same_shape _ (length labels) []).
  2:{ destruct (classes_from 0 listings); [|discriminate].
      simpl in Hcount. destruct images; [congruence|discriminate]. }
  2:{ apply Forall_forall. intros t Ht. apply list_elem_of_fmap in Ht as (c & -> & _).
      reflexivity. }
  unfold mbind, outcome_bind. rewrite !length_map, Hcount, Nat.mul_1_r.
  do 3 f_equal.
  - clear. induction images as [|img images IH]; [reflexivity|]. cbn [map flat_map].
    now rewrite IH.
  - unfold dataset_classes. clear. induction (classes_from 0 listings) as [|c cs IH];
      [reflexivity|]. cbn [map flat_map data]. now rewrite IH.
Qed.

Lemma loadDataset_inv (labels : list string) r :
  loadDataset DATA_DIR fs dirs labels = Ok r ->
  2 <= length labels
  /\ exists listings images,
       Forall2 (fun label files => dirs !! path_join DATA_DIR label = Some files)
               labels listings
       /\ Forall2 (fun filePath img => loadImage fs filePath = Ok img)
                  (dataset_paths DATA_DIR labels listings) images
       /\ images <> [].
Proof.
  unfold loadDataset. intros H.
  destruct (load_classes DATA_DIR fs dirs labels 0 (length labels) [] []) as [acc|] eqn:Hc;
    [|discriminate].
  apply load_classes_inv in Hc as (listings & images & Hdirs & Himgs & Hd & ->).
  unfold mbind at 1, outcome_bind at 1 in H. cbn [fst snd app] in H.
  destruct (tf_concat (map canvas_input images)) as [x|] eqn:Hx; [|discriminate].
  apply tf_concat_nil_iff in Hx.
  assert (Hne : images <> []) by (intros ->; now apply Hx).
  split; [auto|]. exists listings, images. auto.
Qed.

(** X17.  What [loadDataset] returns, and when.  It returns exactly when there
    are at least two labels, every label is a directory of the data
    folder, every file of these directories loads as an image, and there
    is at least one file.  Then [xs] has shape [N, 224, 224, 3] and holds,
    image after image in the order of the labels and of the directory
    listings, the tensor the canvas server feeds the model for that image;
    [ys] is one-dimensional with N times [labels.length] values, the
    one-hot rows of the class indices one after the other. *)
Theorem loadDataset_result (labels : list string) :
  (forall listings images,
     2 <= length labels ->
     Forall2 (fun label files => dirs !! path_join DATA_DIR label = Some files)
             labels listings ->
     Forall2 (fun filePath img => loadImage fs filePath = Ok img)
             (dataset_paths DATA_DIR labels listings) images ->
     images <> [] ->
     loadDataset DATA_DIR fs dirs labels
     = Ok (mkTensor [length images; 224; 224; 3]
                    (flat_map (fun img => data (canvas_input img)) images),
           mkTensor [length images * length labels]
                    (flat_map (hot_row (length labels)) (dataset_classes listings))))
  /\ (forall r,
        loadDataset DATA_DIR fs dirs labels = Ok r ->
        2 <= length labels
        /\ exists listings images,
             Forall2 (fun label files => dirs !! path_join DATA_DIR label = Some files)
                     labels listings
             /\ Forall2 (fun filePath img => loadImage fs filePath = Ok img)
                        (dataset_paths DATA_DIR labels listings) images
             /\ images <> []).
Proof.
  split.
  - intros listings images. apply loadDataset_closed.
  - apply loadDataset_inv.
Qed.

(** X18.  The two tensors [loadDataset] hands to [model.fit] never agree on
    the number of samples: whenever it returns, [xs] has N >= 1 images of
    224 x 224 x 3 values each, and [ys], concatenated along its only axis, has
    one dimension of N times [labels.length] values with
    [labels.length] >= 2. *)
Theorem loadDataset_sample_counts (labels : list string) (xs : Tensor spec_float)
    (ys : Tensor Z) :
  loadDataset DATA_DIR fs dirs labels = Ok (xs, ys) ->
  exists n,
    1 <= n /\ 2 <= length labels
    /\ shape xs = [n; 224; 224; 3] /\ length (data xs) = n * (224 * 224 * 3)
    /\ shape ys = [n * length labels] /\ length (data ys) = n * length labels
    /\ hd 0 (shape ys) <> hd 0 (shape xs).
Proof.
  intros H.
  destruct (loadDataset_inv labels _ H) as (Hd & listings & images & Hdirs & Himgs & Hne).
  rewrite (loadDataset_closed labels listings images Hd Hdirs Himgs Hne) in H.
  apply Ok_pair_inv in H as [<- <-]. exists (length images).
  assert (Hn : 1 <= length images) by (destruct images; [congruence|simpl; lia]).
  assert (Hcount : length (dataset_classes listings) = length images).
  { unfold dataset_classes.
    rewrite classes_from_length, <- (dataset_paths_length labels listings).
    - eapply Forall2_length; eassumption.
    - eapply Forall2_length; eassumption. }
  split; [exact Hn|]. split; [exact Hd|]. split; [reflexivity|]. split.
  { cbn [data]. apply length_flat_map_const. intros img. apply canvas_input_length. }
  split; [reflexivity|]. split.
  { cbn [data]. rewrite (length_flat_map_const _ (length labels)), Hcount; [reflexivity|].
    intros c. apply hot_row_length. }
  cbn [shape hd]. nia.
Qed.
End TrainingFacts.

(** ** Targets and served labels *)

Lemma fold_max_hot (l : list spec_float) (acc : spec_float) :
  Forall (fun x => x = f32_of_Z 0 \/ x = f32_of_Z 1) l ->
  acc = S754_infinity true \/ acc = f32_of_Z 0 \/ acc = f32_of_Z 1 ->
  acc = f32_of_Z 1 \/ f32_of_Z 1 ∈ l ->
  fold_left max_step l acc = f32_of_Z 1.
Proof.
  intros Hl. revert acc. induction Hl as [|x l Hx _ IH]; intros acc Hacc Hone.
  - destruct Hone as [->|Hin]; [reflexivity|inversion Hin].
  - cbn [fold_left]. apply IH.
    + destruct Hacc as [->|[->| ->]], Hx as [->| ->]; vm_compute; auto.
    + destruct Hone as [->|Hin].
      * left. destruct Hx as [->| ->]; reflexivity.
      * apply elem_of_cons in Hin as [<-|Hin]; [|now right].
        left. destruct Hacc as [->|[->| ->]]; reflexivity.
Qed.

Lemma indexOf_hot (s n i : nat) (k : Z) :
  s <= i < s + n ->
  indexOf_from (map f32_of_Z (map (fun j => if Nat.eqb j i then 1%Z else 0%Z) (seq s n)))
               (f32_of_Z 1) k
  = (k + Z.of_nat (i - s))%Z.
Proof.
  revert s k. induction n as [|n IH]; intros s k Hi; [lia|].
  cbn [seq map indexOf_from]. destruct (Nat.eqb_spec s i) as [->|Hne].
  - replace (SFeqb (f32_of_Z 1) (f32_of_Z 1)) with true by reflexivity.
    rewrite Nat.sub_diag. simpl. lia.
  - replace (SFeqb (f32_of_Z 0) (f32_of_Z 1)) with false by reflexivity.
    rewrite IH by lia. lia.
Qed.

Lemma maxIdx_hot (depth i : nat) :
  i < depth -> maxIdx_of (map f32_of_Z (hot_row depth i)) = Z.of_nat i.
Proof.
  intros Hi. unfold maxIdx_of, indexOf, Math_max.
  rewrite (fold_max_hot _ (S754_infinity true)).
  - unfold hot_row. rewrite indexOf_hot by lia. rewrite Nat.sub_0_r. lia.
  - apply Forall_forall. intros x Hx. apply list_elem_of_fmap in Hx as (z & -> & Hz).
    unfold hot_row in Hz. apply list_elem_of_fmap in Hz as (j & -> & _).
    destruct (Nat.eqb j i); auto.
  - auto.
  - right. apply list_elem_of_fmap. exists 1%Z. split; [reflexivity|].
    unfold hot_row. apply list_elem_of_fmap. exists i. rewrite Nat.eqb_refl.
    split; [reflexivity|]. apply elem_of_seq. lia.
Qed.

Section TrainingFailures.
Context {R : Runtime}.
Variable DATA_DIR : string.
Variable fs : Files.
Variable dirs : Dirs.

Lemma load_classes_empty (rest : list string) (i depth : nat) xs ys :
  (forall label, label ∈ rest -> dirs !! path_join DATA_DIR label = Some []) ->
  load_classes DATA_DIR fs dirs rest i depth xs ys = Ok (xs, ys).
Proof.
  revert i. induction rest as [|label rest IH]; intros i Hall; [reflexivity|].
  cbn [load_classes]. unfold readdirSync. rewrite (Hall label) by left.
  unfold mbind, outcome_bind. cbn [load_files fst snd].
  apply IH. intros l Hl. apply Hall. now right.
Qed.

Lemma dataset_paths_elem (labels : list string) (listings : list (list string))
    (label file : string) (files : list string) :
  Forall2 (fun label files => dirs !! path_join DATA_DIR label = Some files) labels listings ->
  label ∈ labels -> dirs !! path_join DATA_DIR label = Some files -> file ∈ files ->
  path_join (path_join DATA_DIR label) file ∈ dataset_paths DATA_DIR labels listings.
Proof.
  intros Hall Hlabel Hdir Hfile.
  induction Hall as [|l fl labels listings Hl _ IH]; [inversion Hlabel|].
  unfold dataset_paths. cbn [zip_with concat]. apply elem_of_app.
  apply elem_of_cons in Hlabel as [->|Hlabel].
  - left. rewrite Hdir in Hl. injection Hl as <-.
    apply list_elem_of_fmap. now exists file.
  - right. now apply IH.
Qed.

(** X19.  When [loadDataset] throws, so that nothing is trained.  A data folder
    without entries, or whose class folders are all empty, fails in
    [tf.concat]; fewer than two labels always fail; so does an entry of
    the data folder that is not a directory, and a single file of a class
    folder that does not load as an image. *)
Theorem loadDataset_failures (labels : list string) :
  ((forall label, label ∈ labels -> dirs !! path_join DATA_DIR label = Some []) ->
   loadDataset DATA_DIR fs dirs labels = Throw "Pass at least one tensor to concat")
  /\ (length labels < 2 -> exists e, loadDataset DATA_DIR fs dirs labels = Throw e)
  /\ (forall label,
        label ∈ labels -> dirs !! path_join DATA_DIR label = None ->
        exists e, loadDataset DATA_DIR fs dirs labels = Throw e)
  /\ (forall label files file e',
        label ∈ labels -> dirs !! path_join DATA_DIR label = Some files -> file ∈ files ->
        loadImage fs (path_join (path_join DATA_DIR label) file) = Throw e' ->
        exists e, loadDataset DATA_DIR fs dirs labels = Throw e).
Proof.
  split; [|split; [|split]].
  - intros Hall. unfold loadDataset. now rewrite load_classes_empty.
  - intros Hlt. destruct (loadDataset DATA_DIR fs dirs labels) as [r|e] eqn:H; [|now exists e].
    apply loadDataset_inv in H as [Hd _]. lia.
  - intros label Hlabel Hnone.
    destruct (loadDataset DATA_DIR fs dirs labels) as [r|e] eqn:H; [|now exists e].
    apply loadDataset_inv in H as (_ & listings & images & Hdirs & _).
    apply list_elem_of_lookup in Hlabel as [j Hj].
    destruct (Forall2_lookup_l _ _ _ _ _ Hdirs Hj) as (files & _ & Hsome). congruence.
  - intros label files file e' Hlabel Hdir Hfile Himg.
    destruct (loadDataset DATA_DIR fs dirs labels) as [r|e] eqn:H; [|now exists e].
    apply loadDataset_inv in H as (_ & listings & images & Hdirs & Himgs & _).
    pose proof (dataset_paths_elem labels listings label file files Hdirs Hlabel Hdir Hfile)
      as Hin.
    apply list_elem_of_lookup in Hin as [j Hj].
    destruct (Forall2_lookup_l _ _ _ _ _ Himgs Hj) as (img & _ & Hok). congruence.
Qed.
End TrainingFailures.

(** X20.  From a training target to the served label.  The target row that
    [loadDataset] builds for an image of class folder number [i] has its
    first maximum at [i], and the label list the server reads back from
    the class-index file of the same training run holds the name of that
    folder at [i]: an output vector equal to the target makes the server
    answer the folder's name. *)
Theorem target_row_served_label (labels : list string) (i : nat) (name : string)
    (y : Tensor Z) :
  labels !! i = Some name -> name <> "" ->
  oneHot i (length labels) = Ok y ->
  shape y = [length labels]
  /\ maxIdx_of (map f32_of_Z (data y)) = Z.of_nat i
  /\ label_of (load_labels (write_class_indices labels))
              (maxIdx_of (map f32_of_Z (data y))) = name.
Proof.
  intros Hname Hne Hy. apply oneHot_inv in Hy as [_ ->]. cbn [shape data].
  assert (Hi : i < length labels) by (eapply lookup_lt_Some; eassumption).
  split; [reflexivity|]. rewrite (maxIdx_hot _ _ Hi). split; [reflexivity|].
  rewrite written_labels_read_back. unfold label_of.
  rewrite arr_get_nat, map_fmap, list_lookup_fmap, Hname. simpl.
  destruct (String.eqb_spec name ""); [contradiction|reflexivity].
Qed.

(** ** The properties at concrete inputs *)

Lemma failure_responses_witness :
  file example_request = Some "uploads/leaf"
  /\ fst (canvas_predict (R := example_runtime) initial_globals example_request example_files)
     = Ok (mkResponse 500
             (Json [("status", "error"); ("message", "Model not loaded yet.")])).
Proof.
  split; [reflexivity|].
  exact (proj1 (failure_responses (R := example_runtime) initial_globals example_request
                  "uploads/leaf" example_files eq_refl)
               "Model not loaded yet." eq_refl).
Defined.

Lemma jimp_entry_overrides_witness :
  NoDup (map fst [("solution", "Remove infected leaves."); ("label", "Early blight")])
  /\ obj_lookup (jimp_success "Tomato___Early_blight" "50.00"
                   [("solution", "Remove infected leaves."); ("label", "Early blight")])
                "label"
     = Some "Early blight".
Proof.
  assert (Hnd : NoDup (map fst [("solution", "Remove infected leaves.");
                                ("label", "Early blight")]))
    by (apply NoDup_ListNoDup; repeat constructor; simpl; intuition discriminate).
  split; [exact Hnd|].
  exact (jimp_entry_overrides "Tomato___Early_blight" "50.00"
           [("solution", "Remove infected leaves."); ("label", "Early blight")] "label" Hnd).
Defined.

Lemma nan_output_answer_witness :
  file example_request = Some "uploads/leaf"
  /\ is_Some (example_files !! "uploads/leaf")
  /\ fst (canvas_predict (R := nan_runtime)
            (@mkGlobals nan_runtime (Some tt) [Str "Tomato___Early_blight"] ∅)
            example_request example_files)
     = Ok (res_json 200
             [("status", Str "success"); ("label", Str "Unknown");
              ("confidence", Str "NaN");
              ("solution", Str "Use proper fertilizers and care.");
              ("pesticide", Str "Apply recommended pesticide.")]).
Proof.
  split; [reflexivity|]. split; [exact example_upload_present|].
  assert (Hbad : [f32_tenths 2; S754_nan] = []
                 \/ Exists (fun x => is_nan x = true) [f32_tenths 2; S754_nan])
    by (right; apply Exists_cons_tl, Exists_cons_hd; reflexivity).
  exact (proj1 (nan_output_answer (R := nan_runtime)
                  (@mkGlobals nan_runtime (Some tt) [Str "Tomato___Early_blight"] ∅)
                  example_request "uploads/leaf" example_files tt
                  [f32_tenths 2; S754_nan]
                  eq_refl example_upload_present eq_refl
                  Hbad)
               ["255"; "000"; "000"; "255"]%byte eq_refl eq_refl).
Defined.

Lemma labels_order_independent_witness :
  [("1", "B"); ("0", "A")] ≡ₚ [("0", "A"); ("1", "B")]
  /\ load_labels [("1", "B"); ("0", "A")] = load_labels [("0", "A"); ("1", "B")].
Proof.
  assert (Hperm : [("1", "B"); ("0", "A")] ≡ₚ [("0", "A"); ("1", "B")])
    by apply perm_swap.
  split; [exact Hperm|].
  apply (labels_order_independent _ _ Hperm).
  - repeat constructor; eexists; (split; [reflexivity|]); reflexivity.
  - apply NoDup_ListNoDup. repeat constructor; simpl; intuition discriminate.
Defined.

Lemma trained_label_is_class_name_witness :
  exists (i : nat) (name : string),
    maxIdx_of (map f32_tenths [2; 5]%Z) = Z.of_nat i
    /\ ["Tomato___Early_blight"; "Tomato___healthy"] !! i = Some name
    /\ label_of (load_labels (write_class_indices
                                ["Tomato___Early_blight"; "Tomato___healthy"]))
                (maxIdx_of (map f32_tenths [2; 5]%Z)) = name.
Proof.
  apply (trained_label_is_class_name ["Tomato___Early_blight"; "Tomato___healthy"]
           (map f32_tenths [2; 5]%Z)).
  - reflexivity.
  - discriminate.
  - repeat constructor.
  - repeat constructor; discriminate.
Defined.

Lemma canvas_initialize_ready_witness :
  canvas_initialize (R := example_runtime) model_files initial_globals
  = @mkGlobals example_runtime (Some tt)
      (load_labels [("1", "Tomato___healthy"); ("0", "Tomato___Early_blight")]) ∅.
Proof.
  apply (canvas_initialize_ready (R := example_runtime) model_files initial_globals
           [] [] _ ∅ two_group_manifest
           (mkGroup ["group1-shard1of1.bin"] ["conv/kernel"])
           [mkGroup ["group2-shard1of1.bin"] ["dense/kernel"]]
           [["001"; "002"]%byte] tt).
  - reflexivity.
  - reflexivity.
  - left. split; reflexivity.
  - reflexivity.
  - reflexivity.
  - reflexivity.
  - repeat constructor.
  - reflexivity.
Defined.

Lemma missing_class_indices_witness :
  example_files !! "model/class_indices.json" = None
  /\ fst (canvas_predict (R := example_runtime)
            (canvas_initialize example_files initial_globals)
            example_request example_files)
     = Ok (mkResponse 500 (Json [("status", "error"); ("message", "Model not loaded yet.")])).
Proof.
  split; [reflexivity|].
  exact (proj1 (missing_class_indices (R := example_runtime) example_files example_files
                  example_request "uploads/leaf" tt eq_refl eq_refl
                  example_upload_present)).
Defined.

Lemma canvas_artifacts_survive_witness :
  canvas_initialize (R := example_runtime)
    (snd (canvas_predict ready_globals example_request model_files)) initial_globals
  = canvas_initialize model_files initial_globals.
Proof.
  apply (canvas_artifacts_survive (R := example_runtime)).
  intros imgPath name [= <-]. simpl. discriminate.
Defined.

Lemma shard_byte_ranges_witness :
  exists artifacts,
    load_artifacts (R := example_runtime) example_files two_group_manifest = Ok artifacts
    /\ forall j shardPath,
         ["group1-shard1of1.bin"] !! j = Some shardPath ->
         exists bytes start,
           example_files !! ("model" ++ "/" ++ shardPath)%string = Some bytes
           /\ start = sum_list (map length (take j [["001"; "002"]%byte]))
           /\ ArrayBuffer_slice (weightData artifacts) start (start + length bytes) = bytes.
Proof.
  apply (shard_byte_ranges (R := example_runtime) example_files two_group_manifest
           (mkGroup ["group1-shard1of1.bin"] ["conv/kernel"])
           [mkGroup ["group2-shard1of1.bin"] ["dense/kernel"]]
           [["001"; "002"]%byte]).
  - reflexivity.
  - repeat constructor.
Defined.

Lemma target_row_served_label_witness :
  oneHot 1 2 = Ok (mkTensor [2] [0; 1]%Z)
  /\ maxIdx_of (map f32_of_Z [0; 1]%Z) = 1%Z
  /\ label_of (load_labels (write_class_indices
                              ["Tomato___Early_blight"; "Tomato___healthy"]))
              (maxIdx_of (map f32_of_Z [0; 1]%Z)) = "Tomato___healthy".
Proof.
  split; [reflexivity|].
  apply (target_row_served_label ["Tomato___Early_blight"; "Tomato___healthy"] 1
           "Tomato___healthy" (mkTensor [2] [0; 1]%Z)).
  - reflexivity.
  - discriminate.
  - reflexivity.
Defined.

Lemma loadDataset_sample_counts_witness :
  loadDataset (R := example_runtime) "data" example_images example_dirs
    ["Tomato___Early_blight"; "Tomato___healthy"]
  = Ok (mkTensor [2; 224; 224; 3]
          (flat_map (fun img => data (canvas_input (R := example_runtime) img))
             [["255"; "000"; "000"; "255"]%byte; ["000"; "255"; "000"; "255"]%byte]),
        mkTensor [4] (flat_map (hot_row 2) [0; 1]))
  /\ exists n, 1 <= n /\ [4] = [n * 2] /\ 4 <> 2.
Proof.
  assert (Hload :
    loadDataset (R := example_runtime) "data" example_images example_dirs
      ["Tomato___Early_blight"; "Tomato___healthy"]
    = Ok (mkTensor [2; 224; 224; 3]
            (flat_map (fun img => data (canvas_input (R := example_runtime) img))
               [["255"; "000"; "000"; "255"]%byte; ["000"; "255"; "000"; "255"]%byte]),
          mkTensor [4] (flat_map (hot_row 2) [0; 1]))).
  { apply (loadDataset_closed (R := example_runtime) "data" example_images example_dirs
             ["Tomato___Early_blight"; "Tomato___healthy"]
             [["a.jpg"]; ["b.jpg"]]
             [["255"; "000"; "000"; "255"]%byte; ["000"; "255"; "000"; "255"]%byte]).
    - apply le_n.
    - repeat constructor.
    - repeat constructor.
    - discriminate. }
  split; [exact Hload|].
  destruct (loadDataset_sample_counts (R := example_runtime) "data" example_images
              example_dirs _ _ _ Hload) as (n & Hn & _ & _ & _ & Hy & _ & Hne).
  exists n. split; [exact Hn|]. split; [exact Hy|exact Hne].
Defined.

Lemma canvas_answer_fields_witness :
  (exists fields,
     fst (canvas_predict (R := example_runtime) ready_globals example_request example_files)
     = Ok (mkResponse 200 (Json fields))
     /\ obj_lookup fields "label" = Some "Tomato___healthy"
     /\ obj_lookup fields "solution" = Some "Use proper fertilizers and care."
     /\ obj_lookup fields "pesticide" = Some "Apply recommended pesticide.")
  /\ (exists fields,
        fst (canvas_predict (R := example_runtime)
               (@mkGlobals example_runtime (Some tt) [Str "toString"; Str "constructor"] ∅)
               example_request example_files)
        = Ok (mkResponse 200 (Json fields))
        /\ obj_lookup fields "label" = Some "constructor"
        /\ obj_lookup fields "solution" = None
        /\ obj_lookup fields "pesticide" = None).
Proof.
  split.
  - destruct (canvas_answer_fields (R := example_runtime) ready_globals example_request
                "uploads/leaf" example_files tt ["255"; "000"; "000"; "255"]%byte
                (map f32_tenths [2; 5; 5; 1]%Z)
                eq_refl example_upload_present eq_refl eq_refl eq_refl)
      as (fields & Hres & _ & _ & _ & Hlabel & _ & _ & Hdefault & _).
    exists fields. split; [exact Hres|]. split; [exact Hlabel|].
    exact (Hdefault eq_refl eq_refl).
  - destruct (canvas_answer_fields (R := example_runtime)
                (@mkGlobals example_runtime (Some tt) [Str "toString"; Str "constructor"] ∅)
                example_request
                "uploads/leaf" example_files tt ["255"; "000"; "000"; "255"]%byte
                (map f32_tenths [2; 5; 5; 1]%Z)
                eq_refl example_upload_present eq_refl eq_refl eq_refl)
      as (fields & Hres & _ & _ & _ & Hlabel & _ & _ & _ & Hinherited).
    exists fields. split; [exact Hres|]. split; [exact Hlabel|].
    exact (Hinherited eq_refl eq_refl).
Defined.
